(** * Presence coordinator of server/src/websocket/connection.js

    A shallow embedding of the Socket.IO connection handler and of the
    three process-local maps it keeps ([connections], [rooms],
    [userSockets]), followed by the properties of the registry, the room
    index, moderation, emergency escalation and the stale-connection sweep.

    Conventions of the embedding.
    - A JavaScript [Map] is an insertion-ordered association list with unique
      keys, a [Set] an insertion-ordered list without duplicates: the
      iteration order of both is visible in the code (participant arrays,
      the order of emergency notifications, the order of the sweep).
    - The program is modelled at two grains.  [run] executes the listener
      of one event from its start to its end, as a function
      [State -> State * list Output]; [settled] are the states reached when
      every listener has finished before the next event arrives.  [step]
      executes one stretch of code between two [await]s: the listener of an
      arriving event up to its first [await], or a suspended handler from
      the [await] it stands at to the next; [reachable] are the
      configurations (maps and suspended handlers) of all schedules.
      [run_uninterrupted] and [settled_reachable] relate the two: [run] is
      the schedule that resumes the handler at once, and every settled
      state is a reachable configuration with nothing suspended.
    - A handler that reads a registry object before an [await] and uses it
      after (lines 260 and 387) holds the object, not the key: the objects
      deleted from the registry are kept in the configuration for as long
      as a suspended handler may use them.
    - The outputs are the emits, with the sockets they reach,
      acknowledgments and forced terminations, in program order.  Every
      awaited Redis call resolves.  The schedules let any suspended handler
      be the next to run and put no order on the clock readings; the
      schedules named in this file resume the handlers in the order in
      which their Redis commands were sent.
    - Socket.IO is modelled by what the handler uses of it: the set of live
      sockets ([io.sockets.sockets]), the rooms each socket has joined
      (every socket starts in the room named by its own id, which is what
      [io.to(sid)] at line 265 relies on and what [socket.to] leaves out),
      [emit] to a socket or to a room, and [disconnect(true)], which leaves
      all rooms, removes the socket and fires the ['disconnect'] listener
      before it returns.  Connection ids are never handed out twice while
      anything of the earlier connection is left.
    - All the [new Date()] and [Date.now()] readings of one stretch of code
      are one clock value [now], in milliseconds. *)

From Stdlib Require Import List String ZArith Lia Bool Permutation.
Import ListNotations.
Open Scope string_scope.

(** ** JavaScript containers *)

Module JsSet.

Definition t := list string.

Definition has (s : t) (x : string) : bool := existsb (String.eqb x) s.

Definition add (s : t) (x : string) : t :=
  if has s x then s else (s ++ [x])%list.

Definition delete (s : t) (x : string) : t :=
  filter (fun y => negb (String.eqb y x)) s.

Definition size (s : t) : nat := List.length s.

End JsSet.

Module JsMap.

Definition t (V : Type) := list (string * V).

Fixpoint get {V} (m : t V) (k : string) : option V :=
  match m with
  | [] => None
  | (k', v) :: m' => if String.eqb k' k then Some v else get m' k
  end.

Definition has {V} (m : t V) (k : string) : bool :=
  match get m k with Some _ => true | None => false end.

(** [m.set(k, v)]: an existing key keeps its position. *)
Fixpoint set {V} (m : t V) (k : string) (v : V) : t V :=
  match m with
  | [] => [(k, v)]
  | (k', v') :: m' =>
      if String.eqb k' k then (k, v) :: m' else (k', v') :: set m' k v
  end.

Definition delete {V} (m : t V) (k : string) : t V :=
  filter (fun e => negb (String.eqb (fst e) k)) m.

(** In-place mutation of the object stored under [k] (as in
    [connections.get(k).roomId = ...]); nothing happens when the map no
    longer holds an object under [k]. *)
Definition modify {V} (m : t V) (k : string) (f : V -> V) : t V :=
  map (fun e => if String.eqb (fst e) k then (fst e, f (snd e)) else e) m.

Definition keys {V} (m : t V) : list string := map fst m.

Definition size {V} (m : t V) : nat := List.length m.

End JsMap.

(** ** Data model *)

(** The object stored in [connections] (lines 50-57), with the two fields
    added later by [audio:toggle] and [ping]. *)
Record Connection := mkConnection {
  userId : string;
  userName : string;
  userRole : string;
  connectedAt : Z;
  roomId : option string;
  isActive : bool;
  audioMuted : option bool;
  lastPing : option Z
}.

(** What the authentication middleware attaches to a socket (lines 29-31),
    with the socket's id. *)
Record Socket := mkSocket {
  sock_id : string;
  sock_userId : string;
  sock_userName : string;
  sock_userRole : string
}.

Record Participant := mkParticipant {
  p_userId : string;
  p_userName : string;
  p_userRole : string;
  p_socketId : string;
  p_audioMuted : bool
}.

(** [emergencyData] (lines 245-252). *)
Record Emergency := mkEmergency {
  em_userId : string;
  em_userName : string;
  em_location : option string;
  em_message : option string;
  em_timestamp : Z;
  em_roomId : string
}.

(** The part of Redis the handler writes: the participant sets
    [room:<id>:participants], the list [emergencies:active] (newest
    first) and the hashes [user:<id>]. *)
Record Redis := mkRedis {
  r_participants : JsMap.t JsSet.t;
  r_emergencies : list Emergency;
  r_users : JsMap.t (string * Z)
}.

Record State := mkState {
  connections : JsMap.t Connection;
  rooms : JsMap.t JsSet.t;
  userSockets : JsMap.t JsSet.t;
  sockets : JsMap.t Socket;
  adapter : JsMap.t JsSet.t;
  redis : Redis
}.

Definition init : State :=
  mkState [] [] [] [] [] (mkRedis [] [] []).

(** Payloads; [None] stands for an absent ([undefined]) field. *)
Record JoinData := mkJoinData {
  jd_roomId : option string;
  jd_userName : option string
}.

Record AudioData := mkAudioData { ad_isMuted : option bool }.

Record KickData := mkKickData {
  kd_targetSocketId : option string;
  kd_reason : option string
}.

Record MuteData := mkMuteData { md_targetSocketId : option string }.

Record AlertData := mkAlertData {
  al_location : option string;
  al_message : option string
}.

Inductive Event :=
| EvError (message : string)
| EvRoomJoined (room : string) (participants : list Participant) (ts : Z)
| EvParticipantJoined (uid uname socketId : string) (ts : Z)
| EvRoomState (room : string) (participants : list Participant)
    (participantCount : nat) (ts : Z)
| EvParticipantLeft (uid uname : string) (ts : Z)
| EvAudioChanged (uid uname : string) (isMuted : option bool) (ts : Z)
| EvKicked (by_ reason : string) (ts : Z)
| EvForcedMute (by_ : string) (ts : Z)
| EvEmergencyReceived (alert : Emergency)
| EvEmergencySent (status : string) (ts : Z).

(** One observable action of the server: an [emit] call with the sockets
    it reaches, the acknowledgment of a ping, or a forced termination. *)
Inductive Output :=
| Emit (audience : list string) (ev : Event)
| Ack (sid : string) (ts : Z)
| Terminate (sid : string).

(** ** Setters *)

Definition set_connections (st : State) c :=
  mkState c (rooms st) (userSockets st) (sockets st) (adapter st) (redis st).
Definition set_rooms (st : State) r :=
  mkState (connections st) r (userSockets st) (sockets st) (adapter st)
    (redis st).
Definition set_userSockets (st : State) u :=
  mkState (connections st) (rooms st) u (sockets st) (adapter st) (redis st).
Definition set_sockets (st : State) s :=
  mkState (connections st) (rooms st) (userSockets st) s (adapter st)
    (redis st).
Definition set_adapter (st : State) a :=
  mkState (connections st) (rooms st) (userSockets st) (sockets st) a
    (redis st).
Definition set_redis (st : State) r :=
  mkState (connections st) (rooms st) (userSockets st) (sockets st)
    (adapter st) r.

Definition with_roomId (r : option string) (c : Connection) : Connection :=
  mkConnection (userId c) (userName c) (userRole c) (connectedAt c) r
    (isActive c) (audioMuted c) (lastPing c).
Definition with_audioMuted (b : option bool) (c : Connection) : Connection :=
  mkConnection (userId c) (userName c) (userRole c) (connectedAt c)
    (roomId c) (isActive c) b (lastPing c).
Definition with_lastPing (t : Z) (c : Connection) : Connection :=
  mkConnection (userId c) (userName c) (userRole c) (connectedAt c)
    (roomId c) (isActive c) (audioMuted c) (Some t).

(** ** Socket.IO *)

(** JavaScript truthiness of a room id: [null], [undefined] and the empty
    string are falsy. *)
Definition truthy (o : option string) : option string :=
  match o with
  | Some s => if String.eqb s "" then None else Some s
  | None => None
  end.

(** The sockets [io.to(room)] reaches. *)
Definition in_room (st : State) (room : string) : list string :=
  map fst (filter (fun e => JsSet.has (snd e) room) (adapter st)).

(** The sockets of [room] other than [sid]: what [io.to(room)] reaches once
    [sid] has left the room (lines 363 and 380). *)
Definition in_room_except (st : State) (room sid : string) : list string :=
  filter (fun x => negb (String.eqb x sid)) (in_room st room).

(** The sockets [socket.to(room)] reaches.  Socket.IO excludes the sender
    by excluding the room named by the sender's id: every socket that has
    joined that room is left out with it, and a sender that has left that
    room is not left out. *)
Definition socket_to (st : State) (room sid : string) : list string :=
  map fst
    (filter (fun e => JsSet.has (snd e) room && negb (JsSet.has (snd e) sid))
       (adapter st)).

(** [socket.join(room)].  The rooms of a closed socket are not recorded:
    an emit is delivered to connected sockets only, so nothing observes
    what a closed socket joins. *)
Definition socket_join (sid room : string) (st : State) : State :=
  set_adapter st (JsMap.modify (adapter st) sid (fun s => JsSet.add s room)).

Definition socket_leave (sid room : string) (st : State) : State :=
  set_adapter st
    (JsMap.modify (adapter st) sid (fun s => JsSet.delete s room)).

(** The server accepts a connection: the socket is registered and joins the
    room named by its id. *)
Definition socket_open (s : Socket) (st : State) : State :=
  set_adapter
    (set_sockets st (JsMap.set (sockets st) (sock_id s) s))
    (JsMap.set (adapter st) (sock_id s) [sock_id s]).

(** What closing a socket does before the ['disconnect'] listener runs:
    the socket leaves every room and is removed from the namespace. *)
Definition socket_close (sid : string) (st : State) : State :=
  set_sockets
    (set_adapter st (JsMap.delete (adapter st) sid))
    (JsMap.delete (sockets st) sid).

(** ** Redis commands *)

Definition participants_key (room : string) : string :=
  ("room:" ++ room ++ ":participants")%string.

Definition user_key (uid : string) : string := ("user:" ++ uid)%string.

Definition sAdd (key member : string) (r : Redis) : Redis :=
  let s := match JsMap.get (r_participants r) key with
           | Some s => s | None => [] end in
  mkRedis (JsMap.set (r_participants r) key (JsSet.add s member))
    (r_emergencies r) (r_users r).

Definition sRem (key member : string) (r : Redis) : Redis :=
  match JsMap.get (r_participants r) key with
  | Some s =>
      let s' := JsSet.delete s member in
      mkRedis
        (match s' with
         | [] => JsMap.delete (r_participants r) key
         | _ => JsMap.set (r_participants r) key s'
         end)
        (r_emergencies r) (r_users r)
  | None => r
  end.

Definition lPush (e : Emergency) (r : Redis) : Redis :=
  mkRedis (r_participants r) (e :: r_emergencies r) (r_users r).

(** [updateUserStatus] (lines 439-451). *)
Definition updateUserStatus (uid status : string) (now : Z) (r : Redis)
  : Redis :=
  mkRedis (r_participants r) (r_emergencies r)
    (JsMap.set (r_users r) (user_key uid) (status, now)).

(** ** Helper functions of connection.js *)

(** [leaveRoom] up to its [await redisClient.sRem(...)] (lines 355-377).
    The result names the room being left when the function is suspended
    at that [await], and is [None] when it returned at line 357. *)
Definition leaveRoom_sync (socket : Socket) (st : State)
  : State * option string :=
  match JsMap.get (connections st) (sock_id socket) with
  | None => (st, None)
  | Some connection =>
      match truthy (roomId connection) with
      | None => (st, None)
      | Some room =>
          let st1 := socket_leave (sock_id socket) room st in
          let rooms1 :=
            if JsMap.has (rooms st1) room then
              let rs := JsMap.modify (rooms st1) room
                          (fun m => JsSet.delete m (sock_id socket)) in
              match JsMap.get rs room with
              | Some m =>
                  if Nat.eqb (JsSet.size m) 0 then JsMap.delete rs room
                  else rs
              | None => rs
              end
            else rooms st1 in
          let st2 := set_rooms st1 rooms1 in
          (set_redis st2
             (sRem (participants_key room) (sock_userId socket) (redis st2)),
           Some room)
      end
  end.

(** [leaveRoom] after that [await] (lines 380-389).  [connection] is the
    object read at line 355: the assignment reaches the registry only if it
    still holds that object. *)
Definition leaveRoom_rest (socket : Socket) (room : string) (now : Z)
    (st : State) : State * list Output :=
  (set_connections st
     (JsMap.modify (connections st) (sock_id socket) (with_roomId None)),
   [Emit (in_room st room)
      (EvParticipantLeft (sock_userId socket) (sock_userName socket) now)]).

Definition leaveRoom (socket : Socket) (now : Z) (st : State)
  : State * list Output :=
  let (st1, suspended) := leaveRoom_sync socket st in
  match suspended with
  | Some room => leaveRoom_rest socket room now st1
  | None => (st1, [])
  end.

(** [getRoomParticipants] (lines 396-420). *)
Definition getRoomParticipants (room : string) (st : State)
  : list Participant :=
  match JsMap.get (rooms st) room with
  | None => []
  | Some socketIds =>
      flat_map
        (fun socketId =>
           match JsMap.get (connections st) socketId with
           | Some conn =>
               [mkParticipant (userId conn) (userName conn) (userRole conn)
                  socketId
                  (match audioMuted conn with
                   | Some true => true
                   | _ => false
                   end)]
           | None => []
           end)
        socketIds
  end.

(** ** Event handlers *)

(** The body of [io.on('connection', ...)] up to the registration of the
    listeners (lines 47-66). *)
Definition onConnection (socket : Socket) (now : Z) (st : State)
  : State * list Output :=
  let st1 :=
    set_connections st
      (JsMap.set (connections st) (sock_id socket)
         (mkConnection (sock_userId socket) (sock_userName socket)
            (sock_userRole socket) now None true None None)) in
  let us :=
    if JsMap.has (userSockets st1) (sock_userId socket) then userSockets st1
    else JsMap.set (userSockets st1) (sock_userId socket) [] in
  let st2 :=
    set_userSockets st1
      (JsMap.modify us (sock_userId socket)
         (fun m => JsSet.add m (sock_id socket))) in
  (set_redis st2
     (updateUserStatus (sock_userId socket) "online" now (redis st2)),
   []).

(** [room:join] (lines 73-129).  A missing payload makes the destructuring
    at line 75 throw, a missing registry entry makes line 84 throw; both
    land in the [catch]. *)
Definition roomJoin (socket : Socket) (data : option JoinData) (now : Z)
    (st : State) : State * list Output :=
  let failed := (st, [Emit [sock_id socket] (EvError "Failed to join room")]) in
  match data with
  | None => failed
  | Some d =>
      match truthy (jd_roomId d) with
      | None => (st, [Emit [sock_id socket] (EvError "Room ID required")])
      | Some room =>
          match JsMap.get (connections st) (sock_id socket) with
          | None => failed
          | Some connection =>
              let (st1, out1) :=
                match truthy (roomId connection) with
                | Some _ => leaveRoom socket now st
                | None => (st, [])
                end in
              let st2 := socket_join (sock_id socket) room st1 in
              let st3 :=
                set_connections st2
                  (JsMap.modify (connections st2) (sock_id socket)
                     (with_roomId (Some room))) in
              let rs :=
                if JsMap.has (rooms st3) room then rooms st3
                else JsMap.set (rooms st3) room [] in
              let st4 :=
                set_rooms st3
                  (JsMap.modify rs room
                     (fun m => JsSet.add m (sock_id socket))) in
              let st5 :=
                set_redis st4
                  (sAdd (participants_key room) (sock_userId socket)
                     (redis st4)) in
              let participants := getRoomParticipants room st5 in
              (st5,
               out1 ++
               [Emit [sock_id socket] (EvRoomJoined room participants now);
                Emit (socket_to st5 room (sock_id socket))
                  (EvParticipantJoined (sock_userId socket)
                     (sock_userName socket) (sock_id socket) now);
                Emit [sock_id socket]
                  (EvRoomState room participants
                     (List.length participants) now)])%list
          end
      end
  end.

(** [room:leave] (lines 132-134). *)
Definition roomLeave (socket : Socket) (now : Z) (st : State)
  : State * list Output :=
  leaveRoom socket now st.

(** [audio:toggle] (lines 141-164). *)
Definition audioToggle (socket : Socket) (data : option AudioData) (now : Z)
    (st : State) : State * list Output :=
  match data with
  | None => (st, [])
  | Some d =>
      match JsMap.get (connections st) (sock_id socket) with
      | None => (st, [])
      | Some connection =>
          match truthy (roomId connection) with
          | None => (st, [])
          | Some room =>
              let st1 :=
                set_connections st
                  (JsMap.modify (connections st) (sock_id socket)
                     (with_audioMuted (ad_isMuted d))) in
              (st1,
               [Emit (in_room st1 room)
                  (EvAudioChanged (sock_userId socket) (sock_userName socket)
                     (ad_isMuted d) now)])
          end
      end
  end.

(** The ['disconnect'] listener (lines 301-326), split at the [await] of
    line 306: [disconnect_sync] is what runs when the event fires,
    [disconnect_resume] what runs when the listener is resumed. *)
Definition Pending := (Socket * option string)%type.

Definition disconnect_sync (socket : Socket) (st : State) : State * Pending :=
  let (st1, suspended) := leaveRoom_sync socket st in
  (st1, (socket, suspended)).

Definition disconnect_resume (p : Pending) (now : Z) (st : State)
  : State * list Output :=
  let (socket, suspended) := p in
  let (st1, out1) :=
    match suspended with
    | Some room => leaveRoom_rest socket room now st
    | None => (st, [])
    end in
  let st2 :=
    match JsMap.get (userSockets st1) (sock_userId socket) with
    | Some _ =>
        let us := JsMap.modify (userSockets st1) (sock_userId socket)
                    (fun m => JsSet.delete m (sock_id socket)) in
        match JsMap.get us (sock_userId socket) with
        | Some m =>
            if Nat.eqb (JsSet.size m) 0 then
              set_userSockets
                (set_redis st1
                   (updateUserStatus (sock_userId socket) "offline" now
                      (redis st1)))
                (JsMap.delete us (sock_userId socket))
            else set_userSockets st1 us
        | None => set_userSockets st1 us
        end
    | None => st1
    end in
  (set_connections st2 (JsMap.delete (connections st2) (sock_id socket)),
   out1).

Definition onDisconnect (socket : Socket) (now : Z) (st : State)
  : State * list Output :=
  let (st1, p) := disconnect_sync socket st in
  disconnect_resume p now st1.

(** [socket.disconnect(true)] on a live socket, the listener run to its
    end. *)
Definition forceDisconnect (socket : Socket) (now : Z) (st : State)
  : State * list Output :=
  let (st1, out1) := onDisconnect socket now (socket_close (sock_id socket) st) in
  (st1, Terminate (sock_id socket) :: out1).

Definition kickReason (d : KickData) : string :=
  match truthy (kd_reason d) with
  | Some r => r
  | None => "No reason provided"
  end.

Definition lookup_socket (st : State) (target : option string)
  : option Socket :=
  match target with
  | Some sid => JsMap.get (sockets st) sid
  | None => None
  end.

(** [admin:kick] (lines 171-205). *)
Definition adminKick (socket : Socket) (data : option KickData) (now : Z)
    (st : State) : State * list Output :=
  if negb (String.eqb (sock_userRole socket) "admin") then
    (st, [Emit [sock_id socket] (EvError "Unauthorized")])
  else
    match data with
    | None => (st, [])
    | Some d =>
        match lookup_socket st (kd_targetSocketId d) with
        | None => (st, [Emit [sock_id socket] (EvError "Participant not found")])
        | Some targetSocket =>
            let kicked :=
              Emit [sock_id targetSocket]
                (EvKicked (sock_userName socket) (kickReason d) now) in
            let (st1, out1) := leaveRoom targetSocket now st in
            let (st2, out2) := forceDisconnect targetSocket now st1 in
            (st2, kicked :: out1 ++ out2)%list
        end
    end.

(** [admin:mute] (lines 208-231). *)
Definition adminMute (socket : Socket) (data : option MuteData) (now : Z)
    (st : State) : State * list Output :=
  if negb (String.eqb (sock_userRole socket) "admin") then
    (st, [Emit [sock_id socket] (EvError "Unauthorized")])
  else
    match data with
    | None => (st, [])
    | Some d =>
        match lookup_socket st (md_targetSocketId d) with
        | None => (st, [])
        | Some targetSocket =>
            (st,
             [Emit [sock_id targetSocket]
                (EvForcedMute (sock_userName socket) now)])
        end
    end.

(** The loop of lines 260-268. *)
Definition notifyAdmins (st : State) (room : string) (e : Emergency)
  : list Output :=
  match JsMap.get (rooms st) room with
  | Some roomSockets =>
      flat_map
        (fun sid =>
           match JsMap.get (connections st) sid with
           | Some conn =>
               if String.eqb (userRole conn) "admin" then
                 [Emit (in_room st sid) (EvEmergencyReceived e)]
               else []
           | None => []
           end)
        roomSockets
  | None => []
  end.

(** [emergency:alert] (lines 237-281). *)
Definition emergencyAlert (socket : Socket) (data : option AlertData)
    (now : Z) (st : State) : State * list Output :=
  match data with
  | None => (st, [])
  | Some d =>
      match JsMap.get (connections st) (sock_id socket) with
      | None => (st, [])
      | Some connection =>
          match truthy (roomId connection) with
          | None => (st, [])
          | Some room =>
              let emergencyData :=
                mkEmergency (sock_userId socket) (sock_userName socket)
                  (al_location d) (al_message d) now room in
              let st1 := set_redis st (lPush emergencyData (redis st)) in
              (st1,
               notifyAdmins st1 room emergencyData ++
               [Emit [sock_id socket] (EvEmergencySent "received" now)])%list
          end
      end
  end.

(** [ping] (lines 287-295); [callback] tells whether the client passed an
    acknowledgment function. *)
Definition ping (socket : Socket) (callback : bool) (now : Z) (st : State)
  : State * list Output :=
  match JsMap.get (connections st) (sock_id socket) with
  | Some _ =>
      (set_connections st
         (JsMap.modify (connections st) (sock_id socket) (with_lastPing now)),
       if callback then [Ack (sock_id socket) now] else [])
  | None => (st, [])
  end.

(** ** The stale-connection sweep *)

Definition STALE_THRESHOLD : Z := 5 * 60 * 1000.

(** [connection.lastPing || connection.connectedAt] (line 459). *)
Definition lastActivity (c : Connection) : Z :=
  match lastPing c with
  | Some t => t
  | None => connectedAt c
  end.

Definition isStale (now : Z) (c : Connection) : bool :=
  (now - lastActivity c >? STALE_THRESHOLD)%Z.

(** The loop of [cleanupStaleConnections] (lines 457-472) over the entries
    of [connections].  The function has no [await]: each
    [socket.disconnect(true)] runs the listener up to its first [await],
    line 470 deletes the entry, and the suspended listeners are collected
    in the order they were fired.  The loop deletes only the entry it is
    visiting and mutates no registry object, so iterating the entries read
    at the start is iterating the live map. *)
Fixpoint sweep (now : Z) (entries : list (string * Connection)) (st : State)
  : State * list Pending * list Output :=
  match entries with
  | [] => (st, [], [])
  | (socketId, connection) :: rest =>
      if isStale now connection then
        let '(st1, pend1, out1) :=
          match JsMap.get (sockets st) socketId with
          | Some socket =>
              let (st', p) :=
                disconnect_sync socket (socket_close socketId st) in
              (st', [p], [Terminate socketId])
          | None => (st, [], [])
          end in
        let st2 :=
          set_connections st1 (JsMap.delete (connections st1) socketId) in
        let '(st3, pend3, out3) := sweep now rest st2 in
        (st3, pend1 ++ pend3, out1 ++ out3)%list
      else sweep now rest st
  end.

Fixpoint resume_all (now : Z) (ps : list Pending) (st : State)
  : State * list Output :=
  match ps with
  | [] => (st, [])
  | p :: ps' =>
      let (st1, out1) := disconnect_resume p now st in
      let (st2, out2) := resume_all now ps' st1 in
      (st2, out1 ++ out2)%list
  end.

(** [cleanupStaleConnections] (lines 453-475) together with the listeners
    it left suspended. *)
Definition cleanupStaleConnections (now : Z) (st : State)
  : State * list Output :=
  let '(st1, ps, out1) := sweep now (connections st) st in
  let (st2, out2) := resume_all now ps st1 in
  (st2, out1 ++ out2)%list.

(** ** Operations of the coordinator *)

Inductive Op :=
| OpConnect (socket : Socket)
| OpRoomJoin (sid : string) (data : option JoinData)
| OpRoomLeave (sid : string)
| OpAudioToggle (sid : string) (data : option AudioData)
| OpAdminKick (sid : string) (data : option KickData)
| OpAdminMute (sid : string) (data : option MuteData)
| OpEmergencyAlert (sid : string) (data : option AlertData)
| OpPing (sid : string) (callback : bool)
| OpDisconnect (sid : string)
| OpCleanup.

(** An event reaches its listener only while its socket is connected. *)
Definition on_socket (sid : string)
    (h : Socket -> State -> State * list Output) (st : State)
  : State * list Output :=
  match JsMap.get (sockets st) sid with
  | Some socket => h socket st
  | None => (st, [])
  end.

(** One event, its listener run from its start to its end with nothing in
    between. *)
Definition run (now : Z) (op : Op) (st : State) : State * list Output :=
  match op with
  | OpConnect socket => onConnection socket now (socket_open socket st)
  | OpRoomJoin sid data => on_socket sid (fun s => roomJoin s data now) st
  | OpRoomLeave sid => on_socket sid (fun s => roomLeave s now) st
  | OpAudioToggle sid data => on_socket sid (fun s => audioToggle s data now) st
  | OpAdminKick sid data => on_socket sid (fun s => adminKick s data now) st
  | OpAdminMute sid data => on_socket sid (fun s => adminMute s data now) st
  | OpEmergencyAlert sid data =>
      on_socket sid (fun s => emergencyAlert s data now) st
  | OpPing sid callback => on_socket sid (fun s => ping s callback now) st
  | OpDisconnect sid =>
      on_socket sid
        (fun s st' => onDisconnect s now (socket_close sid st')) st
  | OpCleanup => cleanupStaleConnections now st
  end.

(** The transport hands out a connection identifier that no connected
    socket has. *)
Definition enabled (op : Op) (st : State) : bool :=
  match op with
  | OpConnect socket => negb (JsMap.has (sockets st) (sock_id socket))
  | _ => true
  end.

(** The states reached when every listener has finished before the next
    event arrives.  They are states of the program ([settled_reachable]),
    not all of them: see [reachable]. *)
Inductive settled : State -> Prop :=
| settled_init : settled init
| settled_step st now op :
    settled st -> enabled op st = true -> settled (fst (run now op st)).

(** Running a script of timed operations. *)
Fixpoint exec (script : list (Z * Op)) (st : State) : option State :=
  match script with
  | [] => Some st
  | (now, op) :: script' =>
      if enabled op st then exec script' (fst (run now op st)) else None
  end.

Fixpoint trace (script : list (Z * Op)) (st : State) : list Output :=
  match script with
  | [] => []
  | (now, op) :: script' =>
      (snd (run now op st) ++ trace script' (fst (run now op st)))%list
  end.

(** ** A running example *)

Definition sockX := mkSocket "x" "u1" "X" "admin".
Definition sockY := mkSocket "y" "u2" "Y" "member".
Definition sockZ := mkSocket "z" "u3" "Z" "member".

Definition alphaJoin := Some (mkJoinData (Some "alpha") None).

Definition scenario : list (Z * Op) :=
  [(0, OpConnect sockX); (1, OpConnect sockY);
   (2, OpRoomJoin "x" alphaJoin); (3, OpRoomJoin "y" alphaJoin)]%Z.

Definition alpha_state : State :=
  match exec scenario init with Some st => st | None => init end.

(** ** Vocabulary of the properties *)

(** [x] is in the set stored under [k] (rooms: connection in room;
    userSockets: connection of user). *)
Definition member (m : JsMap.t JsSet.t) (x k : string) : Prop :=
  exists s, JsMap.get m k = Some s /\ In x s.

(** Every stored set is a set, and an entry exists only while its set is
    not empty. *)
Definition sets_ok (m : JsMap.t JsSet.t) : Prop :=
  forall k s, JsMap.get m k = Some s -> NoDup s /\ s <> [].

(** The two update patterns the handler applies to [rooms] and to
    [userSockets]: add to the set under [k], creating it when absent
    (lines 60-63 and 93-96); delete from the set under [k], deleting the
    entry when the set is left empty (lines 309-317 and 366-374). *)
Definition index_add (m : JsMap.t JsSet.t) (k x : string) : JsMap.t JsSet.t :=
  JsMap.modify (if JsMap.has m k then m else JsMap.set m k []) k
    (fun s => JsSet.add s x).

Definition index_remove (m : JsMap.t JsSet.t) (k x : string)
  : JsMap.t JsSet.t :=
  if JsMap.has m k then
    let m1 := JsMap.modify m k (fun s => JsSet.delete s x) in
    match JsMap.get m1 k with
    | Some s => if Nat.eqb (JsSet.size s) 0 then JsMap.delete m1 k else m1
    | None => m1
    end
  else m.

(** Number of sessions whose room identifier is [room]. *)
Definition sessions_in (room : string) (cs : JsMap.t Connection) : nat :=
  List.length
    (filter
       (fun e => match roomId (snd e) with
                 | Some r => String.eqb r room
                 | None => false
                 end)
       cs).

(** The registry and the room index agree. *)
Definition registry_index_agree (st : State) : Prop :=
  (forall sid c, JsMap.get (connections st) sid = Some c ->
     forall room, roomId c = Some room <-> member (rooms st) sid room)
  /\ (forall room s, JsMap.get (rooms st) room = Some s ->
        JsSet.size s = sessions_in room (connections st)).

(** A session carries the identity its socket was authenticated with
    (lines 51-53). *)
Definition same_identity (c : Connection) (s : Socket) : Prop :=
  userId c = sock_userId s /\ userName c = sock_userName s /\
  userRole c = sock_userRole s.

(** The invariant carried along every run. *)
Record Inv (st : State) : Prop := mkInv {
  inv_keys : NoDup (JsMap.keys (connections st));
  inv_rooms_ok : sets_ok (rooms st);
  inv_agree : forall sid room,
    member (rooms st) sid room <->
    exists c, JsMap.get (connections st) sid = Some c /\ roomId c = Some room;
  inv_truthy : forall sid c room,
    JsMap.get (connections st) sid = Some c -> roomId c = Some room ->
    room <> "";
  inv_live : forall sid,
    JsMap.get (sockets st) sid = None <->
    JsMap.get (connections st) sid = None;
  inv_sock_id : forall sid s,
    JsMap.get (sockets st) sid = Some s -> sock_id s = sid;
  inv_adapter : forall sid c room,
    JsMap.get (connections st) sid = Some c -> roomId c = Some room ->
    exists rs, JsMap.get (adapter st) sid = Some rs /\ In room rs;
  inv_adapter_dom : forall sid s,
    JsMap.get (sockets st) sid = Some s ->
    exists rs, JsMap.get (adapter st) sid = Some rs;
  inv_user : forall sid uid,
    member (userSockets st) sid uid ->
    exists s, JsMap.get (sockets st) sid = Some s /\ sock_userId s = uid;
  inv_identity : forall sid s c,
    JsMap.get (sockets st) sid = Some s ->
    JsMap.get (connections st) sid = Some c ->
    same_identity c s
}.

(** The stale sessions, in registry order, and their voluntary
    disconnection one after the other. *)
Definition staleIds (now : Z) (st : State) : list string :=
  map fst (filter (fun e => isStale now (snd e)) (connections st)).

Definition disconnectAll (now : Z) (sids : list string) (st : State) : State :=
  fold_left (fun s sid => fst (run now (OpDisconnect sid) s)) sids st.

(** ** Auxiliary definitions of the proofs and the examples *)

(** The second half of [room:join] (lines 89-99) on a session that is in no
    room. *)
Definition joined (socket : Socket) (room : string) (st : State) : State :=
  mkState
    (JsMap.modify (connections st) (sock_id socket) (with_roomId (Some room)))
    (index_add (rooms st) room (sock_id socket))
    (userSockets st) (sockets st)
    (JsMap.modify (adapter st) (sock_id socket) (fun s => JsSet.add s room))
    (sAdd (participants_key room) (sock_userId socket) (redis st)).

(** The redis write of lines 313-317. *)
Definition offline_redis (us : JsMap.t JsSet.t) (uid sid : string) (now : Z)
    (r : Redis) : Redis :=
  match JsMap.get us uid with
  | Some m =>
      if Nat.eqb (JsSet.size (JsSet.delete m sid)) 0 then
        updateUserStatus uid "offline" now r
      else r
  | None => r
  end.

(** What the sweep and the resumed listener do, together, for one stale
    entry. *)
Definition reapOne (now : Z) (sid : string) (st : State) : State :=
  match JsMap.get (sockets st) sid with
  | Some s => fst (onDisconnect s now (socket_close sid st))
  | None => set_connections st (JsMap.delete (connections st) sid)
  end.

Definition reapEntry (now : Z) (st : State) (e : string * Connection)
  : State :=
  if isStale now (snd e) then reapOne now (fst e) st else st.

Definition socks_ok (st : State) : Prop :=
  forall sid s, JsMap.get (sockets st) sid = Some s -> sock_id s = sid.

(** The instant the spec measures staleness from: the later of the last
    heartbeat and the connection time (section 4.6). *)
Definition specLastActivity (c : Connection) : Z :=
  match lastPing c with
  | Some t => Z.max t (connectedAt c)
  | None => connectedAt c
  end.

(** X has sent a heartbeat at time 100; Y never has. *)
Definition pinged_script : list (Z * Op) :=
  (scenario ++ [(100, OpPing "x" true)])%Z%list.

Definition pinged_state : State :=
  match exec pinged_script init with Some st => st | None => init end.

Definition lobby_script : list (Z * Op) := [(0, OpConnect sockY)]%Z.

Definition lobby_state : State :=
  match exec lobby_script init with Some st => st | None => init end.

Definition helpAlert := Some (mkAlertData None (Some "help")).

(** The members of a room whose session has the role ['admin'], in the
    order of the membership set. *)
Definition adminsOf (st : State) (room : string) : list string :=
  match JsMap.get (rooms st) room with
  | Some roomSockets =>
      filter
        (fun sid =>
           match JsMap.get (connections st) sid with
           | Some conn => String.eqb (userRole conn) "admin"
           | None => false
           end)
        roomSockets
  | None => []
  end.

(** Z joins "alpha", where [room:joined] tells it X's connection id, and
    then joins the room named by that id, which takes it out of "alpha". *)
Definition leak_script : list (Z * Op) :=
  (scenario ++
   [(4, OpConnect sockZ);
    (5, OpRoomJoin "z" alphaJoin);
    (6, OpRoomJoin "z" (Some (mkJoinData (Some "x") None)))])%Z%list.

Definition leak_state : State :=
  match exec leak_script init with Some st => st | None => init end.

Definition helpFromY : Emergency :=
  mkEmergency "u2" "Y" None (Some "help") 7 "alpha".

(** X joins the room named by its own connection id before it joins
    "alpha": leaving the first room takes X out of the room [io.to("x")]
    addresses. *)
Definition deaf_script : list (Z * Op) :=
  [(0, OpConnect sockX); (1, OpConnect sockY);
   (2, OpRoomJoin "x" (Some (mkJoinData (Some "x") None)));
   (3, OpRoomJoin "x" alphaJoin); (4, OpRoomJoin "y" alphaJoin)]%Z.

Definition deaf_state : State :=
  match exec deaf_script init with Some st => st | None => init end.

(** X and Y, both in "alpha", move to the room named by X's connection
    id, which [room:joined] and [participant:joined] have told Y. *)
Definition ownJoin := Some (mkJoinData (Some "x") None).

Definition own_room_script : list (Z * Op) :=
  (scenario ++
   [(4, OpRoomJoin "x" ownJoin); (5, OpRoomJoin "y" ownJoin)])%Z%list.

Definition own_room_state : State :=
  match exec own_room_script init with Some st => st | None => init end.

(** ** The remaining functions of connection.js *)

(** [getRoomState] (lines 422-437). *)
Record RoomState := mkRoomState {
  rs_roomId : string;
  rs_participants : list Participant;
  rs_participantCount : nat;
  rs_timestamp : Z
}.

Definition getRoomState (room : string) (now : Z) (st : State) : RoomState :=
  let participants := getRoomParticipants room st in
  mkRoomState room participants (List.length participants) now.

(** [getConnectionStats] (lines 481-498). *)
Record ConnectionInfo := mkConnectionInfo {
  ci_socketId : string;
  ci_userId : string;
  ci_userName : string;
  ci_roomId : option string;
  ci_connectedAt : Z
}.

Record RoomInfo := mkRoomInfo {
  ri_roomId : string;
  ri_participantCount : nat
}.

Record Stats := mkStats {
  totalConnections : nat;
  totalRooms : nat;
  totalUsers : nat;
  stats_connections : list ConnectionInfo;
  stats_rooms : list RoomInfo
}.

Definition getConnectionStats (st : State) : Stats :=
  mkStats (JsMap.size (connections st)) (JsMap.size (rooms st))
    (JsMap.size (userSockets st))
    (map (fun e =>
            mkConnectionInfo (fst e) (userId (snd e)) (userName (snd e))
              (roomId (snd e)) (connectedAt (snd e)))
       (connections st))
    (map (fun e => mkRoomInfo (fst e) (JsSet.size (snd e))) (rooms st)).

(** ** Handlers suspended at an [await] *)

(** The handlers above run each listener to its end.  In the program every
    listener but [audio:toggle], [admin:mute] and [ping] is an async
    function: it runs up to an [await], is suspended there, and is resumed
    after whatever else the event loop has run in between.  Below, every
    [await] of connection.js is a point where a handler is suspended; a
    suspended handler is a [Task] that records the [await] it stands at and
    the local variables it still uses.  A Redis command takes effect when
    it is issued (one client connection: Redis runs the commands in the
    order they are sent) and its [await] resolves; [expire] and an [await]
    after which the function only returns are not given a task of their
    own. *)

(** The four callers that await [leaveRoom]. *)
Inductive Caller :=
| FromRoomJoin (room : string)
| FromRoomLeave
| FromAdminKick
| FromDisconnect.

Inductive Task :=
| InLeaveRoom (caller : Caller) (socket : Socket) (room : string)
| AfterLeaveRoom (caller : Caller) (socket : Socket)
| AtSAdd (socket : Socket) (room : string)
| AtRoster (socket : Socket) (room : string)
    (participants : list Participant)
| InRoomState (socket : Socket) (room : string)
    (participants : list Participant)
| AtRoomState (socket : Socket) (roomState : RoomState)
| AtLPush (socket : Socket) (emergencyData : Emergency)
| AtUserStatus (socket : Socket).

Definition task_socket (t : Task) : Socket :=
  match t with
  | InLeaveRoom _ socket _ | AfterLeaveRoom _ socket | AtSAdd socket _
  | AtRoster socket _ _ | InRoomState socket _ _ | AtRoomState socket _
  | AtLPush socket _ | AtUserStatus socket => socket
  end.

(** [socket.emit]: the packet is written only while the socket is
    connected. *)
Definition to_self (st : State) (socket : Socket) : list string :=
  if JsMap.has (sockets st) (sock_id socket) then [sock_id socket] else [].

(** A call of [leaveRoom]: it returns at line 357, or is suspended at the
    [await] of line 377; either way the caller is suspended at its own
    [await]. *)
Definition call_leaveRoom (caller : Caller) (socket : Socket) (st : State)
  : State * Task :=
  let (st1, suspended) := leaveRoom_sync socket st in
  (st1,
   match suspended with
   | Some room => InLeaveRoom caller socket room
   | None => AfterLeaveRoom caller socket
   end).

(** [room:join] from line 88 to the [await] of line 99.  Line 90 throws
    when the registry no longer holds the session. *)
Definition join_sync (socket : Socket) (room : string) (st : State)
  : State * list Output * list Task :=
  let st2 := socket_join (sock_id socket) room st in
  match JsMap.get (connections st2) (sock_id socket) with
  | None =>
      (st2, [Emit (to_self st2 socket) (EvError "Failed to join room")], [])
  | Some _ =>
      let st3 :=
        set_connections st2
          (JsMap.modify (connections st2) (sock_id socket)
             (with_roomId (Some room))) in
      let rs :=
        if JsMap.has (rooms st3) room then rooms st3
        else JsMap.set (rooms st3) room [] in
      let st4 :=
        set_rooms st3
          (JsMap.modify rs room (fun m => JsSet.add m (sock_id socket))) in
      (set_redis st4
         (sAdd (participants_key room) (sock_userId socket) (redis st4)),
       [], [AtSAdd socket room])
  end.

(** [room:join] from its start to its first [await] (lines 74-86, and on to
    line 99 when the session is in no room). *)
Definition roomJoin_start (socket : Socket) (data : option JoinData)
    (st : State) : State * list Output * list Task :=
  let failed :=
    (st, [Emit (to_self st socket) (EvError "Failed to join room")], []) in
  match data with
  | None => failed
  | Some d =>
      match truthy (jd_roomId d) with
      | None =>
          (st, [Emit (to_self st socket) (EvError "Room ID required")], [])
      | Some room =>
          match JsMap.get (connections st) (sock_id socket) with
          | None => failed
          | Some connection =>
              match truthy (roomId connection) with
              | Some _ =>
                  let (st1, t) :=
                    call_leaveRoom (FromRoomJoin room) socket st in
                  (st1, [], [t])
              | None => join_sync socket room st
              end
          end
      end
  end.

(** [admin:kick] up to the [await] of line 197. *)
Definition adminKick_start (socket : Socket) (data : option KickData)
    (now : Z) (st : State) : State * list Output * list Task :=
  if negb (String.eqb (sock_userRole socket) "admin") then
    (st, [Emit (to_self st socket) (EvError "Unauthorized")], [])
  else
    match data with
    | None => (st, [], [])
    | Some d =>
        match lookup_socket st (kd_targetSocketId d) with
        | None =>
            (st, [Emit (to_self st socket) (EvError "Participant not found")],
             [])
        | Some targetSocket =>
            let (st1, t) := call_leaveRoom FromAdminKick targetSocket st in
            (st1,
             [Emit (to_self st targetSocket)
                (EvKicked (sock_userName socket) (kickReason d) now)],
             [t])
        end
    end.

(** [socket.disconnect(true)] (lines 198 and 467): nothing on a socket that
    is no longer connected; otherwise the socket is closed and its
    ['disconnect'] listener runs up to the [await] of line 306. *)
Definition disconnect_true (socket : Socket) (st : State)
  : State * list Output * list Task :=
  if JsMap.has (sockets st) (sock_id socket) then
    let (st1, t) :=
      call_leaveRoom FromDisconnect socket
        (socket_close (sock_id socket) st) in
    (st1, [Terminate (sock_id socket)], [t])
  else (st, [], []).

(** The ['disconnect'] listener from line 308 to the [await] of line 315,
    or to its end when the user has other connections. *)
Definition disconnect_tracker (socket : Socket) (now : Z) (st : State)
  : State * list Output * list Task :=
  let forget st' :=
    set_connections st' (JsMap.delete (connections st') (sock_id socket)) in
  match JsMap.get (userSockets st) (sock_userId socket) with
  | Some _ =>
      let us := JsMap.modify (userSockets st) (sock_userId socket)
                  (fun m => JsSet.delete m (sock_id socket)) in
      let st1 := set_userSockets st us in
      match JsMap.get us (sock_userId socket) with
      | Some m =>
          if Nat.eqb (JsSet.size m) 0 then
            (set_redis st1
               (updateUserStatus (sock_userId socket) "offline" now
                  (redis st1)),
             [], [AtUserStatus socket])
          else (forget st1, [], [])
      | None => (forget st1, [], [])
      end
  | None => (forget st, [], [])
  end.

(** [emergency:alert] up to the [await] of line 254. *)
Definition emergencyAlert_start (socket : Socket) (data : option AlertData)
    (now : Z) (st : State) : State * list Output * list Task :=
  match data with
  | None => (st, [], [])
  | Some d =>
      match JsMap.get (connections st) (sock_id socket) with
      | None => (st, [], [])
      | Some connection =>
          match truthy (roomId connection) with
          | None => (st, [], [])
          | Some room =>
              let emergencyData :=
                mkEmergency (sock_userId socket) (sock_userName socket)
                  (al_location d) (al_message d) now room in
              (set_redis st (lPush emergencyData (redis st)), [],
               [AtLPush socket emergencyData])
          end
      end
  end.

(** [connection.roomId] read after an [await] (line 260).  [connection] is
    the registry object the handler read before the [await]: the entry
    under the connection's id, or, once that entry has been deleted, the
    object as it was detached from the registry. *)
Definition held_room (detached : JsMap.t Connection) (socket : Socket)
    (st : State) : option string :=
  match JsMap.get (connections st) (sock_id socket) with
  | Some connection => roomId connection
  | None =>
      match JsMap.get detached (sock_id socket) with
      | Some connection => roomId connection
      | None => None
      end
  end.

(** A suspended handler is resumed and runs to its next [await] or to its
    end; [now] is the clock reading of that stretch and [detached] holds
    the registry objects that have been deleted from the registry. *)
Definition resume (now : Z) (detached : JsMap.t Connection) (t : Task)
    (st : State) : State * list Output * list Task :=
  match t with
  | InLeaveRoom caller socket room =>
      let (st1, out1) := leaveRoom_rest socket room now st in
      (st1, out1, [AfterLeaveRoom caller socket])
  | AfterLeaveRoom (FromRoomJoin room) socket => join_sync socket room st
  | AfterLeaveRoom FromRoomLeave socket => (st, [], [])
  | AfterLeaveRoom FromAdminKick socket => disconnect_true socket st
  | AfterLeaveRoom FromDisconnect socket => disconnect_tracker socket now st
  | AtSAdd socket room =>
      (st, [], [AtRoster socket room (getRoomParticipants room st)])
  | AtRoster socket room participants =>
      (st,
       [Emit (to_self st socket) (EvRoomJoined room participants now);
        Emit (socket_to st room (sock_id socket))
          (EvParticipantJoined (sock_userId socket) (sock_userName socket)
             (sock_id socket) now)],
       [InRoomState socket room (getRoomParticipants room st)])
  | InRoomState socket room participants =>
      (st, [],
       [AtRoomState socket
          (mkRoomState room participants (List.length participants) now)])
  | AtRoomState socket roomState =>
      (st,
       [Emit (to_self st socket)
          (EvRoomState (rs_roomId roomState) (rs_participants roomState)
             (rs_participantCount roomState) (rs_timestamp roomState))],
       [])
  | AtLPush socket emergencyData =>
      (st,
       (match held_room detached socket st with
        | Some room => notifyAdmins st room emergencyData
        | None => []
        end ++
        [Emit (to_self st socket) (EvEmergencySent "received" now)])%list,
       [])
  | AtUserStatus socket =>
      (set_connections
         (set_userSockets st
            (JsMap.delete (userSockets st) (sock_userId socket)))
         (JsMap.delete (connections st) (sock_id socket)),
       [], [])
  end.

Definition task_of_pending (p : Pending) : Task :=
  match p with
  | (socket, Some room) => InLeaveRoom FromDisconnect socket room
  | (socket, None) => AfterLeaveRoom FromDisconnect socket
  end.

Definition finished (r : State * list Output)
  : State * list Output * list Task :=
  (fst r, snd r, []).

Definition on_live (sid : string)
    (h : Socket -> State -> State * list Output * list Task) (st : State)
  : State * list Output * list Task :=
  match JsMap.get (sockets st) sid with
  | Some socket => h socket st
  | None => (st, [], [])
  end.

(** An event arrives and its listener runs to its first [await]. *)
Definition arrive (now : Z) (op : Op) (st : State)
  : State * list Output * list Task :=
  match op with
  | OpConnect socket => finished (onConnection socket now (socket_open socket st))
  | OpRoomJoin sid data => on_live sid (fun s => roomJoin_start s data) st
  | OpRoomLeave sid =>
      on_live sid
        (fun s st' =>
           let (st1, t) := call_leaveRoom FromRoomLeave s st' in
           (st1, [], [t]))
        st
  | OpAudioToggle sid data =>
      on_live sid (fun s st' => finished (audioToggle s data now st')) st
  | OpAdminKick sid data => on_live sid (fun s => adminKick_start s data now) st
  | OpAdminMute sid data =>
      on_live sid (fun s st' => finished (adminMute s data now st')) st
  | OpEmergencyAlert sid data =>
      on_live sid (fun s => emergencyAlert_start s data now) st
  | OpPing sid callback =>
      on_live sid (fun s st' => finished (ping s callback now st')) st
  | OpDisconnect sid =>
      on_live sid
        (fun s st' =>
           let (st1, t) :=
             call_leaveRoom FromDisconnect s (socket_close sid st') in
           (st1, [], [t]))
        st
  | OpCleanup =>
      let '(st1, ps, out1) := sweep now (connections st) st in
      (st1, out1, map task_of_pending ps)
  end.

(** The coordinator between two stretches of code: its maps, the handlers
    that are suspended, and the registry objects that have been deleted
    from the registry, which a suspended handler may still hold. *)
Record Config := mkConfig {
  state : State;
  pending : list Task;
  detached : JsMap.t Connection
}.

(** What the event loop runs next: the listener of an arriving event, or
    the continuation of the suspended handler at position [i]. *)
Inductive Action :=
| Arrive (op : Op)
| Resume (i : nat).

(** The transport generates a new identifier for every connection: none
    that a connected socket, a registered session or a suspended handler
    still has. *)
Definition fresh_id (id : string) (cfg : Config) : bool :=
  negb (JsMap.has (sockets (state cfg)) id)
  && negb (JsMap.has (connections (state cfg)) id)
  && forallb (fun t => negb (String.eqb (sock_id (task_socket t)) id))
       (pending cfg).

Definition allowed (a : Action) (cfg : Config) : bool :=
  match a with
  | Arrive (OpConnect socket) => fresh_id (sock_id socket) cfg
  | Arrive _ => true
  | Resume i => Nat.ltb i (List.length (pending cfg))
  end.

(** The entries a stretch of code has deleted from the registry (lines 321
    and 470) are kept as they were; no stretch writes to an object and
    deletes it. *)
Definition detach (before after : State) (d : JsMap.t Connection)
  : JsMap.t Connection :=
  fold_left
    (fun acc e =>
       if JsMap.has (connections after) (fst e) then acc
       else JsMap.set acc (fst e) (snd e))
    (connections before) d.

(** Line 387 when the object [leaveRoom] holds is no longer in the
    registry. *)
Definition write_detached (t : Task) (st : State) (d : JsMap.t Connection)
  : JsMap.t Connection :=
  match t with
  | InLeaveRoom _ socket _ =>
      if JsMap.has (connections st) (sock_id socket) then d
      else JsMap.modify d (sock_id socket) (with_roomId None)
  | _ => d
  end.

Definition step (now : Z) (a : Action) (cfg : Config)
  : Config * list Output :=
  match a with
  | Arrive op =>
      let '(st1, out1, ts) := arrive now op (state cfg) in
      (mkConfig st1 (pending cfg ++ ts)
         (detach (state cfg) st1 (detached cfg)),
       out1)
  | Resume i =>
      match nth_error (pending cfg) i with
      | Some t =>
          let '(st1, out1, ts) :=
            resume now (detached cfg) t (state cfg) in
          (mkConfig st1
             (firstn i (pending cfg) ++ ts ++ skipn (S i) (pending cfg))
             (detach (state cfg) st1
                (write_detached t (state cfg) (detached cfg))),
           out1)
      | None => (cfg, [])
      end
  end%list.

(** The configurations of the program: any suspended handler may be the
    next to be resumed, and events arrive at any time. *)
Inductive reachable : Config -> Prop :=
| reachable_init : reachable (mkConfig init [] [])
| reachable_step cfg now a :
    reachable cfg -> allowed a cfg = true ->
    reachable (fst (step now a cfg)).

(** Running a schedule: the configuration it ends in and what was emitted
    on the way. *)
Fixpoint play (schedule : list (Z * Action)) (cfg : Config)
  : option (Config * list Output) :=
  match schedule with
  | [] => Some (cfg, [])
  | (now, a) :: schedule' =>
      if allowed a cfg then
        let (cfg1, out1) := step now a cfg in
        match play schedule' cfg1 with
        | Some (cfg2, out2) => Some (cfg2, (out1 ++ out2)%list)
        | None => None
        end
      else None
  end.

(** A handler that nothing interrupts: the suspended handlers are resumed
    from the front, each to its end, before anything else runs. *)
Fixpoint complete (fuel : nat) (now : Z) (cfg : Config)
  : Config * list Output :=
  match fuel with
  | O => (cfg, [])
  | S fuel' =>
      match pending cfg with
      | [] => (cfg, [])
      | _ :: _ =>
          let (cfg1, out1) := step now (Resume 0) cfg in
          let (cfg2, out2) := complete fuel' now cfg1 in
          (cfg2, (out1 ++ out2)%list)
      end
  end.

(** The stretches a suspended handler still has to run, its own and those
    of the listener it fires. *)
Definition stretches (t : Task) : nat :=
  match t with
  | InLeaveRoom (FromRoomJoin _) _ _ => 6
  | AfterLeaveRoom (FromRoomJoin _) _ => 5
  | AtSAdd _ _ => 4
  | AtRoster _ _ _ => 3
  | InRoomState _ _ _ => 2
  | AtRoomState _ _ => 1
  | InLeaveRoom FromRoomLeave _ _ => 2
  | AfterLeaveRoom FromRoomLeave _ => 1
  | InLeaveRoom FromAdminKick _ _ => 5
  | AfterLeaveRoom FromAdminKick _ => 4
  | InLeaveRoom FromDisconnect _ _ => 3
  | AfterLeaveRoom FromDisconnect _ => 2
  | AtLPush _ _ => 1
  | AtUserStatus _ => 1
  end.

(** What a run leaves: the state, the suspended handlers and the
    messages. *)
Definition outcome (r : Config * list Output)
  : State * list Task * list Output :=
  (state (fst r), pending (fst r), snd r).

Definition uninterrupted (now : Z) (op : Op) (cfg : Config)
  : Config * list Output :=
  let (cfg1, out1) := step now (Arrive op) cfg in
  let (cfg2, out2) :=
    complete (list_sum (map stretches (pending cfg1))) now cfg1 in
  (cfg2, (out1 ++ out2)%list).

(** ** Overlapping handlers *)

Definition betaJoin := Some (mkJoinData (Some "beta") None).
Definition gammaJoin := Some (mkJoinData (Some "gamma") None).

(** The running example as a schedule: X and Y connect and join "alpha",
    each handler resumed to its end before the next event arrives. *)
Definition alpha_schedule : list (Z * Action) :=
  [(0, Arrive (OpConnect sockX)); (1, Arrive (OpConnect sockY));
   (2, Arrive (OpRoomJoin "x" alphaJoin));
   (2, Resume 0); (2, Resume 0); (2, Resume 0); (2, Resume 0);
   (3, Arrive (OpRoomJoin "y" alphaJoin));
   (3, Resume 0); (3, Resume 0); (3, Resume 0); (3, Resume 0)]%Z.

Definition alpha_config : Config := mkConfig alpha_state [] [].

(** Y, in "alpha", sends [room:join] for "beta" and at once [room:join] for
    "gamma": the second event arrives while the first handler is suspended
    in [leaveRoom] at line 377, and the session's room is still "alpha".
    Redis answers in the order of the commands: the first handler goes on
    to line 99, then the second, then each runs to its end. *)
Definition overlapping_joins : list (Z * Action) :=
  [(10, Arrive (OpRoomJoin "y" betaJoin));
   (11, Arrive (OpRoomJoin "y" gammaJoin));
   (12, Resume 0); (12, Resume 0);
   (13, Resume 1); (13, Resume 1);
   (14, Resume 0); (14, Resume 0); (14, Resume 0); (14, Resume 0);
   (15, Resume 0); (15, Resume 0); (15, Resume 0); (15, Resume 0)]%Z.

(** Y, in "alpha", sends [room:leave] twice in a row: the second event
    arrives while the first handler is suspended at line 377. *)
Definition overlapping_leaves : list (Z * Action) :=
  [(10, Arrive (OpRoomLeave "y"));
   (11, Arrive (OpRoomLeave "y"));
   (12, Resume 0); (12, Resume 0);
   (13, Resume 0); (13, Resume 0)]%Z.

(** The same two events, the second arriving after the first handler has
    finished. *)
Definition successive_leaves : list (Z * Action) :=
  [(10, Arrive (OpRoomLeave "y"));
   (12, Resume 0); (12, Resume 0);
   (13, Arrive (OpRoomLeave "y"));
   (13, Resume 0)]%Z.

(** Y, in "alpha", sends [room:leave] and at once [emergency:alert]: the
    alert arrives while [leaveRoom] is suspended at line 377, and Redis
    answers the [sRem] before the [lPush]. *)
Definition leave_then_alert : list (Z * Action) :=
  [(20, Arrive (OpRoomLeave "y"));
   (21, Arrive (OpEmergencyAlert "y" helpAlert));
   (22, Resume 0); (22, Resume 0);
   (23, Resume 0)]%Z.

(** The alert alone. *)
Definition alert_alone : list (Z * Action) :=
  [(21, Arrive (OpEmergencyAlert "y" helpAlert));
   (23, Resume 0)]%Z.

(** The configuration the overlapping joins end in. *)
Definition race_config : Config :=
  match play overlapping_joins alpha_config with
  | Some (cfg, _) => cfg
  | None => alpha_config
  end.

(** What every configuration keeps, whatever the schedule: the maps have
    no key twice, a room entry exists only while its set is not empty, no
    room is named by the empty string, and the sets of the tracker are
    sets. *)
Record Wf (st : State) : Prop := mkWf {
  wf_connections : NoDup (JsMap.keys (connections st));
  wf_room_keys : NoDup (JsMap.keys (rooms st));
  wf_rooms : sets_ok (rooms st);
  wf_room_names : forall room s, JsMap.get (rooms st) room = Some s ->
                                 room <> "";
  wf_user_keys : NoDup (JsMap.keys (userSockets st));
  wf_user_sets : forall uid s, JsMap.get (userSockets st) uid = Some s ->
                               NoDup s;
  wf_sockets : NoDup (JsMap.keys (sockets st));
  wf_adapter : NoDup (JsMap.keys (adapter st))
}.

(** A handler suspended on its way to join a room has a room id that
    passed the test of line 78. *)
Definition task_ok (t : Task) : Prop :=
  match t with
  | InLeaveRoom (FromRoomJoin room) _ _
  | AfterLeaveRoom (FromRoomJoin room) _ => room <> ""
  | _ => True
  end.

(** The socket whose ['disconnect'] listener is suspended before it has
    reached line 311. *)
Definition closing (t : Task) : option Socket :=
  match t with
  | InLeaveRoom FromDisconnect socket _
  | AfterLeaveRoom FromDisconnect socket => Some socket
  | _ => None
  end.

(** Connection [sid] of user [uid] is accounted for: its socket is
    connected, or has been closed and its listener is still on its way to
    line 311. *)
Definition accounted (cfg : Config) (sid uid : string) : Prop :=
  (exists s, JsMap.get (sockets (state cfg)) sid = Some s /\
             sock_userId s = uid)
  \/ (exists t s, In t (pending cfg) /\ closing t = Some s /\
                  sock_id s = sid /\ sock_userId s = uid).

(** What the schedules keep of the tracker: the sockets are stored under
    their ids, a suspended handler holds the socket that is connected under
    its id, if any, and every listed connection is accounted for. *)
Record Tracked (cfg : Config) : Prop := mkTracked {
  tr_socks : socks_ok (state cfg);
  tr_tasks : forall t s0,
    In t (pending cfg) ->
    JsMap.get (sockets (state cfg)) (sock_id (task_socket t)) = Some s0 ->
    s0 = task_socket t;
  tr_members : forall sid uid,
    member (userSockets (state cfg)) sid uid -> accounted cfg sid uid
}.

(** One stretch of code, from [st] to [st'] with the new tasks [ts]: no
    socket appears, a socket that disappears leaves its listener behind,
    and the tracker lists no new connection. *)
Record Quiet (st st' : State) (ts : list Task) : Prop := mkQuiet {
  q_shrinks : forall sid s,
    JsMap.get (sockets st') sid = Some s -> JsMap.get (sockets st) sid = Some s;
  q_closes : forall sid s,
    JsMap.get (sockets st) sid = Some s ->
    JsMap.get (sockets st') sid = Some s \/
    exists t, In t ts /\ closing t = Some s;
  q_tracker : forall sid uid,
    member (userSockets st') sid uid -> member (userSockets st) sid uid
}.

(** The multiplicity tracker and the key lists, carried along every run
    beside [Inv]. *)
Record Inv2 (st : State) : Prop := mkInv2 {
  inv2_room_keys : NoDup (JsMap.keys (rooms st));
  inv2_user_keys : NoDup (JsMap.keys (userSockets st));
  inv2_socket_keys : NoDup (JsMap.keys (sockets st));
  inv2_user_sets : sets_ok (userSockets st);
  inv2_user_member : forall sid c,
    JsMap.get (connections st) sid = Some c ->
    member (userSockets st) sid (userId c);
  inv2_adapter_dom : forall sid,
    JsMap.get (sockets st) sid = None -> JsMap.get (adapter st) sid = None
}.

(** Socket [m] has joined the Socket.IO room [room]. *)
Definition subscribed (st : State) (m room : string) : Prop :=
  exists rs, JsMap.get (adapter st) m = Some rs /\ In room rs.

(** The Socket.IO rooms of a socket, carried along every run of whole
    handlers beside [Inv]: a socket has joined its own room at most, and
    the room of its session. *)
Record Inv3 (st : State) : Prop := mkInv3 {
  inv3_adapter_keys : NoDup (JsMap.keys (adapter st));
  inv3_only : forall m room,
    subscribed st m room ->
    room = m \/
    exists c, JsMap.get (connections st) m = Some c /\ roomId c = Some room
}.

(** Two devices of one user, the first in room "alpha". *)
Definition sockY' := mkSocket "y2" "u2" "Y" "member".

Definition devices_script : list (Z * Op) :=
  (scenario ++ [(4, OpConnect sockY')])%Z%list.

Definition devices_state : State :=
  match exec devices_script init with Some st => st | None => init end.

(** ** Containers *)

Lemma eqb_sym_if (A : Type) (a b : string) (x y : A) :
  (if String.eqb a b then x else y) = (if String.eqb b a then x else y).
Proof. now rewrite String.eqb_sym. Qed.

Lemma get_set V (m : JsMap.t V) k v k' :
  JsMap.get (JsMap.set m k v) k' =
  if String.eqb k k' then Some v else JsMap.get m k'.
Proof.
  induction m as [|[k0 v0] m IH]; simpl.
  - reflexivity.
  - destruct (String.eqb_spec k0 k) as [->|Hne]; simpl.
    + destruct (String.eqb k k'); reflexivity.
    + rewrite IH. destruct (String.eqb_spec k0 k') as [->|Hne'].
      * apply String.eqb_neq in Hne. rewrite String.eqb_sym in Hne.
        now rewrite Hne.
      * reflexivity.
Qed.

Lemma get_delete V (m : JsMap.t V) k k' :
  JsMap.get (JsMap.delete m k) k' =
  if String.eqb k k' then None else JsMap.get m k'.
Proof.
  induction m as [|[k0 v0] m IH]; simpl.
  - now destruct (String.eqb k k').
  - destruct (String.eqb_spec k0 k) as [->|Hne]; simpl.
    + rewrite IH. destruct (String.eqb k k'); reflexivity.
    + rewrite IH. destruct (String.eqb_spec k0 k') as [->|Hne'].
      * apply String.eqb_neq in Hne. rewrite String.eqb_sym in Hne.
        now rewrite Hne.
      * reflexivity.
Qed.

Lemma get_modify V (m : JsMap.t V) k f k' :
  JsMap.get (JsMap.modify m k f) k' =
  if String.eqb k k' then option_map f (JsMap.get m k') else JsMap.get m k'.
Proof.
  induction m as [|[k0 v0] m IH]; simpl.
  - now destruct (String.eqb k k').
  - destruct (String.eqb_spec k0 k) as [->|Hne]; simpl.
    + destruct (String.eqb_spec k k') as [->|Hne']; [reflexivity|exact IH].
    + destruct (String.eqb_spec k0 k') as [->|Hne'].
      * apply String.eqb_neq in Hne. rewrite String.eqb_sym in Hne.
        now rewrite Hne.
      * apply IH.
Qed.

Lemma keys_modify V (m : JsMap.t V) k f :
  JsMap.keys (JsMap.modify m k f) = JsMap.keys m.
Proof.
  unfold JsMap.keys, JsMap.modify. rewrite map_map. apply map_ext.
  intros [k0 v0]; simpl. now destruct (String.eqb k0 k).
Qed.

Lemma in_keys_get V (m : JsMap.t V) k :
  In k (JsMap.keys m) <-> JsMap.get m k <> None.
Proof.
  induction m as [|[k0 v0] m IH]; simpl.
  - tauto.
  - destruct (String.eqb_spec k0 k) as [->|Hne].
    + split; [discriminate | auto].
    + rewrite <- IH. tauto.
Qed.

Lemma keys_set V (m : JsMap.t V) k v x :
  In x (JsMap.keys (JsMap.set m k v)) <-> In x (JsMap.keys m) \/ x = k.
Proof.
  rewrite !in_keys_get, get_set.
  destruct (String.eqb_spec k x) as [->|Hne].
  - split; [auto | discriminate].
  - split; [auto | intros [H|H]; [assumption | congruence]].
Qed.

Lemma nodup_keys_set V (m : JsMap.t V) k v :
  NoDup (JsMap.keys m) -> NoDup (JsMap.keys (JsMap.set m k v)).
Proof.
  induction m as [|[k0 v0] m IH]; simpl; intros Hnd.
  - constructor; [tauto | constructor].
  - inversion Hnd as [|? ? Hnotin Hnd']; subst.
    destruct (String.eqb_spec k0 k) as [->|Hne]; simpl.
    + now constructor.
    + constructor; [|now apply IH].
      intros Hin. apply (keys_set V m k v k0) in Hin. tauto.
Qed.

Lemma nodup_keys_delete V (m : JsMap.t V) k :
  NoDup (JsMap.keys m) -> NoDup (JsMap.keys (JsMap.delete m k)).
Proof.
  induction m as [|[k0 v0] m IH]; simpl; intros Hnd.
  - constructor.
  - inversion Hnd as [|? ? Hnotin Hnd']; subst.
    destruct (String.eqb k0 k); simpl; [now apply IH|].
    constructor; [|now apply IH].
    intros Hin. apply Hnotin. apply in_keys_get. apply in_keys_get in Hin.
    rewrite get_delete in Hin. now destruct (String.eqb k k0).
Qed.

Lemma delete_modify V (m : JsMap.t V) k f :
  JsMap.delete (JsMap.modify m k f) k = JsMap.delete m k.
Proof.
  induction m as [|[k0 v0] m IH]; simpl; [reflexivity|].
  destruct (String.eqb k0 k) eqn:E; simpl; rewrite E; simpl;
    now rewrite <- IH.
Qed.

Lemma delete_delete V (m : JsMap.t V) k k' :
  JsMap.delete (JsMap.delete m k) k' = JsMap.delete (JsMap.delete m k') k.
Proof.
  induction m as [|[k0 v0] m IH]; simpl; [reflexivity|].
  destruct (String.eqb k0 k) eqn:E, (String.eqb k0 k') eqn:E'; simpl;
    rewrite ?E, ?E'; simpl; now rewrite IH.
Qed.

Lemma delete_idem V (m : JsMap.t V) k :
  JsMap.delete (JsMap.delete m k) k = JsMap.delete m k.
Proof.
  induction m as [|[k0 v0] m IH]; simpl; [reflexivity|].
  destruct (String.eqb k0 k) eqn:E; simpl; rewrite ?E; simpl; now rewrite IH.
Qed.

Lemma modify_delete V (m : JsMap.t V) k k' f :
  k <> k' ->
  JsMap.modify (JsMap.delete m k) k' f = JsMap.delete (JsMap.modify m k' f) k.
Proof.
  intros Hne. induction m as [|[k0 v0] m IH]; simpl; [reflexivity|].
  destruct (String.eqb_spec k0 k) as [->|H0]; simpl.
  - apply String.eqb_neq in Hne. rewrite Hne. simpl.
    rewrite String.eqb_refl. simpl. apply IH.
  - apply String.eqb_neq in H0.
    destruct (String.eqb k0 k'); simpl; rewrite H0; simpl; now rewrite IH.
Qed.

Lemma has_true V (m : JsMap.t V) k :
  JsMap.has m k = true <-> JsMap.get m k <> None.
Proof.
  unfold JsMap.has. destruct (JsMap.get m k); split; congruence.
Qed.

Lemma set_has_In (s : JsSet.t) x : JsSet.has s x = true <-> In x s.
Proof.
  unfold JsSet.has. rewrite existsb_exists. split.
  - intros [y [Hy Heq]]. apply String.eqb_eq in Heq. now subst.
  - intros H. exists x. split; [assumption | apply String.eqb_refl].
Qed.

Lemma In_set_add (s : JsSet.t) x y : In y (JsSet.add s x) <-> In y s \/ y = x.
Proof.
  unfold JsSet.add. destruct (JsSet.has s x) eqn:E.
  - apply set_has_In in E. split; [auto | intros [H| ->]; assumption].
  - rewrite in_app_iff. simpl. split; intros [H|H]; auto.
    + destruct H as [H|[]]; auto.
Qed.

Lemma In_set_delete (s : JsSet.t) x y :
  In y (JsSet.delete s x) <-> In y s /\ y <> x.
Proof.
  unfold JsSet.delete. rewrite filter_In, negb_true_iff, String.eqb_neq.
  tauto.
Qed.

Lemma NoDup_set_add (s : JsSet.t) x : NoDup s -> NoDup (JsSet.add s x).
Proof.
  intros Hnd. unfold JsSet.add. destruct (JsSet.has s x) eqn:E.
  - assumption.
  - apply NoDup_app; [assumption | constructor; [tauto | constructor] |].
    intros a Ha [<-|[]]. apply set_has_In in Ha. congruence.
Qed.

Lemma NoDup_set_delete (s : JsSet.t) x : NoDup s -> NoDup (JsSet.delete s x).
Proof. apply NoDup_filter. Qed.

(** ** The two index updates *)

Lemma get_index_add m k x k' :
  JsMap.get (index_add m k x) k' =
  if String.eqb k k' then
    Some (JsSet.add (match JsMap.get m k with Some s => s | None => [] end) x)
  else JsMap.get m k'.
Proof.
  unfold index_add, JsMap.has. rewrite get_modify.
  destruct (String.eqb_spec k k') as [<-|Hne].
  - destruct (JsMap.get m k) eqn:E.
    + now rewrite E.
    + now rewrite get_set, String.eqb_refl.
  - destruct (JsMap.get m k); [reflexivity|].
    rewrite get_set. apply String.eqb_neq in Hne. now rewrite Hne.
Qed.

Lemma get_index_remove m k x k' :
  JsMap.get (index_remove m k x) k' =
  if String.eqb k k' then
    match JsMap.get m k with
    | Some s =>
        if Nat.eqb (JsSet.size (JsSet.delete s x)) 0 then None
        else Some (JsSet.delete s x)
    | None => None
    end
  else JsMap.get m k'.
Proof.
  unfold index_remove, JsMap.has.
  destruct (JsMap.get m k) as [s|] eqn:E.
  - rewrite get_modify, String.eqb_refl, E. simpl.
    destruct (Nat.eqb (JsSet.size (JsSet.delete s x)) 0) eqn:Esz.
    + rewrite get_delete, get_modify.
      destruct (String.eqb k k'); reflexivity.
    + rewrite get_modify.
      destruct (String.eqb_spec k k') as [<-|Hne]; [now rewrite E|reflexivity].
  - destruct (String.eqb_spec k k') as [<-|Hne]; [assumption|reflexivity].
Qed.

Lemma member_index_add m k x x' k' :
  member (index_add m k x) x' k' <-> member m x' k' \/ (x' = x /\ k' = k).
Proof.
  unfold member. rewrite get_index_add.
  destruct (String.eqb_spec k k') as [<-|Hne].
  - split.
    + intros [s [Hs Hin]]. injection Hs as <-. apply In_set_add in Hin.
      destruct Hin as [Hin| ->]; [|now right].
      left. destruct (JsMap.get m k) as [s0|]; [eauto | destruct Hin].
    + intros [[s [Hs Hin]]|[-> _]].
      * rewrite Hs. eexists. split; [reflexivity|].
        apply In_set_add. now left.
      * eexists. split; [reflexivity|]. apply In_set_add. now right.
  - split; [now left|]. intros [H|[_ Heq]]; [assumption | congruence].
Qed.

Lemma length_zero_nil (A : Type) (l : list A) :
  Nat.eqb (List.length l) 0 = true <-> l = [].
Proof. destruct l; simpl; split; congruence. Qed.

Lemma member_index_remove m k x x' k' :
  member (index_remove m k x) x' k' <->
  member m x' k' /\ ~ (x' = x /\ k' = k).
Proof.
  unfold member. rewrite get_index_remove.
  destruct (String.eqb_spec k k') as [<-|Hne].
  - destruct (JsMap.get m k) as [s|] eqn:E.
    + unfold JsSet.size.
      destruct (Nat.eqb (List.length (JsSet.delete s x)) 0) eqn:Esz.
      * apply length_zero_nil in Esz. split.
        -- intros [s0 [Hs _]]. discriminate.
        -- intros [[s0 [Hs Hin]] Hnot]. injection Hs as <-.
           assert (Hd : In x' (JsSet.delete s x)).
           { apply In_set_delete. split; [assumption|]. intros ->. tauto. }
           rewrite Esz in Hd. destruct Hd.
      * split.
        -- intros [s0 [Hs Hin]]. injection Hs as <-.
           apply In_set_delete in Hin. destruct Hin as [Hin Hx]. split.
           ++ eauto.
           ++ intros [Heq _]. contradiction.
        -- intros [[s0 [Hs Hin]] Hnot]. injection Hs as <-.
           eexists. split; [reflexivity|]. apply In_set_delete.
           split; [assumption|]. intros ->. tauto.
    + split.
      * intros [s0 [Hs _]]. discriminate.
      * intros [[s0 [Hs _]] _]. discriminate.
  - split.
    + intros H. split; [assumption|]. intros [_ Heq]. congruence.
    + tauto.
Qed.

Lemma sets_ok_index_add m k x :
  sets_ok m -> sets_ok (index_add m k x).
Proof.
  intros Hnd k' s. rewrite get_index_add.
  destruct (String.eqb k k').
  - intros [= <-]. split.
    + apply NoDup_set_add.
      destruct (JsMap.get m k) eqn:E; [now apply (Hnd k) | constructor].
    + intros Hnil.
      assert (Hin : In x (JsSet.add
                (match JsMap.get m k with Some s => s | None => [] end) x))
        by (apply In_set_add; now right).
      rewrite Hnil in Hin. destruct Hin.
  - apply Hnd.
Qed.

Lemma sets_ok_index_remove m k x :
  sets_ok m -> sets_ok (index_remove m k x).
Proof.
  intros Hnd k' s. rewrite get_index_remove.
  destruct (String.eqb k k').
  - destruct (JsMap.get m k) eqn:E; [|discriminate].
    destruct (Nat.eqb _ 0) eqn:Esz; [discriminate|].
    intros [= <-]. split.
    + apply NoDup_set_delete. now apply (Hnd k).
    + intros Hnil. unfold JsSet.size in Esz. rewrite Hnil in Esz.
      discriminate.
  - apply Hnd.
Qed.

Lemma member_get m x k s : JsMap.get m k = Some s -> In x s -> member m x k.
Proof. intros H1 H2. exists s. now split. Qed.

(** ** Truthiness *)

Lemma truthy_Some o r : truthy o = Some r <-> o = Some r /\ r <> "".
Proof.
  unfold truthy. destruct o as [s|].
  - destruct (String.eqb_spec s "") as [->|Hne]; split.
    + discriminate.
    + intros [[= <-] H]. congruence.
    + intros [= <-]. now split.
    + intros [[= <-] _]. reflexivity.
  - split; [discriminate | intros [H _]; discriminate].
Qed.

Lemma truthy_None o : truthy o = None <-> o = None \/ o = Some "".
Proof.
  unfold truthy. destruct o as [s|].
  - destruct (String.eqb_spec s "") as [->|Hne]; split.
    + intros _. now right.
    + reflexivity.
    + discriminate.
    + intros [H|H]; [discriminate | congruence].
  - split; auto.
Qed.

Lemma inv_truthy_eq st sid c :
  Inv st -> JsMap.get (connections st) sid = Some c ->
  truthy (roomId c) = roomId c.
Proof.
  intros HI Hc. destruct (roomId c) as [r|] eqn:E; [|reflexivity].
  apply truthy_Some. split; [reflexivity|]. eapply inv_truthy; eauto.
Qed.

(** ** What the helpers do to the state *)

Lemma leaveRoom_sync_in st socket c room :
  JsMap.get (connections st) (sock_id socket) = Some c ->
  truthy (roomId c) = Some room ->
  leaveRoom_sync socket st =
  (mkState (connections st)
     (index_remove (rooms st) room (sock_id socket))
     (userSockets st) (sockets st)
     (JsMap.modify (adapter st) (sock_id socket)
        (fun s => JsSet.delete s room))
     (sRem (participants_key room) (sock_userId socket) (redis st)),
   Some room).
Proof. intros Hc Ht. unfold leaveRoom_sync. rewrite Hc, Ht. reflexivity. Qed.

Lemma leaveRoom_sync_out st socket :
  (forall c, JsMap.get (connections st) (sock_id socket) = Some c ->
             truthy (roomId c) = None) ->
  leaveRoom_sync socket st = (st, None).
Proof.
  intros H. unfold leaveRoom_sync.
  destruct (JsMap.get (connections st) (sock_id socket)) as [c|];
    [|reflexivity].
  now rewrite (H c eq_refl).
Qed.

Lemma leaveRoom_in st socket now c room :
  JsMap.get (connections st) (sock_id socket) = Some c ->
  truthy (roomId c) = Some room ->
  leaveRoom socket now st =
  (mkState
     (JsMap.modify (connections st) (sock_id socket) (with_roomId None))
     (index_remove (rooms st) room (sock_id socket))
     (userSockets st) (sockets st)
     (JsMap.modify (adapter st) (sock_id socket)
        (fun s => JsSet.delete s room))
     (sRem (participants_key room) (sock_userId socket) (redis st)),
   [Emit
      (in_room (socket_leave (sock_id socket) room st) room)
      (EvParticipantLeft (sock_userId socket) (sock_userName socket) now)]).
Proof.
  intros Hc Ht. unfold leaveRoom.
  rewrite (leaveRoom_sync_in st socket c room Hc Ht). reflexivity.
Qed.

Lemma leaveRoom_out st socket now :
  (forall c, JsMap.get (connections st) (sock_id socket) = Some c ->
             truthy (roomId c) = None) ->
  leaveRoom socket now st = (st, []).
Proof.
  intros H. unfold leaveRoom. now rewrite (leaveRoom_sync_out st socket H).
Qed.

(** ** Preservation of the invariant *)

Lemma Inv_init : Inv init.
Proof.
  constructor; simpl.
  - constructor.
  - intros k s H. discriminate.
  - intros sid room. split.
    + intros [s [H _]]. discriminate.
    + intros [c [H _]]. discriminate.
  - intros sid c room H. discriminate.
  - tauto.
  - intros sid s H. discriminate.
  - intros sid c room H. discriminate.
  - intros sid s H. discriminate.
  - intros sid uid [s [H _]]. discriminate.
  - intros sid s c H. discriminate.
Qed.

Lemma Inv_set_redis st r : Inv st -> Inv (set_redis st r).
Proof. intros [H1 H2 H3 H4 H5 H6 H7 H8 H9 H10]. constructor; assumption. Qed.

Lemma get_modify_Some V (m : JsMap.t V) k f k' v' :
  JsMap.get (JsMap.modify m k f) k' = Some v' ->
  (k' = k /\ exists v, JsMap.get m k = Some v /\ v' = f v) \/
  (k' <> k /\ JsMap.get m k' = Some v').
Proof.
  rewrite get_modify. destruct (String.eqb_spec k k') as [<-|Hne].
  - destruct (JsMap.get m k) as [v|]; simpl; [|discriminate].
    intros [= <-]. left. eauto.
  - intros H. right. split; [congruence | assumption].
Qed.

Lemma get_modify_None V (m : JsMap.t V) k f k' :
  JsMap.get (JsMap.modify m k f) k' = None <-> JsMap.get m k' = None.
Proof.
  rewrite get_modify. destruct (String.eqb k k'); [|tauto].
  destruct (JsMap.get m k'); simpl; split; congruence.
Qed.

(** Mutating a registry object without touching its room identifier. *)
Lemma Inv_modify_connection st sid f :
  (forall c, roomId (f c) = roomId c) ->
  (forall c s, same_identity c s -> same_identity (f c) s) ->
  Inv st ->
  Inv (set_connections st (JsMap.modify (connections st) sid f)).
Proof.
  intros Hf Hid [H1 H2 H3 H4 H5 H6 H7 H8 H9 H10]. constructor; simpl.
  - now rewrite keys_modify.
  - assumption.
  - intros x room. rewrite H3. split.
    + intros [c [Hc Hr]]. rewrite get_modify.
      destruct (String.eqb sid x); [|eauto].
      rewrite Hc. simpl. exists (f c). now rewrite Hf.
    + intros [c [Hc Hr]]. apply get_modify_Some in Hc.
      destruct Hc as [[-> [v [Hv ->]]]|[_ Hc]]; [|eauto].
      exists v. now rewrite <- Hf.
  - intros x c room Hc Hr. apply get_modify_Some in Hc.
    destruct Hc as [[-> [v [Hv ->]]]|[_ Hc]]; [|eauto].
    rewrite Hf in Hr. eauto.
  - intros x. now rewrite get_modify_None.
  - assumption.
  - intros x c room Hc Hr. apply get_modify_Some in Hc.
    destruct Hc as [[-> [v [Hv ->]]]|[_ Hc]]; [|eauto].
    rewrite Hf in Hr. eauto.
  - assumption.
  - assumption.
  - intros x s c Hs Hc. apply get_modify_Some in Hc.
    destruct Hc as [[-> [v [Hv ->]]]|[_ Hc]]; [|eauto].
    apply Hid. eauto.
Qed.

Lemma Inv_leaveRoom st socket now :
  Inv st -> Inv (fst (leaveRoom socket now st)).
Proof.
  intros HI.
  destruct (JsMap.get (connections st) (sock_id socket)) as [c|] eqn:Hc.
  2:{ rewrite leaveRoom_out; [assumption|]. intros c Hc'. congruence. }
  destruct (truthy (roomId c)) as [room|] eqn:Ht.
  2:{ rewrite leaveRoom_out; [assumption|]. intros c' Hc'. congruence. }
  rewrite (leaveRoom_in st socket now c room Hc Ht).
  apply truthy_Some in Ht. destruct Ht as [Hroom Hne].
  destruct HI as [H1 H2 H3 H4 H5 H6 H7 H8 H9 H10]. constructor; simpl.
  - now rewrite keys_modify.
  - now apply sets_ok_index_remove.
  - intros x r. rewrite member_index_remove, H3. split.
    + intros [[c0 [Hc0 Hr0]] Hnot].
      destruct (String.eqb_spec x (sock_id socket)) as [->|Hx].
      * exfalso. apply Hnot. split; [reflexivity|]. congruence.
      * exists c0. split; [|assumption]. rewrite get_modify.
        apply not_eq_sym in Hx. apply String.eqb_neq in Hx. now rewrite Hx.
    + intros [c0 [Hc0 Hr0]]. apply get_modify_Some in Hc0.
      destruct Hc0 as [[-> [v [Hv ->]]]|[Hx Hc0]]; [discriminate|].
      split; [eauto | tauto].
  - intros x c0 r Hc0 Hr0. apply get_modify_Some in Hc0.
    destruct Hc0 as [[-> [v [Hv ->]]]|[Hx Hc0]]; [discriminate | eauto].
  - intros x. now rewrite get_modify_None.
  - assumption.
  - intros x c0 r Hc0 Hr0. apply get_modify_Some in Hc0.
    destruct Hc0 as [[-> [v [Hv ->]]]|[Hx Hc0]]; [discriminate|].
    rewrite get_modify. apply not_eq_sym in Hx. apply String.eqb_neq in Hx.
    rewrite Hx. eauto.
  - intros x s Hs. destruct (H8 x s Hs) as [rs Hrs]. rewrite get_modify, Hrs.
    destruct (String.eqb (sock_id socket) x); simpl; eauto.
  - assumption.
  - intros x s c0 Hs Hc0. apply get_modify_Some in Hc0.
    destruct Hc0 as [[-> [v [Hv ->]]]|[_ Hc0]]; [|eauto].
    apply (H10 _ _ _ Hs Hv).
Qed.

Lemma Inv_joined st socket room c :
  Inv st ->
  JsMap.get (sockets st) (sock_id socket) = Some socket ->
  JsMap.get (connections st) (sock_id socket) = Some c ->
  roomId c = None -> room <> "" ->
  Inv (joined socket room st).
Proof.
  intros [H1 H2 H3 H4 H5 H6 H7 H8 H9 H10] Hs Hc Hnone Hne.
  constructor; simpl.
  - now rewrite keys_modify.
  - now apply sets_ok_index_add.
  - intros x r. rewrite member_index_add, H3. split.
    + intros [[c0 [Hc0 Hr0]]|[-> ->]].
      * destruct (String.eqb_spec x (sock_id socket)) as [->|Hx];
          [congruence|].
        exists c0. split; [|assumption]. rewrite get_modify.
        apply not_eq_sym in Hx. apply String.eqb_neq in Hx. now rewrite Hx.
      * rewrite get_modify, String.eqb_refl, Hc. simpl. eauto.
    + intros [c0 [Hc0 Hr0]]. apply get_modify_Some in Hc0.
      destruct Hc0 as [[-> [v [Hv ->]]]|[Hx Hc0]].
      * right. simpl in Hr0. split; congruence.
      * left. eauto.
  - intros x c0 r Hc0 Hr0. apply get_modify_Some in Hc0.
    destruct Hc0 as [[-> [v [Hv ->]]]|[Hx Hc0]]; [|eauto].
    simpl in Hr0. congruence.
  - intros x. now rewrite get_modify_None.
  - assumption.
  - intros x c0 r Hc0 Hr0. apply get_modify_Some in Hc0.
    destruct Hc0 as [[-> [v [Hv ->]]]|[Hx Hc0]].
    + simpl in Hr0. injection Hr0 as <-.
      destruct (H8 _ _ Hs) as [rs Hrs].
      rewrite get_modify, String.eqb_refl, Hrs. simpl.
      eexists. split; [reflexivity|]. apply In_set_add. now right.
    + rewrite get_modify. apply not_eq_sym in Hx.
      apply String.eqb_neq in Hx. rewrite Hx. eauto.
  - intros x s Hx. destruct (H8 x s Hx) as [rs Hrs]. rewrite get_modify, Hrs.
    destruct (String.eqb (sock_id socket) x); simpl; eauto.
  - assumption.
  - intros x s c0 Hx Hc0. apply get_modify_Some in Hc0.
    destruct Hc0 as [[-> [v [Hv ->]]]|[_ Hc0]]; [|eauto].
    apply (H10 _ _ _ Hx Hv).
Qed.

Lemma sockets_leaveRoom st socket now :
  sockets (fst (leaveRoom socket now st)) = sockets st.
Proof.
  unfold leaveRoom, leaveRoom_sync.
  destruct (JsMap.get (connections st) (sock_id socket)) as [c|];
    [|reflexivity].
  destruct (truthy (roomId c)); reflexivity.
Qed.

Lemma roomJoin_state st socket d room c now :
  truthy (jd_roomId d) = Some room ->
  JsMap.get (connections st) (sock_id socket) = Some c ->
  fst (roomJoin socket (Some d) now st) =
  joined socket room
    (match truthy (roomId c) with
     | Some _ => fst (leaveRoom socket now st)
     | None => st
     end).
Proof.
  intros Ht Hc. unfold roomJoin. rewrite Ht, Hc.
  destruct (truthy (roomId c)).
  - destruct (leaveRoom socket now st) as [st1 out1]. reflexivity.
  - reflexivity.
Qed.

Lemma Inv_roomJoin st socket data now :
  Inv st ->
  JsMap.get (sockets st) (sock_id socket) = Some socket ->
  Inv (fst (roomJoin socket data now st)).
Proof.
  intros HI Hs. destruct data as [d|]; [|exact HI].
  destruct (truthy (jd_roomId d)) as [room|] eqn:Ht.
  2:{ unfold roomJoin. now rewrite Ht. }
  destruct (JsMap.get (connections st) (sock_id socket)) as [c|] eqn:Hc.
  2:{ unfold roomJoin. now rewrite Ht, Hc. }
  rewrite (roomJoin_state st socket d room c now Ht Hc).
  apply truthy_Some in Ht. destruct Ht as [_ Hne].
  destruct (truthy (roomId c)) as [old|] eqn:Hold.
  - rewrite (leaveRoom_in st socket now c old Hc Hold).
    pose proof (Inv_leaveRoom st socket now HI) as HI'.
    rewrite (leaveRoom_in st socket now c old Hc Hold) in HI'.
    eapply Inv_joined with (c := with_roomId None c); eauto.
    simpl. rewrite get_modify, String.eqb_refl, Hc. reflexivity.
  - eapply Inv_joined with (c := c); eauto.
    rewrite <- (inv_truthy_eq st _ c HI Hc). assumption.
Qed.

Lemma Inv_connect st socket now :
  Inv st ->
  JsMap.get (sockets st) (sock_id socket) = None ->
  Inv (fst (onConnection socket now (socket_open socket st))).
Proof.
  intros [H1 H2 H3 H4 H5 H6 H7 H8 H9 H10] Hfresh.
  assert (Hc : JsMap.get (connections st) (sock_id socket) = None)
    by now apply H5.
  constructor; simpl.
  - now apply nodup_keys_set.
  - assumption.
  - intros x r. rewrite H3. split.
    + intros [c [Hx Hr]]. exists c. split; [|assumption].
      rewrite get_set.
      destruct (String.eqb_spec (sock_id socket) x) as [<-|_];
        [congruence | assumption].
    + intros [c [Hx Hr]]. rewrite get_set in Hx.
      destruct (String.eqb_spec (sock_id socket) x) as [<-|_].
      * injection Hx as <-. discriminate.
      * eauto.
  - intros x c r Hx Hr. rewrite get_set in Hx.
    destruct (String.eqb (sock_id socket) x).
    + injection Hx as <-. discriminate.
    + eauto.
  - intros x. rewrite !get_set.
    destruct (String.eqb (sock_id socket) x).
    + split; discriminate.
    + apply H5.
  - intros x s Hx. rewrite get_set in Hx.
    destruct (String.eqb_spec (sock_id socket) x) as [<-|_].
    + now injection Hx as <-.
    + eauto.
  - intros x c r Hx Hr. rewrite get_set in Hx.
    destruct (String.eqb_spec (sock_id socket) x) as [<-|Hne].
    + injection Hx as <-. discriminate.
    + rewrite get_set. apply String.eqb_neq in Hne. rewrite Hne. eauto.
  - intros x s Hx. rewrite get_set in *.
    destruct (String.eqb (sock_id socket) x); eauto.
  - intros x uid Hm.
    change (member (index_add (userSockets st) (sock_userId socket)
                      (sock_id socket)) x uid) in Hm.
    apply member_index_add in Hm. rewrite get_set.
    destruct Hm as [Hm|[-> ->]].
    + destruct (H9 x uid Hm) as [s [Hs Hu]].
      destruct (String.eqb_spec (sock_id socket) x) as [<-|_];
        [congruence | eauto].
    + rewrite String.eqb_refl. eauto.
  - intros x s c Hx Hcx. rewrite get_set in Hx, Hcx.
    destruct (String.eqb (sock_id socket) x).
    + injection Hx as <-. injection Hcx as <-. now repeat split.
    + eauto.
Qed.

Lemma disconnect_resume_state p now st :
  fst (disconnect_resume p now st) =
  mkState (JsMap.delete (connections st) (sock_id (fst p))) (rooms st)
    (index_remove (userSockets st) (sock_userId (fst p)) (sock_id (fst p)))
    (sockets st) (adapter st)
    (offline_redis (userSockets st) (sock_userId (fst p)) (sock_id (fst p))
       now (redis st)).
Proof.
  destruct p as [s susp]. unfold disconnect_resume, index_remove, JsMap.has,
    offline_redis.
  destruct susp as [room|]; simpl;
    destruct (JsMap.get (userSockets st) (sock_userId s)) as [m|] eqn:E;
    rewrite ?get_modify, ?String.eqb_refl, ?E; simpl;
    try destruct (Nat.eqb (JsSet.size (JsSet.delete m (sock_id s))) 0);
    simpl; rewrite ?delete_modify; reflexivity.
Qed.

Lemma Inv_disconnected st s rooms' adapter' redis' :
  Inv st ->
  JsMap.get (sockets st) (sock_id s) = Some s ->
  (forall x r, member rooms' x r <->
               member (rooms st) x r /\ x <> sock_id s) ->
  sets_ok rooms' ->
  (forall x, x <> sock_id s ->
             JsMap.get adapter' x = JsMap.get (adapter st) x) ->
  Inv (mkState (JsMap.delete (connections st) (sock_id s)) rooms'
         (index_remove (userSockets st) (sock_userId s) (sock_id s))
         (JsMap.delete (sockets st) (sock_id s)) adapter' redis').
Proof.
  intros [H1 H2 H3 H4 H5 H6 H7 H8 H9 H10] Hs Hrooms Hnd Had.
  constructor; simpl.
  - now apply nodup_keys_delete.
  - assumption.
  - intros x r. rewrite Hrooms, H3, get_delete. split.
    + intros [[c [Hc Hr]] Hx]. apply not_eq_sym in Hx.
      apply String.eqb_neq in Hx. rewrite Hx. eauto.
    + intros [c [Hc Hr]].
      destruct (String.eqb_spec (sock_id s) x) as [<-|Hx];
        [discriminate|]. split; [eauto | congruence].
  - intros x c r Hc Hr. rewrite get_delete in Hc.
    destruct (String.eqb (sock_id s) x); [discriminate | eauto].
  - intros x. rewrite !get_delete.
    destruct (String.eqb (sock_id s) x); [tauto | apply H5].
  - intros x s0 Hx. rewrite get_delete in Hx.
    destruct (String.eqb (sock_id s) x); [discriminate | eauto].
  - intros x c r Hc Hr. rewrite get_delete in Hc.
    destruct (String.eqb_spec (sock_id s) x) as [<-|Hx]; [discriminate|].
    rewrite Had by congruence. eauto.
  - intros x s0 Hx. rewrite get_delete in Hx.
    destruct (String.eqb_spec (sock_id s) x) as [<-|Hne]; [discriminate|].
    rewrite Had by congruence. eauto.
  - intros x uid Hm. apply member_index_remove in Hm.
    destruct Hm as [Hm Hnot]. destruct (H9 x uid Hm) as [s0 [Hs0 Hu]].
    rewrite get_delete.
    destruct (String.eqb_spec (sock_id s) x) as [<-|Hne]; [|eauto].
    exfalso. apply Hnot. split; congruence.
  - intros x s0 c Hx Hc. rewrite get_delete in Hx, Hc.
    destruct (String.eqb (sock_id s) x); [discriminate | eauto].
Qed.

Lemma Inv_onDisconnect st s now :
  Inv st ->
  JsMap.get (sockets st) (sock_id s) = Some s ->
  Inv (fst (onDisconnect s now (socket_close (sock_id s) st))).
Proof.
  intros HI Hs. unfold onDisconnect, disconnect_sync.
  destruct (JsMap.get (connections st) (sock_id s)) as [c|] eqn:Hc.
  2:{ apply (inv_live st HI) in Hc. congruence. }
  destruct (truthy (roomId c)) as [room|] eqn:Ht.
  - rewrite (leaveRoom_sync_in (socket_close (sock_id s) st) s c room Hc Ht).
    rewrite disconnect_resume_state. simpl.
    apply truthy_Some in Ht. destruct Ht as [Hroom Hne].
    apply Inv_disconnected; try assumption.
    + intros x r. rewrite member_index_remove. split.
      * intros [Hm Hnot]. split; [assumption|]. intros ->.
        apply Hnot. split; [reflexivity|].
        apply (inv_agree st HI) in Hm. destruct Hm as [c0 [Hc0 Hr0]].
        congruence.
      * intros [Hm Hx]. split; [assumption | tauto].
    + apply sets_ok_index_remove. apply (inv_rooms_ok st HI).
    + intros x Hx. rewrite get_modify, get_delete.
      apply not_eq_sym in Hx. apply String.eqb_neq in Hx. now rewrite Hx.
  - rewrite leaveRoom_sync_out.
    2:{ simpl. intros c' Hc'. congruence. }
    rewrite disconnect_resume_state. simpl.
    apply Inv_disconnected; try assumption.
    + intros x r. split; [|tauto]. intros Hm. split; [assumption|].
      intros ->. apply (inv_agree st HI) in Hm.
      destruct Hm as [c0 [Hc0 Hr0]].
      rewrite (inv_truthy_eq st _ c HI Hc) in Ht. congruence.
    + apply (inv_rooms_ok st HI).
    + intros x Hx. rewrite get_delete.
      apply not_eq_sym in Hx. apply String.eqb_neq in Hx. now rewrite Hx.
Qed.

(** ** The sweep and the suspended listeners *)

Lemma redis_commute us uid sid now key m r :
  sRem key m (offline_redis us uid sid now r) =
  offline_redis us uid sid now (sRem key m r).
Proof.
  unfold offline_redis. destruct (JsMap.get us uid) as [s|]; [|reflexivity].
  destruct (Nat.eqb (JsSet.size (JsSet.delete s sid)) 0); [|reflexivity].
  unfold sRem, updateUserStatus. simpl.
  destruct (JsMap.get (r_participants r) key); reflexivity.
Qed.

Lemma resume_after_delete p now st :
  fst (disconnect_resume p now
         (set_connections st
            (JsMap.delete (connections st) (sock_id (fst p))))) =
  fst (disconnect_resume p now st).
Proof. rewrite !disconnect_resume_state. simpl. now rewrite delete_idem. Qed.

Lemma delete_after_resume p now st sid :
  set_connections (fst (disconnect_resume p now st))
    (JsMap.delete (connections (fst (disconnect_resume p now st))) sid) =
  fst (disconnect_resume p now
         (set_connections st (JsMap.delete (connections st) sid))).
Proof.
  rewrite !disconnect_resume_state. unfold set_connections. simpl.
  now rewrite delete_delete.
Qed.

Lemma sync_after_resume p now st s sid :
  sock_id s <> sock_id (fst p) ->
  disconnect_sync s (socket_close sid (fst (disconnect_resume p now st))) =
  (fst (disconnect_resume p now
          (fst (disconnect_sync s (socket_close sid st)))),
   snd (disconnect_sync s (socket_close sid st))).
Proof.
  intros Hne. rewrite !disconnect_resume_state.
  unfold disconnect_sync, leaveRoom_sync. simpl. rewrite get_delete.
  apply not_eq_sym in Hne. apply String.eqb_neq in Hne. rewrite Hne.
  destruct (JsMap.get (connections st) (sock_id s)) as [c|]; simpl.
  - destruct (truthy (roomId c)) as [room|]; simpl.
    + now rewrite redis_commute.
    + reflexivity.
  - reflexivity.
Qed.

Lemma socks_ok_delete st sid st' :
  sockets st' = JsMap.delete (sockets st) sid -> socks_ok st -> socks_ok st'.
Proof.
  intros Heq Hok x s Hx. rewrite Heq, get_delete in Hx.
  destruct (String.eqb sid x); [discriminate | eauto].
Qed.

Lemma sockets_disconnect_sync s st :
  sockets (fst (disconnect_sync s st)) = sockets st.
Proof.
  unfold disconnect_sync, leaveRoom_sync.
  destruct (JsMap.get (connections st) (sock_id s)) as [c|]; [|reflexivity].
  destruct (truthy (roomId c)); reflexivity.
Qed.

Lemma sweep_after_resume now p entries :
  ~ In (sock_id (fst p)) (map fst entries) ->
  forall st, socks_ok st ->
  sweep now entries (fst (disconnect_resume p now st)) =
  (fst (disconnect_resume p now (fst (fst (sweep now entries st)))),
   snd (fst (sweep now entries st)), snd (sweep now entries st)).
Proof.
  induction entries as [|[sid c] rest IH]; intros Hnotin st Hok.
  - reflexivity.
  - simpl in Hnotin. simpl.
    assert (Hrest : ~ In (sock_id (fst p)) (map fst rest)) by tauto.
    assert (Hsid : sid <> sock_id (fst p)) by tauto.
    destruct (isStale now c); [|now apply IH].
    replace (sockets (fst (disconnect_resume p now st))) with (sockets st)
      by now rewrite disconnect_resume_state.
    destruct (JsMap.get (sockets st) sid) as [s|] eqn:Hs.
    + assert (Hid : sock_id s = sid) by now apply Hok.
      rewrite (sync_after_resume p now st s sid) by congruence.
      destruct (disconnect_sync s (socket_close sid st)) as [st' q] eqn:Esync.
      simpl. rewrite delete_after_resume.
      rewrite IH; [|assumption|].
      * destruct (sweep now rest
                    (set_connections st' (JsMap.delete (connections st') sid)))
          as [[st3 ps3] out3]. reflexivity.
      * apply (socks_ok_delete st sid); [|assumption]. simpl.
        replace st' with (fst (disconnect_sync s (socket_close sid st)))
          by now rewrite Esync.
        now rewrite sockets_disconnect_sync.
    + rewrite delete_after_resume. rewrite IH; [|assumption|].
      * destruct (sweep now rest
                    (set_connections st (JsMap.delete (connections st) sid)))
          as [[st3 ps3] out3]. reflexivity.
      * intros x s Hx. simpl in Hx. eauto.
Qed.

Lemma resume_all_cons now p ps st :
  fst (resume_all now (p :: ps) st) =
  fst (resume_all now ps (fst (disconnect_resume p now st))).
Proof.
  simpl. destruct (disconnect_resume p now st) as [st1 out1]. simpl.
  destruct (resume_all now ps st1). reflexivity.
Qed.

Lemma sweep_resume_fold now entries :
  NoDup (map fst entries) ->
  forall st, socks_ok st ->
  fst (resume_all now (snd (fst (sweep now entries st)))
         (fst (fst (sweep now entries st)))) =
  fold_left (reapEntry now) entries st.
Proof.
  induction entries as [|[sid c] rest IH]; intros Hnd st Hok.
  - reflexivity.
  - inversion Hnd as [|? ? Hnotin Hnd']; subst. simpl.
    unfold reapEntry at 2. simpl.
    destruct (isStale now c); [|now apply IH].
    unfold reapOne.
    destruct (JsMap.get (sockets st) sid) as [s|] eqn:Hs.
    + assert (Hid : sock_id s = sid) by now apply Hok.
      unfold onDisconnect.
      destruct (disconnect_sync s (socket_close sid st)) as [st' q] eqn:Esync.
      assert (Hq : fst q = s).
      { unfold disconnect_sync in Esync.
        destruct (leaveRoom_sync s (socket_close sid st)).
        now injection Esync as _ <-. }
      assert (Hok' : socks_ok
                (set_connections st' (JsMap.delete (connections st') sid))).
      { apply (socks_ok_delete st sid); [|assumption]. simpl.
        replace st' with (fst (disconnect_sync s (socket_close sid st)))
          by now rewrite Esync.
        now rewrite sockets_disconnect_sync. }
      pose proof (sweep_after_resume now q rest) as Hcomm.
      rewrite Hq, Hid in Hcomm. specialize (Hcomm Hnotin _ Hok').
      destruct (sweep now rest
                  (set_connections st' (JsMap.delete (connections st') sid)))
        as [[st3 ps3] out3] eqn:Esweep.
      cbn [fst snd app] in *. rewrite resume_all_cons.
      rewrite <- (IH Hnd' (fst (disconnect_resume q now st'))).
      * rewrite <- (resume_after_delete q now st'), Hq, Hid.
        now rewrite Hcomm.
      * intros x s0 Hx.
        rewrite disconnect_resume_state in Hx. simpl in Hx.
        apply (Hok' x s0). simpl.
        replace st' with (fst (disconnect_sync s (socket_close sid st))) in *
          by now rewrite Esync.
        rewrite sockets_disconnect_sync in *. exact Hx.
    + rewrite <- IH; [|assumption|].
      * destruct (sweep now rest
                    (set_connections st (JsMap.delete (connections st) sid)))
          as [[st3 ps3] out3]. reflexivity.
      * intros x s Hx. simpl in Hx. eauto.
Qed.

Lemma cleanup_fold now st :
  NoDup (JsMap.keys (connections st)) -> socks_ok st ->
  fst (cleanupStaleConnections now st) =
  fold_left (reapEntry now) (connections st) st.
Proof.
  intros Hnd Hok. rewrite <- (sweep_resume_fold now _ Hnd st Hok).
  unfold cleanupStaleConnections.
  destruct (sweep now (connections st) st) as [[st1 ps] out1]. simpl.
  destruct (resume_all now ps st1). reflexivity.
Qed.

Lemma connections_leaveRoom_sync s st :
  connections (fst (leaveRoom_sync s st)) = connections st.
Proof.
  unfold leaveRoom_sync.
  destruct (JsMap.get (connections st) (sock_id s)) as [c|]; [|reflexivity].
  destruct (truthy (roomId c)); reflexivity.
Qed.

Lemma connections_onDisconnect s now st :
  connections (fst (onDisconnect s now st)) =
  JsMap.delete (connections st) (sock_id s).
Proof.
  unfold onDisconnect, disconnect_sync.
  pose proof (connections_leaveRoom_sync s st) as H.
  destruct (leaveRoom_sync s st) as [st1 susp]. simpl in H.
  rewrite disconnect_resume_state. simpl. now rewrite H.
Qed.

Lemma in_entries_keys V (m : JsMap.t V) k v :
  In (k, v) m -> In k (JsMap.keys m).
Proof. intros H. apply (in_map fst) in H. exact H. Qed.

Lemma fold_reap now entries :
  NoDup (map fst entries) ->
  forall st, Inv st ->
  (forall sid c, In (sid, c) entries ->
                 JsMap.get (connections st) sid <> None) ->
  fold_left (reapEntry now) entries st =
    disconnectAll now
      (map fst (filter (fun e => isStale now (snd e)) entries)) st
  /\ Inv (fold_left (reapEntry now) entries st)
  /\ forall x,
       JsMap.get (connections (fold_left (reapEntry now) entries st)) x =
       if JsSet.has
            (map fst (filter (fun e => isStale now (snd e)) entries)) x
       then None else JsMap.get (connections st) x.
Proof.
  induction entries as [|[sid c] rest IH]; intros Hnd st HI Hlive.
  - simpl. auto.
  - inversion Hnd as [|? ? Hnotin Hnd']; subst. simpl.
    destruct (isStale now c) eqn:Estale.
    + assert (Hhead : reapEntry now st (sid, c) = reapOne now sid st)
        by (unfold reapEntry; simpl; now rewrite Estale).
      rewrite Hhead. clear Hhead.
      assert (Hc : JsMap.get (connections st) sid <> None)
        by (apply (Hlive sid c); now left).
      destruct (JsMap.get (sockets st) sid) as [s|] eqn:Hs.
      2:{ apply (inv_live st HI) in Hs. contradiction. }
      assert (Hid : sock_id s = sid) by now apply (inv_sock_id st HI).
      assert (Hone : reapOne now sid st =
                     fst (run now (OpDisconnect sid) st)).
      { unfold reapOne. simpl. unfold on_socket. now rewrite Hs. }
      assert (HI1 : Inv (reapOne now sid st)).
      { unfold reapOne. rewrite Hs. rewrite <- Hid.
        apply Inv_onDisconnect; [assumption | now rewrite Hid]. }
      assert (Hconn : connections (reapOne now sid st) =
                      JsMap.delete (connections st) sid).
      { unfold reapOne. rewrite Hs, connections_onDisconnect. simpl.
        now rewrite Hid. }
      destruct (IH Hnd' (reapOne now sid st) HI1) as [E1 [E2 E3]].
      { intros x cx Hin. rewrite Hconn, get_delete.
        destruct (String.eqb_spec sid x) as [<-|_].
        - exfalso. apply Hnotin. now apply (in_entries_keys _ rest sid cx).
        - apply (Hlive x cx). now right. }
      split; [|split].
      * rewrite E1. unfold disconnectAll. cbn [map fst fold_left].
        now rewrite Hone.
      * assumption.
      * intros x. rewrite E3, Hconn, get_delete. simpl.
        rewrite (String.eqb_sym x sid).
        destruct (String.eqb sid x); simpl; [|reflexivity].
        now destruct (JsSet.has _ x).
    + assert (Hhead : reapEntry now st (sid, c) = st)
        by (unfold reapEntry; simpl; now rewrite Estale).
      rewrite Hhead. apply IH; [assumption | assumption |].
      intros x cx Hin. apply (Hlive x cx). now right.
Qed.

Lemma Inv_socks_ok st : Inv st -> socks_ok st.
Proof. intros HI sid s. apply (inv_sock_id st HI). Qed.

Lemma Inv_entries_live st :
  forall sid c, In (sid, c) (connections st) ->
                JsMap.get (connections st) sid <> None.
Proof.
  intros sid c Hin. apply in_keys_get. now apply (in_entries_keys _ _ sid c).
Qed.

Lemma cleanup_disconnectAll now st :
  Inv st ->
  fst (cleanupStaleConnections now st) =
  disconnectAll now (staleIds now st) st.
Proof.
  intros HI.
  rewrite cleanup_fold by
    (try apply (inv_keys st HI); now apply Inv_socks_ok).
  apply (fold_reap now (connections st) (inv_keys st HI) st HI
           (Inv_entries_live st)).
Qed.

Lemma Inv_cleanup now st :
  Inv st -> Inv (fst (cleanupStaleConnections now st)).
Proof.
  intros HI.
  rewrite cleanup_fold by
    (try apply (inv_keys st HI); now apply Inv_socks_ok).
  apply (fold_reap now (connections st) (inv_keys st HI) st HI
           (Inv_entries_live st)).
Qed.

Lemma connections_cleanup now st x :
  Inv st ->
  JsMap.get (connections (fst (cleanupStaleConnections now st))) x =
  if JsSet.has (staleIds now st) x then None
  else JsMap.get (connections st) x.
Proof.
  intros HI.
  rewrite cleanup_fold by
    (try apply (inv_keys st HI); now apply Inv_socks_ok).
  apply (fold_reap now (connections st) (inv_keys st HI) st HI
           (Inv_entries_live st)).
Qed.

Lemma Inv_forceDisconnect st s now :
  Inv st ->
  JsMap.get (sockets st) (sock_id s) = Some s ->
  Inv (fst (forceDisconnect s now st)).
Proof.
  intros HI Hs. unfold forceDisconnect.
  pose proof (Inv_onDisconnect st s now HI Hs) as H.
  destruct (onDisconnect s now (socket_close (sock_id s) st)). exact H.
Qed.

Lemma lookup_socket_Some st target s :
  Inv st -> lookup_socket st target = Some s ->
  target = Some (sock_id s) /\ JsMap.get (sockets st) (sock_id s) = Some s.
Proof.
  intros HI H. destruct target as [tid|]; [|discriminate]. simpl in H.
  pose proof (inv_sock_id st HI tid s H) as Hid. subst tid. now split.
Qed.

Lemma Inv_adminKick st socket data now :
  Inv st -> Inv (fst (adminKick socket data now st)).
Proof.
  intros HI. unfold adminKick.
  destruct (negb (String.eqb (sock_userRole socket) "admin")); [exact HI|].
  destruct data as [d|]; [|exact HI].
  destruct (lookup_socket st (kd_targetSocketId d)) as [ts|] eqn:Hl;
    [|exact HI].
  apply (lookup_socket_Some st _ ts HI) in Hl. destruct Hl as [_ Hts].
  pose proof (Inv_leaveRoom st ts now HI) as H1.
  pose proof (sockets_leaveRoom st ts now) as Hsock.
  destruct (leaveRoom ts now st) as [st1 out1]. simpl in *.
  assert (Hts1 : JsMap.get (sockets st1) (sock_id ts) = Some ts)
    by now rewrite Hsock.
  pose proof (Inv_forceDisconnect st1 ts now H1 Hts1) as H2.
  destruct (forceDisconnect ts now st1). exact H2.
Qed.

Lemma Inv_run now op st :
  Inv st -> enabled op st = true -> Inv (fst (run now op st)).
Proof.
  intros HI Hen.
  assert (Hon : forall sid h,
            (forall s, JsMap.get (sockets st) (sock_id s) = Some s ->
                       Inv (fst (h s st))) ->
            Inv (fst (on_socket sid h st))).
  { intros sid h Hh. unfold on_socket.
    destruct (JsMap.get (sockets st) sid) as [s|] eqn:Hs; [|exact HI].
    apply Hh. now rewrite (inv_sock_id st HI sid s Hs). }
  destruct op; simpl.
  - apply Inv_connect; [assumption|]. simpl in Hen.
    apply negb_true_iff in Hen. unfold JsMap.has in Hen.
    now destruct (JsMap.get (sockets st) (sock_id socket)).
  - apply Hon. intros s Hs. now apply Inv_roomJoin.
  - apply Hon. intros s Hs. now apply Inv_leaveRoom.
  - apply Hon. intros s Hs. unfold audioToggle.
    destruct data as [d|]; [|exact HI].
    destruct (JsMap.get (connections st) (sock_id s)) as [c|]; [|exact HI].
    destruct (truthy (roomId c)); [|exact HI].
    apply Inv_modify_connection; [reflexivity | | assumption].
    intros ? ? Hsame. exact Hsame.
  - apply Hon. intros s Hs. now apply Inv_adminKick.
  - apply Hon. intros s Hs. unfold adminMute.
    destruct (negb (String.eqb (sock_userRole s) "admin")); [exact HI|].
    destruct data as [d|]; [|exact HI].
    destruct (lookup_socket st (md_targetSocketId d)); exact HI.
  - apply Hon. intros s Hs. unfold emergencyAlert.
    destruct data as [d|]; [|exact HI].
    destruct (JsMap.get (connections st) (sock_id s)) as [c|]; [|exact HI].
    destruct (truthy (roomId c)); [|exact HI].
    now apply Inv_set_redis.
  - apply Hon. intros s Hs. unfold ping.
    destruct (JsMap.get (connections st) (sock_id s)) as [c|]; [|exact HI].
    apply Inv_modify_connection; [reflexivity | | assumption].
    intros ? ? Hsame. exact Hsame.
  - unfold on_socket.
    destruct (JsMap.get (sockets st) sid) as [s|] eqn:Hs; [|exact HI].
    pose proof (inv_sock_id st HI sid s Hs) as Hid. subst sid.
    now apply Inv_onDisconnect.
  - now apply Inv_cleanup.
Qed.

Lemma settled_Inv st : settled st -> Inv st.
Proof.
  induction 1 as [|st now op Hr IH Hen].
  - apply Inv_init.
  - now apply Inv_run.
Qed.

Lemma exec_settled script :
  forall st st', settled st -> exec script st = Some st' -> settled st'.
Proof.
  induction script as [|[now op] script IH]; intros st st' Hr He.
  - simpl in He. now injection He as <-.
  - simpl in He. destruct (enabled op st) eqn:Hen; [|discriminate].
    apply (IH (fst (run now op st))); [|assumption].
    now apply settled_step.
Qed.

(** A registered session has its connected socket, under its own id and
    with its own identity. *)
Lemma session_socket st sid c :
  Inv st -> JsMap.get (connections st) sid = Some c ->
  exists s, JsMap.get (sockets st) sid = Some s /\ sock_id s = sid /\
            same_identity c s.
Proof.
  intros HI Hc. destruct (JsMap.get (sockets st) sid) as [s|] eqn:Hs.
  - exists s. split; [reflexivity|]. split.
    + now apply (inv_sock_id st HI).
    + now apply (inv_identity st HI sid).
  - apply (inv_live st HI) in Hs. congruence.
Qed.

(** ** The rooms of a socket *)

Lemma Inv3_init : Inv3 init.
Proof.
  constructor; simpl.
  - constructor.
  - intros m room [rs [H _]]. discriminate.
Qed.

Lemma Inv3_set_redis st r : Inv3 st -> Inv3 (set_redis st r).
Proof. intros [H1 H2]. constructor; assumption. Qed.

Lemma Inv3_modify_connection st sid f :
  (forall c, roomId (f c) = roomId c) ->
  Inv3 st ->
  Inv3 (set_connections st (JsMap.modify (connections st) sid f)).
Proof.
  intros Hf [H1 H2]. constructor; simpl; [assumption|].
  intros m room Hsub. destruct (H2 m room Hsub) as [->|[c [Hc Hroom]]];
    [now left|]. right. rewrite get_modify.
  destruct (String.eqb sid m); rewrite Hc; simpl; eauto.
  exists (f c). split; [reflexivity|]. now rewrite Hf.
Qed.

Lemma truthy_roomId c room : truthy (roomId c) = Some room -> roomId c = Some room.
Proof. intros H. now apply truthy_Some in H. Qed.

Lemma Inv3_leaveRoom st socket now :
  Inv3 st -> Inv3 (fst (leaveRoom socket now st)).
Proof.
  intros HI.
  destruct (JsMap.get (connections st) (sock_id socket)) as [c|] eqn:Hc.
  2:{ rewrite leaveRoom_out; [assumption|]. intros c Hc'. congruence. }
  destruct (truthy (roomId c)) as [old|] eqn:Ht.
  2:{ rewrite leaveRoom_out; [assumption|]. intros c' Hc'. congruence. }
  rewrite (leaveRoom_in st socket now c old Hc Ht).
  destruct HI as [H1 H2]. constructor; simpl.
  - now rewrite keys_modify.
  - intros m room [rs [Hrs Hin]]. simpl in Hrs.
    apply get_modify_Some in Hrs.
    destruct Hrs as [[-> [v [Hv ->]]]|[Hne Hrs]].
    + apply In_set_delete in Hin. destruct Hin as [Hin Hneq].
      destruct (H2 (sock_id socket) room) as [->|[c' [Hc' Hroom]]];
        [now exists v | now left |].
      apply truthy_roomId in Ht. congruence.
    + destruct (H2 m room) as [->|[c' [Hc' Hroom]]];
        [now exists rs | now left |].
      right. exists c'. split; [|assumption].
      rewrite get_modify. apply not_eq_sym, String.eqb_neq in Hne.
      now rewrite Hne.
Qed.

Lemma Inv3_joined st socket room c :
  JsMap.get (connections st) (sock_id socket) = Some c ->
  roomId c = None ->
  Inv3 st -> Inv3 (joined socket room st).
Proof.
  intros Hc Hnone [H1 H2]. constructor; simpl.
  - now rewrite keys_modify.
  - intros m r [rs [Hrs Hin]]. simpl in Hrs.
    apply get_modify_Some in Hrs.
    destruct Hrs as [[-> [v [Hv ->]]]|[Hne Hrs]].
    + rewrite get_modify, String.eqb_refl, Hc. simpl.
      apply In_set_add in Hin. destruct Hin as [Hin| ->].
      * destruct (H2 (sock_id socket) r) as [->|[c' [Hc' Hroom]]];
          [now exists v | now left | congruence].
      * right. eauto.
    + destruct (H2 m r) as [->|[c' [Hc' Hroom]]];
        [now exists rs | now left |].
      right. exists c'. split; [|assumption].
      rewrite get_modify. apply not_eq_sym, String.eqb_neq in Hne.
      now rewrite Hne.
Qed.

Lemma Inv3_roomJoin st socket data now :
  Inv st -> Inv3 st -> Inv3 (fst (roomJoin socket data now st)).
Proof.
  intros HI H3. destruct data as [d|]; [|exact H3].
  destruct (truthy (jd_roomId d)) as [room|] eqn:Ht.
  2:{ unfold roomJoin. now rewrite Ht. }
  destruct (JsMap.get (connections st) (sock_id socket)) as [c|] eqn:Hc.
  2:{ unfold roomJoin. now rewrite Ht, Hc. }
  rewrite (roomJoin_state st socket d room c now Ht Hc).
  destruct (truthy (roomId c)) as [old|] eqn:Hold.
  - apply (Inv3_joined _ socket room (with_roomId None c)).
    + rewrite (leaveRoom_in st socket now c old Hc Hold). simpl.
      now rewrite get_modify, String.eqb_refl, Hc.
    + reflexivity.
    + now apply Inv3_leaveRoom.
  - apply (Inv3_joined _ socket room c); [assumption| |assumption].
    rewrite (inv_truthy_eq st _ c HI Hc) in Hold. exact Hold.
Qed.

Lemma Inv3_connect st socket now :
  Inv3 st -> Inv3 (fst (onConnection socket now (socket_open socket st))).
Proof.
  intros [H1 H2]. constructor; simpl.
  - now apply nodup_keys_set.
  - intros m room [rs [Hrs Hin]]. simpl in Hrs. rewrite get_set in Hrs.
    rewrite get_set.
    destruct (String.eqb_spec (sock_id socket) m) as [<-|Hne].
    + injection Hrs as <-. destruct Hin as [<-|[]]. now left.
    + apply H2. now exists rs.
Qed.

Lemma Inv3_onDisconnect st s now :
  Inv3 st ->
  Inv3 (fst (onDisconnect s now (socket_close (sock_id s) st))).
Proof.
  intros [H1 H2].
  assert (Had : forall m rs,
            JsMap.get
              (adapter (fst (onDisconnect s now
                               (socket_close (sock_id s) st)))) m = Some rs ->
            m <> sock_id s /\ JsMap.get (adapter st) m = Some rs).
  { intros m rs. unfold onDisconnect, disconnect_sync, leaveRoom_sync.
    destruct (JsMap.get (connections (socket_close (sock_id s) st))
                (sock_id s)) as [c|];
      [destruct (truthy (roomId c))|];
      rewrite disconnect_resume_state; simpl;
      rewrite ?get_modify, get_delete;
      destruct (String.eqb_spec (sock_id s) m) as [<-|Hne];
      simpl; try discriminate; intros H; split; congruence. }
  constructor.
  - unfold onDisconnect, disconnect_sync, leaveRoom_sync.
    destruct (JsMap.get (connections (socket_close (sock_id s) st))
                (sock_id s)) as [c|];
      [destruct (truthy (roomId c))|];
      rewrite disconnect_resume_state; simpl;
      rewrite ?keys_modify; now apply nodup_keys_delete.
  - intros m room [rs [Hrs Hin]]. apply Had in Hrs.
    destruct Hrs as [Hne Hrs].
    destruct (H2 m room) as [->|[c [Hc Hroom]]];
      [now exists rs | now left |].
    right. exists c. split; [|assumption].
    rewrite connections_onDisconnect. simpl. rewrite get_delete.
    apply not_eq_sym, String.eqb_neq in Hne. now rewrite Hne.
Qed.

Lemma Inv3_adminKick st socket data now :
  Inv3 st -> Inv3 (fst (adminKick socket data now st)).
Proof.
  intros HI. unfold adminKick.
  destruct (negb (String.eqb (sock_userRole socket) "admin")); [exact HI|].
  destruct data as [d|]; [|exact HI].
  destruct (lookup_socket st (kd_targetSocketId d)) as [ts|]; [|exact HI].
  pose proof (Inv3_leaveRoom st ts now HI) as H1.
  destruct (leaveRoom ts now st) as [st1 out1]. simpl in *.
  unfold forceDisconnect.
  pose proof (Inv3_onDisconnect st1 ts now H1) as H2.
  destruct (onDisconnect ts now (socket_close (sock_id ts) st1)). exact H2.
Qed.

Lemma Inv3_disconnectAll now sids :
  forall st, Inv st -> Inv3 st -> Inv3 (disconnectAll now sids st).
Proof.
  induction sids as [|sid sids IH]; intros st HI H3; [exact H3|].
  unfold disconnectAll in *. cbn [fold_left]. apply IH.
  - now apply (Inv_run now (OpDisconnect sid) st).
  - simpl. unfold on_socket.
    destruct (JsMap.get (sockets st) sid) as [s|] eqn:Hs; [|exact H3].
    rewrite <- (inv_sock_id st HI sid s Hs). now apply Inv3_onDisconnect.
Qed.

Lemma Inv3_run now op st :
  Inv st -> Inv3 st -> Inv3 (fst (run now op st)).
Proof.
  intros HI H3.
  assert (Hon : forall sid h,
            (forall s, Inv3 (fst (h s st))) -> Inv3 (fst (on_socket sid h st))).
  { intros sid h Hh. unfold on_socket.
    destruct (JsMap.get (sockets st) sid) as [s|]; [apply Hh | exact H3]. }
  destruct op; simpl.
  - now apply Inv3_connect.
  - apply Hon. intros s. now apply Inv3_roomJoin.
  - apply Hon. intros s. now apply Inv3_leaveRoom.
  - apply Hon. intros s. unfold audioToggle.
    destruct data as [d|]; [|exact H3].
    destruct (JsMap.get (connections st) (sock_id s)) as [c|]; [|exact H3].
    destruct (truthy (roomId c)); [|exact H3].
    now apply Inv3_modify_connection.
  - apply Hon. intros s. now apply Inv3_adminKick.
  - apply Hon. intros s. unfold adminMute.
    destruct (negb (String.eqb (sock_userRole s) "admin")); [exact H3|].
    destruct data as [d|]; [|exact H3].
    destruct (lookup_socket st (md_targetSocketId d)); exact H3.
  - apply Hon. intros s. unfold emergencyAlert.
    destruct data as [d|]; [|exact H3].
    destruct (JsMap.get (connections st) (sock_id s)) as [c|]; [|exact H3].
    destruct (truthy (roomId c)); [|exact H3].
    now apply Inv3_set_redis.
  - apply Hon. intros s. unfold ping.
    destruct (JsMap.get (connections st) (sock_id s)) as [c|]; [|exact H3].
    now apply Inv3_modify_connection.
  - unfold on_socket.
    destruct (JsMap.get (sockets st) sid) as [s|] eqn:Hs; [|exact H3].
    rewrite <- (inv_sock_id st HI sid s Hs). now apply Inv3_onDisconnect.
  - rewrite (cleanup_disconnectAll now st HI). now apply Inv3_disconnectAll.
Qed.

Lemma settled_Inv3 st : settled st -> Inv3 st.
Proof.
  induction 1 as [|st now op Hr IH Hen].
  - apply Inv3_init.
  - apply Inv3_run; [now apply settled_Inv | assumption].
Qed.

(** ** Audiences *)

Lemma get_In V (m : JsMap.t V) k v : JsMap.get m k = Some v -> In (k, v) m.
Proof.
  induction m as [|[k0 v0] m IH]; simpl; [discriminate|].
  destruct (String.eqb_spec k0 k) as [->|_].
  - intros [= ->]. now left.
  - intros H. right. now apply IH.
Qed.

Lemma In_get V (m : JsMap.t V) k v :
  NoDup (JsMap.keys m) -> In (k, v) m -> JsMap.get m k = Some v.
Proof.
  induction m as [|[k0 v0] m IH]; simpl; intros Hnd Hin; [destruct Hin|].
  inversion Hnd as [|? ? Hnotin Hnd']; subst.
  destruct Hin as [[= -> ->]|Hin].
  - now rewrite String.eqb_refl.
  - destruct (String.eqb_spec k0 k) as [->|_]; [|now apply IH].
    exfalso. apply Hnotin. now apply (in_entries_keys _ m k v).
Qed.

Lemma In_in_room st room x :
  In x (in_room st room) <->
  exists rs, In (x, rs) (adapter st) /\ In room rs.
Proof.
  unfold in_room. rewrite in_map_iff. split.
  - intros [[k rs] [<- Hin]]. apply filter_In in Hin. simpl in *.
    destruct Hin as [Hin Hhas]. apply set_has_In in Hhas. eauto.
  - intros [rs [Hin Hroom]]. exists (x, rs). split; [reflexivity|].
    apply filter_In. split; [assumption|]. now apply set_has_In.
Qed.

Lemma get_in_room st room x rs :
  JsMap.get (adapter st) x = Some rs -> In room rs -> In x (in_room st room).
Proof.
  intros Hget Hin. apply In_in_room. exists rs. split; [|assumption].
  now apply get_In.
Qed.

Lemma In_in_room_except st room sid x :
  In x (in_room_except st room sid) <-> In x (in_room st room) /\ x <> sid.
Proof.
  unfold in_room_except. rewrite filter_In, negb_true_iff, String.eqb_neq.
  tauto.
Qed.

Lemma has_delete_same (s : JsSet.t) x : JsSet.has (JsSet.delete s x) x = false.
Proof.
  destruct (JsSet.has (JsSet.delete s x) x) eqn:E; [|reflexivity].
  apply set_has_In, In_set_delete in E. tauto.
Qed.

(** Once a socket has left the room, [io.to(room)] reaches the other
    sockets of the room. *)
Lemma in_room_socket_leave st sid room :
  in_room (socket_leave sid room st) room = in_room_except st room sid.
Proof.
  unfold in_room_except, in_room, socket_leave. simpl.
  induction (adapter st) as [|[k rs] l IH]; simpl; [reflexivity|].
  destruct (String.eqb k sid) eqn:E; simpl.
  - rewrite has_delete_same.
    destruct (JsSet.has rs room); simpl; rewrite ?E; simpl; exact IH.
  - destruct (JsSet.has rs room); simpl; rewrite ?E; simpl; now rewrite IH.
Qed.

(** Under the invariant, the members of a room are among the sockets
    [io.to(room)] reaches. *)
Lemma members_in_room st room x :
  Inv st -> member (rooms st) x room -> In x (in_room st room).
Proof.
  intros HI Hm. apply (inv_agree st HI) in Hm. destruct Hm as [c [Hc Hr]].
  destruct (inv_adapter st HI x c room Hc Hr) as [rs [Hrs Hin]].
  now apply (get_in_room st room x rs).
Qed.

(** [socket.to(room)]: who is reached. *)
Lemma In_socket_to st room sid m :
  NoDup (JsMap.keys (adapter st)) ->
  In m (socket_to st room sid) <->
  subscribed st m room /\ ~ subscribed st m sid.
Proof.
  intros Hnd. unfold socket_to, subscribed. rewrite in_map_iff. split.
  - intros [[k rs] [<- Hin]]. apply filter_In in Hin. simpl in *.
    destruct Hin as [Hin Hb]. apply andb_true_iff in Hb.
    destruct Hb as [Hroom Hsid]. apply set_has_In in Hroom.
    apply negb_true_iff in Hsid. apply (In_get _ _ _ _ Hnd) in Hin.
    split; [eauto|]. intros [rs' [Hrs' Hin']].
    assert (rs' = rs) by congruence. subst rs'.
    apply set_has_In in Hin'. congruence.
  - intros [[rs [Hrs Hin]] Hnot]. exists (m, rs). split; [reflexivity|].
    apply filter_In. split; [now apply get_In|]. simpl.
    apply andb_true_iff. split; [now apply set_has_In|].
    apply negb_true_iff. destruct (JsSet.has rs sid) eqn:E; [|reflexivity].
    exfalso. apply Hnot. exists rs. split; [assumption|].
    now apply set_has_In.
Qed.

(** A room named by the sender's own id: [socket.to] reaches no one. *)
Lemma socket_to_own st sid : socket_to st sid sid = [].
Proof.
  unfold socket_to. induction (adapter st) as [|[k rs] l IH]; simpl;
    [reflexivity|].
  now destruct (JsSet.has rs sid).
Qed.

(** The members of a room other than the sender are reached by the
    sender's [socket.to(room)], unless the room is named by the sender's
    own id. *)
Lemma members_told st room sid m :
  Inv st -> Inv3 st -> room <> sid ->
  member (rooms st) m room -> m <> sid ->
  In m (socket_to st room sid).
Proof.
  intros HI H3 Hroom Hm Hne.
  apply (In_socket_to st room sid m (inv3_adapter_keys st H3)).
  apply (inv_agree st HI) in Hm. destruct Hm as [c [Hc Hr]]. split.
  - exact (inv_adapter st HI m c room Hc Hr).
  - intros Hsub. destruct (inv3_only st H3 m sid Hsub) as [->|[c' [Hc' Hr']]];
      [now apply Hne | congruence].
Qed.

Lemma In_in_room_except_subscribed st room sid m :
  NoDup (JsMap.keys (adapter st)) ->
  In m (in_room_except st room sid) <-> m <> sid /\ subscribed st m room.
Proof.
  intros Hnd. rewrite In_in_room_except, In_in_room. unfold subscribed.
  split.
  - intros [[rs [Hin Hroom]] Hne]. split; [assumption|]. exists rs.
    split; [|assumption]. now apply In_get.
  - intros [Hne [rs [Hrs Hroom]]]. split; [|assumption]. exists rs.
    split; [|assumption]. now apply get_In.
Qed.

(** ** Counting sessions *)

Lemma nodup_keys_filter V (m : JsMap.t V) (keep : string * V -> bool) :
  NoDup (JsMap.keys m) -> NoDup (JsMap.keys (filter keep m)).
Proof.
  unfold JsMap.keys. intros Hnd.
  induction m as [|[k v] m IH]; simpl; [constructor|].
  inversion Hnd as [|? ? Hfresh Hnd']; subst.
  destruct (keep (k, v)); simpl; [|now apply IH].
  constructor; [|now apply IH].
  rewrite in_map_iff. intros [[k' v'] [Hk Hin]]. simpl in Hk. subst k'.
  apply filter_In in Hin. apply Hfresh.
  now apply (in_entries_keys _ m k v').
Qed.

Lemma Inv_registry_index_agree st : Inv st -> registry_index_agree st.
Proof.
  intros HI. split.
  - intros sid c Hc room. rewrite (inv_agree st HI). split.
    + intros Hr. eauto.
    + intros [c' [Hc' Hr]]. congruence.
  - intros room s Hs. unfold JsSet.size, sessions_in.
    rewrite <- (length_map fst
      (filter (fun e : string * Connection =>
                 match roomId (snd e) with
                 | Some r => String.eqb r room
                 | None => false
                 end) (connections st))).
    apply Permutation_length. apply NoDup_Permutation.
    + apply (inv_rooms_ok st HI room s Hs).
    + apply nodup_keys_filter. apply (inv_keys st HI).
    + intros x. rewrite in_map_iff. split.
      * intros Hin.
        destruct (proj1 (inv_agree st HI x room)) as [c [Hc Hr]];
          [now apply (member_get _ x room s)|].
        exists (x, c). split; [reflexivity|]. apply filter_In.
        split; [now apply get_In|]. simpl. rewrite Hr.
        apply String.eqb_refl.
      * intros [[k c] [<- Hin]]. apply filter_In in Hin. simpl in *.
        destruct Hin as [Hin Hp].
        destruct (roomId c) as [r|] eqn:Hr; [|discriminate].
        apply String.eqb_eq in Hp. subst r.
        apply (In_get _ _ _ _ (inv_keys st HI)) in Hin.
        destruct (proj2 (inv_agree st HI k room)) as [s' [Hs' Hin']];
          [eauto|]. congruence.
Qed.

(** ** Schedules *)

Lemma play_reachable schedule :
  forall cfg cfg' out,
    reachable cfg -> play schedule cfg = Some (cfg', out) -> reachable cfg'.
Proof.
  induction schedule as [|[now a] schedule IH]; intros cfg cfg' out Hr Hp.
  - simpl in Hp. now injection Hp as <- _.
  - simpl in Hp. destruct (allowed a cfg) eqn:Hal; [|discriminate].
    pose proof (reachable_step cfg now a Hr Hal) as Hr1.
    destruct (step now a cfg) as [cfg1 out1]. simpl in Hr1.
    destruct (play schedule cfg1) as [[cfg2 out2]|] eqn:Hp2; [|discriminate].
    injection Hp as <- _. exact (IH cfg1 cfg2 out2 Hr1 Hp2).
Qed.

Lemma alpha_config_reachable : reachable alpha_config.
Proof.
  apply (play_reachable alpha_schedule (mkConfig init [] [])
           alpha_config
           (snd (match play alpha_schedule (mkConfig init [] []) with
                 | Some r => r
                 | None => (alpha_config, [])
                 end))).
  - apply reachable_init.
  - vm_compute. reflexivity.
Qed.

(** ** The scenarios of the spec, run *)

(** Scenario A: X (admin) and Y join "alpha"; X is told that Y joined and
    Y's [room:joined] lists both. *)
Example scenario_A :
  let pX := mkParticipant "u1" "X" "admin" "x" false in
  let pY := mkParticipant "u2" "Y" "member" "y" false in
  trace scenario init =
  [Emit ["x"] (EvRoomJoined "alpha" [pX] 2);
   Emit [] (EvParticipantJoined "u1" "X" "x" 2);
   Emit ["x"] (EvRoomState "alpha" [pX] 1 2);
   Emit ["y"] (EvRoomJoined "alpha" [pX; pY] 3);
   Emit ["x"] (EvParticipantJoined "u2" "Y" "y" 3);
   Emit ["y"] (EvRoomState "alpha" [pX; pY] 2 3)].
Proof. vm_compute. reflexivity. Qed.

(** Scenario D: once X and Y are both stale, one sweep terminates both and
    empties the registry, the room index and the multiplicity tracker; the
    [participant:left] of each is emitted when its listener resumes, after
    both sockets have left the room, and reaches no one. *)
Example scenario_D :
  let r := run 300002 OpCleanup alpha_state in
  connections (fst r) = [] /\ rooms (fst r) = [] /\
  userSockets (fst r) = [] /\ sockets (fst r) = [] /\
  snd r =
  [Terminate "x"; Terminate "y";
   Emit [] (EvParticipantLeft "u1" "X" 300002);
   Emit [] (EvParticipantLeft "u2" "Y" 300002)].
Proof. vm_compute. repeat split; reflexivity. Qed.

(** Scenario D with one stale session: X has sent a heartbeat, Y has not;
    the sweep terminates Y alone and room "alpha" shrinks to X, who is told
    that Y left. *)
Example scenario_D_one_stale :
  let r := run 300002 OpCleanup pinged_state in
  JsMap.keys (connections (fst r)) = ["x"] /\
  rooms (fst r) = [("alpha", ["x"])] /\
  userSockets (fst r) = [("u1", ["x"])] /\
  snd r = [Terminate "y"; Emit ["x"] (EvParticipantLeft "u2" "Y" 300002)].
Proof. vm_compute. repeat split; reflexivity. Qed.

(** ** C1 *)

(** When every handler has run to its end before the next event arrives,
    a session's room identifier is [room] exactly when its connection id
    is in the membership set of [room], and the size of every membership
    set is the number of sessions whose room identifier is that room. *)
Lemma settled_registry_index_agree st :
  settled st -> registry_index_agree st.
Proof.
  intros Hr. apply Inv_registry_index_agree. now apply settled_Inv.
Qed.

Lemma alpha_state_exec : exec scenario init = Some alpha_state.
Proof. vm_compute. reflexivity. Qed.

Lemma alpha_state_settled : settled alpha_state.
Proof.
  apply (exec_settled scenario init);
    [apply settled_init | apply alpha_state_exec].
Qed.

(** C1. The registry and the room index do not agree in every state the
    program reaches.  X and Y are in "alpha", where they agree.  Y sends
    [room:join] for "beta" and at once [room:join] for "gamma".  The first
    handler is suspended in [leaveRoom] at the [await] of line 377; the
    session's room identifier is set to null only at line 387, so the second
    handler still finds "alpha" at line 84 and calls [leaveRoom] too.  When
    both have run to their end and nothing is suspended any more, Y's
    connection id is in the membership sets of "beta" and of "gamma", the
    session's room identifier is "gamma", and no session has the room
    identifier "beta", whose set has size one. *)
Theorem overlapping_joins_break_agreement :
  reachable alpha_config
  /\ registry_index_agree alpha_state
  /\ exists st out,
       play overlapping_joins alpha_config = Some (mkConfig st [] [], out)
       /\ reachable (mkConfig st [] [])
       /\ JsMap.get (rooms st) "beta" = Some ["y"]
       /\ JsMap.get (rooms st) "gamma" = Some ["y"]
       /\ (exists c, JsMap.get (connections st) "y" = Some c /\
                     roomId c = Some "gamma")
       /\ sessions_in "beta" (connections st) = 0
       /\ ~ registry_index_agree st.
Proof.
  split; [exact alpha_config_reachable|].
  split; [apply settled_registry_index_agree, alpha_state_settled|].
  destruct (play overlapping_joins alpha_config) as [[[st ts d] out]|] eqn:Hp;
    [|vm_compute in Hp; discriminate].
  assert (Hts : ts = []) by (vm_compute in Hp; now injection Hp as _ <- _ _).
  assert (Hd : d = []) by (vm_compute in Hp; now injection Hp as _ _ <- _).
  subst ts d. exists st, out. split; [reflexivity|].
  split; [exact (play_reachable _ _ _ _ alpha_config_reachable Hp)|].
  assert (Hrooms : rooms st =
            [("alpha", ["x"]); ("beta", ["y"]); ("gamma", ["y"])])
    by (vm_compute in Hp; now injection Hp as <- _).
  assert (Hy : JsMap.get (connections st) "y" =
            Some (mkConnection "u2" "Y" "member" 1 (Some "gamma") true
                    None None))
    by (vm_compute in Hp; now injection Hp as <- _).
  assert (Hn : sessions_in "beta" (connections st) = 0)
    by (vm_compute in Hp; now injection Hp as <- _).
  rewrite Hrooms. split; [reflexivity|]. split; [reflexivity|].
  split; [eauto|]. split; [exact Hn|].
  intros [_ Hsize].
  specialize (Hsize "beta" ["y"]). rewrite Hrooms, Hn in Hsize.
  specialize (Hsize eq_refl). discriminate.
Qed.

(** ** C2 *)

(** C2. A session whose role is not ['admin'] that sends [admin:kick] or
    [admin:mute], whatever the payload, gets an [Unauthorized] error and
    nothing else happens: the whole state (registry, room index,
    multiplicity tracker and the rest) is unchanged and the error is the
    only output, delivered to the caller alone. *)
Theorem non_admin_moderation_rejected st sid c kick mute now :
  settled st ->
  JsMap.get (connections st) sid = Some c ->
  userRole c <> "admin" ->
  run now (OpAdminKick sid kick) st =
    (st, [Emit [sid] (EvError "Unauthorized")]) /\
  run now (OpAdminMute sid mute) st =
    (st, [Emit [sid] (EvError "Unauthorized")]).
Proof.
  intros Hr Hc Hrole. apply settled_Inv in Hr.
  destruct (session_socket st sid c Hr Hc) as [s [Hs [Hid [_ [_ Hsame]]]]].
  assert (Hno : negb (String.eqb (sock_userRole s) "admin") = true).
  { apply negb_true_iff, String.eqb_neq. congruence. }
  simpl. unfold on_socket, adminKick, adminMute.
  rewrite Hs, Hno, Hid. now split.
Qed.

Lemma non_admin_moderation_rejected_witness :
  run 7 (OpAdminKick "y" (Some (mkKickData (Some "x") (Some "spite"))))
    alpha_state =
    (alpha_state, [Emit ["y"] (EvError "Unauthorized")]) /\
  run 7 (OpAdminMute "y" (Some (mkMuteData (Some "x")))) alpha_state =
    (alpha_state, [Emit ["y"] (EvError "Unauthorized")]).
Proof.
  apply (non_admin_moderation_rejected alpha_state "y"
           (mkConnection "u2" "Y" "member" 1 (Some "alpha") true None None)).
  - apply (exec_settled scenario init);
      [apply settled_init | vm_compute; reflexivity].
  - vm_compute. reflexivity.
  - vm_compute. discriminate.
Defined.

(** ** C3 *)

Lemma spec_stale_isStale now c :
  (now - specLastActivity c > STALE_THRESHOLD)%Z -> isStale now c = true.
Proof.
  unfold specLastActivity, isStale, lastActivity. intros H.
  apply Z.gtb_lt. destruct (lastPing c); lia.
Qed.

Lemma stale_in_staleIds now st sid c :
  JsMap.get (connections st) sid = Some c -> isStale now c = true ->
  In sid (staleIds now st).
Proof.
  intros Hc Hst. unfold staleIds. apply in_map_iff. exists (sid, c).
  split; [reflexivity|]. apply filter_In. split; [now apply get_In|].
  exact Hst.
Qed.

Lemma has_false_not_In (s : JsSet.t) x : JsSet.has s x = false <-> ~ In x s.
Proof.
  rewrite <- set_has_In. destruct (JsSet.has s x); split; congruence.
Qed.

Lemma rooms_cleanup now st x room :
  Inv st ->
  member (rooms (fst (cleanupStaleConnections now st))) x room <->
  member (rooms st) x room /\ ~ In x (staleIds now st).
Proof.
  intros HI. pose proof (Inv_cleanup now st HI) as HI'.
  rewrite (inv_agree _ HI'), (inv_agree _ HI). split.
  - intros [c [Hc Hr]]. rewrite (connections_cleanup now st x HI) in Hc.
    destruct (JsSet.has (staleIds now st) x) eqn:E; [discriminate|].
    apply has_false_not_In in E. eauto.
  - intros [[c [Hc Hr]] Hns]. exists c. split; [|assumption].
    rewrite (connections_cleanup now st x HI).
    apply has_false_not_In in Hns. now rewrite Hns.
Qed.

(** C3. For a registered session whose time since the later of its last
    heartbeat and its connection exceeds the five-minute threshold, one
    sweep does what voluntary disconnects do: the state after the sweep is
    the state after disconnecting the stale sessions one by one; the session
    is gone from the registry and from every multiplicity set; the room
    index keeps exactly the members that are not stale, so the session's
    room loses it, the room entry is removed when it was the sole member,
    and the set is one smaller when it was the only stale member. *)
Theorem stale_session_reaped st now sid c :
  settled st ->
  JsMap.get (connections st) sid = Some c ->
  (now - specLastActivity c > STALE_THRESHOLD)%Z ->
  let st' := fst (cleanupStaleConnections now st) in
  st' = disconnectAll now (staleIds now st) st
  /\ In sid (staleIds now st)
  /\ JsMap.get (connections st') sid = None
  /\ (forall uid, ~ member (userSockets st') sid uid)
  /\ (forall x room,
        member (rooms st') x room <->
        member (rooms st) x room /\ ~ In x (staleIds now st))
  /\ (forall room,
        JsMap.get (rooms st) room = Some [sid] ->
        JsMap.get (rooms st') room = None)
  /\ (forall room s s',
        JsMap.get (rooms st) room = Some s -> In sid s ->
        (forall x, In x s -> x <> sid -> ~ In x (staleIds now st)) ->
        JsMap.get (rooms st') room = Some s' ->
        S (JsSet.size s') = JsSet.size s).
Proof.
  intros Hr Hc Hspec st'. apply settled_Inv in Hr.
  pose proof (Inv_cleanup now st Hr) as HI'. fold st' in HI'.
  pose proof (spec_stale_isStale now c Hspec) as Hst.
  pose proof (stale_in_staleIds now st sid c Hc Hst) as Hin.
  assert (Hgone : JsMap.get (connections st') sid = None).
  { unfold st'. rewrite (connections_cleanup now st sid Hr).
    apply set_has_In in Hin. now rewrite Hin. }
  assert (Hrooms : forall x room,
             member (rooms st') x room <->
             member (rooms st) x room /\ ~ In x (staleIds now st))
    by (intros x room; now apply rooms_cleanup).
  split; [now apply cleanup_disconnectAll|].
  split; [assumption|]. split; [assumption|]. split; [|split; [|split]].
  - intros uid Hm. destruct (inv_user st' HI' sid uid Hm) as [s [Hs _]].
    apply (inv_live st' HI') in Hgone. congruence.
  - assumption.
  - intros room Hsole.
    destruct (JsMap.get (rooms st') room) as [s'|] eqn:Hs'; [|reflexivity].
    exfalso. destruct (inv_rooms_ok st' HI' room s' Hs') as [_ Hne].
    destruct s' as [|x s']; [congruence|].
    assert (Hm : member (rooms st') x room)
      by (apply (member_get _ x room (x :: s')); [assumption | now left]).
    apply Hrooms in Hm. destruct Hm as [[s0 [Hs0 Hx]] Hns].
    rewrite Hsole in Hs0. injection Hs0 as <-.
    destruct Hx as [<-|[]]. contradiction.
  - intros room s s' Hs Hsid Hothers Hs'. unfold JsSet.size.
    change (S (List.length s')) with (List.length (sid :: s')).
    apply Permutation_length. apply NoDup_Permutation.
    + constructor; [|apply (inv_rooms_ok st' HI' room s' Hs')].
      intros Hin'.
      assert (Hm : member (rooms st') sid room)
        by now apply (member_get _ sid room s').
      apply Hrooms in Hm. tauto.
    + apply (inv_rooms_ok st Hr room s Hs).
    + intros x. simpl. split.
      * intros [<-|Hx]; [assumption|].
        assert (Hm : member (rooms st') x room)
          by now apply (member_get _ x room s').
        apply Hrooms in Hm. destruct Hm as [[s0 [Hs0 Hx0]] _]. congruence.
      * intros Hx. destruct (string_dec sid x) as [->|Hne]; [now left|].
        right.
        assert (Hm : member (rooms st') x room).
        { apply Hrooms. split; [now apply (member_get _ x room s)|].
          apply Hothers; [assumption | congruence]. }
        destruct Hm as [s0 [Hs0 Hx0]]. congruence.
Qed.

Lemma stale_session_reaped_witness :
  let st' := fst (cleanupStaleConnections 300002 pinged_state) in
  st' = disconnectAll 300002 (staleIds 300002 pinged_state) pinged_state
  /\ In "y" (staleIds 300002 pinged_state)
  /\ JsMap.get (connections st') "y" = None
  /\ (forall uid, ~ member (userSockets st') "y" uid)
  /\ (forall x room,
        member (rooms st') x room <->
        member (rooms pinged_state) x room /\
        ~ In x (staleIds 300002 pinged_state))
  /\ (forall room,
        JsMap.get (rooms pinged_state) room = Some ["y"] ->
        JsMap.get (rooms st') room = None)
  /\ (forall room s s',
        JsMap.get (rooms pinged_state) room = Some s -> In "y" s ->
        (forall x, In x s -> x <> "y" ->
                   ~ In x (staleIds 300002 pinged_state)) ->
        JsMap.get (rooms st') room = Some s' ->
        S (JsSet.size s') = JsSet.size s).
Proof.
  apply (stale_session_reaped pinged_state 300002 "y"
           (mkConnection "u2" "Y" "member" 1 (Some "alpha") true None None)).
  - apply (exec_settled pinged_script init);
      [apply settled_init | vm_compute; reflexivity].
  - vm_compute. reflexivity.
  - vm_compute. reflexivity.
Defined.

(** ** C4 *)




(** ** C5 *)

(** C5, as stated, fails: a session that is in no room and raises an alert
    receives nothing at all, so in particular no error event. *)
Lemma emergency_outside_room_counterexample :
  ~ (forall st sid c data now,
       settled st ->
       JsMap.get (connections st) sid = Some c -> roomId c = None ->
       exists aud ev,
         In (Emit aud ev) (snd (run now (OpEmergencyAlert sid data) st)) /\
         In sid aud).
Proof.
  intros H.
  destruct (H lobby_state "y"
              (mkConnection "u2" "Y" "member" 0 None true None None)
              helpAlert 5%Z)
    as [aud [ev [Hin _]]].
  - apply (exec_settled lobby_script init);
      [apply settled_init | vm_compute; reflexivity].
  - vm_compute. reflexivity.
  - reflexivity.
  - vm_compute in Hin. exact Hin.
Qed.

(** C5, amended. For a session whose room identifier is null,
    [emergency:alert] is ignored silently: the state is unchanged, so no
    alert is appended to the queue, and there is no output, so neither
    [emergency:received] nor [emergency:sent] nor an error is emitted. *)
Theorem emergency_outside_room_ignored st sid c data now :
  settled st ->
  JsMap.get (connections st) sid = Some c ->
  roomId c = None ->
  run now (OpEmergencyAlert sid data) st = (st, []).
Proof.
  intros Hr Hc Hroom. apply settled_Inv in Hr. simpl. unfold on_socket.
  destruct (JsMap.get (sockets st) sid) as [s|] eqn:Hs; [|reflexivity].
  rewrite <- (inv_sock_id st Hr sid s Hs) in Hc.
  unfold emergencyAlert. destruct data as [d|]; [|reflexivity].
  now rewrite Hc, Hroom.
Qed.

Lemma emergency_outside_room_ignored_witness :
  run 5 (OpEmergencyAlert "y" helpAlert) lobby_state = (lobby_state, []).
Proof.
  apply (emergency_outside_room_ignored lobby_state "y"
           (mkConnection "u2" "Y" "member" 0 None true None None)).
  - apply (exec_settled lobby_script init);
      [apply settled_init | vm_compute; reflexivity].
  - vm_compute. reflexivity.
  - reflexivity.
Defined.

(** ** C6 *)

Lemma notifyAdmins_map st room e :
  notifyAdmins st room e =
  map (fun sid => Emit (in_room st sid) (EvEmergencyReceived e))
    (adminsOf st room).
Proof.
  unfold notifyAdmins, adminsOf.
  destruct (JsMap.get (rooms st) room) as [l|]; [|reflexivity].
  induction l as [|m l IH]; simpl; [reflexivity|].
  destruct (JsMap.get (connections st) m) as [cm|]; [|exact IH].
  destruct (String.eqb (userRole cm) "admin"); simpl; now rewrite IH.
Qed.

(** What [emergency:alert] does for a session in a room: one alert is put
    at the head of the queue, one [emergency:received] is emitted per admin
    member, each to the Socket.IO room named by that member's connection
    id, and one [emergency:sent] goes to the sender, last. *)
Lemma emergency_alert_effects st sid c room d now :
  settled st ->
  JsMap.get (connections st) sid = Some c ->
  roomId c = Some room ->
  let e := mkEmergency (userId c) (userName c) (al_location d)
             (al_message d) now room in
  run now (OpEmergencyAlert sid (Some d)) st =
  (set_redis st (lPush e (redis st)),
   map (fun m => Emit (in_room st m) (EvEmergencyReceived e))
     (adminsOf st room) ++
   [Emit [sid] (EvEmergencySent "received" now)])%list.
Proof.
  intros Hr Hc Hroom e. apply settled_Inv in Hr.
  destruct (session_socket st sid c Hr Hc) as [s [Hs [Hid [Huid [Huname _]]]]].
  assert (Ht : truthy (roomId c) = Some room)
    by (rewrite (inv_truthy_eq st sid c Hr Hc); assumption).
  simpl. unfold on_socket, emergencyAlert.
  rewrite Hs, Hid, Hc, Ht, <- Huid, <- Huname.
  fold e. rewrite <- (notifyAdmins_map st room e). reflexivity.
Qed.

(** With no admin in the room, the alert is queued and acknowledged and
    nothing else is emitted. *)
Lemma emergency_alert_no_admin st sid c room d now :
  settled st ->
  JsMap.get (connections st) sid = Some c ->
  roomId c = Some room ->
  adminsOf st room = [] ->
  run now (OpEmergencyAlert sid (Some d)) st =
  (set_redis st
     (lPush
        (mkEmergency (userId c) (userName c) (al_location d) (al_message d)
           now room)
        (redis st)),
   [Emit [sid] (EvEmergencySent "received" now)]).
Proof.
  intros Hr Hc Hroom Hnone.
  rewrite (emergency_alert_effects st sid c room d now Hr Hc Hroom).
  now rewrite Hnone.
Qed.

(** When the Socket.IO room named by each admin member's connection id
    holds that socket alone, the notifications reach exactly the admin
    members. *)
Lemma emergency_alert_private_rooms st sid c room d now :
  settled st ->
  JsMap.get (connections st) sid = Some c ->
  roomId c = Some room ->
  (forall m, In m (adminsOf st room) -> in_room st m = [m]) ->
  let e := mkEmergency (userId c) (userName c) (al_location d)
             (al_message d) now room in
  snd (run now (OpEmergencyAlert sid (Some d)) st) =
  (map (fun m => Emit [m] (EvEmergencyReceived e)) (adminsOf st room) ++
   [Emit [sid] (EvEmergencySent "received" now)])%list.
Proof.
  intros Hr Hc Hroom Hpriv e.
  rewrite (emergency_alert_effects st sid c room d now Hr Hc Hroom).
  cbn [snd]. f_equal. apply map_ext_in. intros m Hm. fold e.
  now rewrite (Hpriv m Hm).
Qed.

(** C6, evaluated where it fails. X (admin) and Y are in room "alpha"; Z, a
    member, has been in "alpha" and has then sent [room:join] with X's
    connection id as the room name.  When Y raises an alert, the alert is
    queued once and Y is acknowledged once, but the [emergency:received]
    meant for X is delivered to X and to Z, although Z is not an admin and
    not in "alpha". *)
Theorem emergency_alert_reaches_outsider :
  settled leak_state
  /\ JsMap.get (rooms leak_state) "alpha" = Some ["x"; "y"]
  /\ adminsOf leak_state "alpha" = ["x"]
  /\ JsMap.get (connections leak_state) "z" =
     Some (mkConnection "u3" "Z" "member" 4 (Some "x") true None None)
  /\ run 7 (OpEmergencyAlert "y" helpAlert) leak_state =
     (set_redis leak_state (lPush helpFromY (redis leak_state)),
      [Emit ["x"; "z"] (EvEmergencyReceived helpFromY);
       Emit ["y"] (EvEmergencySent "received" 7)]).
Proof.
  split.
  - apply (exec_settled leak_script init);
      [apply settled_init | vm_compute; reflexivity].
  - repeat split; vm_compute; reflexivity.
Qed.

(** The same addressing fails the other way: an admin that has joined and
    left the room named by its own connection id is in "alpha" and is sent
    the alert, which reaches no one. *)
Example emergency_alert_misses_admin :
  settled deaf_state
  /\ adminsOf deaf_state "alpha" = ["x"]
  /\ snd (run 7 (OpEmergencyAlert "y" helpAlert) deaf_state) =
     [Emit [] (EvEmergencyReceived helpFromY);
      Emit ["y"] (EvEmergencySent "received" 7)].
Proof.
  split.
  - apply (exec_settled deaf_script init);
      [apply settled_init | vm_compute; reflexivity].
  - split; vm_compute; reflexivity.
Qed.

(** ** C7 *)

(** A registration never meets its own identifier in the registry: the
    transport hands out an identifier that no connected socket has, and the
    registry holds the connected sockets only. *)
Lemma registration_meets_no_entry st socket :
  settled st -> enabled (OpConnect socket) st = true ->
  JsMap.get (connections st) (sock_id socket) = None.
Proof.
  intros Hr Hen. apply settled_Inv in Hr. apply (inv_live st Hr).
  simpl in Hen. apply negb_true_iff in Hen. unfold JsMap.has in Hen.
  now destruct (JsMap.get (sockets st) (sock_id socket)).
Qed.

(** ** C8 *)

(** When the second [room:leave] arrives after the first handler has run
    to its end: the first emits exactly one [participant:left], to the
    sockets of the room other than the leaver, and sets the session's room
    identifier to null; the second changes nothing and emits nothing. *)
Lemma successive_leaves_idempotent st sid c room now1 now2 :
  settled st ->
  JsMap.get (connections st) sid = Some c ->
  roomId c = Some room ->
  let r1 := run now1 (OpRoomLeave sid) st in
  let r2 := run now2 (OpRoomLeave sid) (fst r1) in
  snd r1 =
    [Emit (in_room_except st room sid)
       (EvParticipantLeft (userId c) (userName c) now1)]
  /\ JsMap.get (connections (fst r1)) sid = Some (with_roomId None c)
  /\ (forall m, ~ member (rooms (fst r1)) sid m)
  /\ r2 = (fst r1, []).
Proof.
  intros Hr Hc Hroom r1 r2. apply settled_Inv in Hr.
  destruct (session_socket st sid c Hr Hc) as [s [Hs [Hid [Huid [Huname _]]]]].
  assert (Ht : truthy (roomId c) = Some room)
    by (rewrite (inv_truthy_eq st sid c Hr Hc); assumption).
  assert (H1 : r1 = leaveRoom s now1 st).
  { unfold r1. simpl. unfold on_socket, roomLeave. now rewrite Hs. }
  rewrite <- Hid in Hc.
  rewrite (leaveRoom_in st s now1 c room Hc Ht) in H1.
  rewrite in_room_socket_leave, Hid, <- Huid, <- Huname in H1.
  assert (Hc1 : JsMap.get (connections (fst r1)) sid =
                Some (with_roomId None c)).
  { rewrite H1. simpl. rewrite Hid in Hc.
    now rewrite get_modify, String.eqb_refl, Hc. }
  split; [now rewrite H1|]. split; [assumption|]. split.
  - intros m Hm. rewrite H1 in Hm. simpl in Hm.
    apply member_index_remove in Hm. destruct Hm as [Hm Hnot].
    apply Hnot. split; [reflexivity|]. apply (inv_agree st Hr) in Hm.
    destruct Hm as [c0 [Hc0 Hr0]]. rewrite Hid in Hc. congruence.
  - unfold r2. simpl. unfold on_socket, roomLeave.
    replace (sockets (fst r1)) with (sockets st) by now rewrite H1.
    rewrite Hs. rewrite leaveRoom_out; [reflexivity|].
    intros c'. rewrite Hid, Hc1. now intros [= <-].
Qed.

(** C8. Two [room:leave] in a row do not always emit one
    [participant:left].  Y, in "alpha" with X, sends [room:leave] twice;
    the second event arrives while the first handler is suspended at the
    [await] of line 377.  The guard of line 357 reads the room identifier
    that line 387 has not yet set to null, so the second call is not a
    no-op: X receives [participant:left] for Y twice.  When the second
    event arrives after the first handler has finished, X receives it
    once. *)
Theorem overlapping_leaves_emit_twice :
  reachable alpha_config
  /\ (exists st,
        play overlapping_leaves alpha_config =
        Some (mkConfig st [] [],
              [Emit ["x"] (EvParticipantLeft "u2" "Y" 12);
               Emit ["x"] (EvParticipantLeft "u2" "Y" 13)]))
  /\ (exists st,
        play successive_leaves alpha_config =
        Some (mkConfig st [] [],
              [Emit ["x"] (EvParticipantLeft "u2" "Y" 12)])).
Proof.
  split; [exact alpha_config_reachable|]. split.
  - destruct (play overlapping_leaves alpha_config)
      as [[[st ts d] out]|] eqn:Hp; [|vm_compute in Hp; discriminate].
    exists st. vm_compute in Hp. now injection Hp as _ <- <- <-.
  - destruct (play successive_leaves alpha_config)
      as [[[st ts d] out]|] eqn:Hp; [|vm_compute in Hp; discriminate].
    exists st. vm_compute in Hp. now injection Hp as _ <- <- <-.
Qed.

(** ** C9 *)



(** ** C10 *)

Lemma roomJoin_in st s d room c old now :
  truthy (jd_roomId d) = Some room ->
  JsMap.get (connections st) (sock_id s) = Some c ->
  truthy (roomId c) = Some old ->
  roomJoin s (Some d) now st =
  (let st5 := joined s room (fst (leaveRoom s now st)) in
   let participants := getRoomParticipants room st5 in
   (st5,
    snd (leaveRoom s now st) ++
    [Emit [sock_id s] (EvRoomJoined room participants now);
     Emit (socket_to st5 room (sock_id s))
       (EvParticipantJoined (sock_userId s) (sock_userName s) (sock_id s)
          now);
     Emit [sock_id s]
       (EvRoomState room participants (List.length participants) now)])%list).
Proof.
  intros Ht Hc Hold. unfold roomJoin. rewrite Ht, Hc, Hold.
  destruct (leaveRoom s now st) as [st1 out1]. reflexivity.
Qed.

Lemma with_roomId_same c room :
  roomId c = Some room -> with_roomId (Some room) (with_roomId None c) = c.
Proof. destruct c. simpl. now intros ->. Qed.

(** [room:join] for the room the session is already in, when the room is
    not named by the sender's own connection id: the session leaves the
    room, with [participant:left] to the other sockets of the room, and is
    added again, with [room:joined] to itself, [participant:joined] to the
    sockets [socket.to(room)] reaches and [room:state] to itself.  Every
    other member of the room is in both audiences; the memberships and the
    session end as they were. *)
Lemma rejoin_notifies_members st sid c room uname now :
  settled st ->
  JsMap.get (connections st) sid = Some c ->
  roomId c = Some room ->
  room <> sid ->
  let r := run now (OpRoomJoin sid (Some (mkJoinData (Some room) uname))) st in
  (exists ps,
     snd r =
       [Emit (in_room_except st room sid)
          (EvParticipantLeft (userId c) (userName c) now);
        Emit [sid] (EvRoomJoined room ps now);
        Emit (socket_to (fst r) room sid)
          (EvParticipantJoined (userId c) (userName c) sid now);
        Emit [sid] (EvRoomState room ps (List.length ps) now)])
  /\ (forall m, member (rooms st) m room -> m <> sid ->
        In m (in_room_except st room sid) /\
        In m (socket_to (fst r) room sid))
  /\ JsMap.get (connections (fst r)) sid = Some c
  /\ (forall m r', member (rooms (fst r)) m r' <-> member (rooms st) m r').
Proof.
  intros Hs0 Hc Hroom Hown r.
  assert (Hs1 : settled (fst r)) by (now apply settled_step).
  pose proof (settled_Inv st Hs0) as Hr.
  destruct (session_socket st sid c Hr Hc) as [s [Hs [Hid [Huid [Huname _]]]]].
  assert (Ht : truthy (roomId c) = Some room)
    by (rewrite (inv_truthy_eq st sid c Hr Hc); assumption).
  assert (Htd : truthy (Some room) = Some room) by now rewrite Hroom in Ht.
  rewrite <- Hid in Hc.
  assert (H1 : r = roomJoin s (Some (mkJoinData (Some room) uname)) now st).
  { unfold r. simpl. unfold on_socket. now rewrite Hs. }
  assert (Hmem : forall m r',
            member (rooms (fst r)) m r' <-> member (rooms st) m r').
  { intros m r'. rewrite H1.
    rewrite (roomJoin_in st s (mkJoinData (Some room) uname) room c room now
               Htd Hc Ht).
    rewrite (leaveRoom_in st s now c room Hc Ht). simpl. rewrite Hid.
    rewrite member_index_add, member_index_remove. split.
    - intros [[Hm _]|[-> ->]]; [assumption|].
      apply (inv_agree st Hr). rewrite Hid in Hc. eauto.
    - intros Hm. destruct (string_dec m sid) as [->|Hne].
      + destruct (string_dec r' room) as [->|Hne']; [now right|].
        left. split; [assumption | tauto].
      + left. split; [assumption | tauto]. }
  split; [|split; [|split]].
  - exists (getRoomParticipants room (fst r)). rewrite H1.
    rewrite (roomJoin_in st s (mkJoinData (Some room) uname) room c room now
               Htd Hc Ht).
    rewrite (leaveRoom_in st s now c room Hc Ht). cbn [fst snd app].
    rewrite in_room_socket_leave.
    now rewrite Hid, <- Huid, <- Huname.
  - intros m Hm Hne. split.
    + apply In_in_room_except. split; [|assumption].
      now apply members_in_room.
    + apply members_told; try assumption.
      * now apply settled_Inv.
      * now apply settled_Inv3.
      * now apply Hmem.
  - rewrite H1.
    rewrite (roomJoin_in st s (mkJoinData (Some room) uname) room c room now
               Htd Hc Ht).
    rewrite (leaveRoom_in st s now c room Hc Ht). simpl.
    rewrite Hid, !get_modify, String.eqb_refl. rewrite Hid in Hc.
    rewrite Hc. simpl. now rewrite (with_roomId_same c room Hroom).
  - exact Hmem.
Qed.

(** C10. The room named by X's connection id holds X and Y.  X sends
    [room:join] for that room again: the leave half happens as the claim
    says ([participant:left] reaches Y), X is added again, but the
    [participant:joined] that [socket.to(roomId)] sends at line 112 reaches
    no one, because Socket.IO leaves out the whole room named by the
    sender's id, and that is the room being joined.  Y, the other member,
    is told that X left and never that X is back. *)
Theorem rejoin_own_id_room_notifies_nobody :
  settled own_room_state
  /\ JsMap.get (rooms own_room_state) "x" = Some ["x"; "y"]
  /\ JsMap.get (connections own_room_state) "x" =
     Some (mkConnection "u1" "X" "admin" 0 (Some "x") true None None)
  /\ (let r := run 6 (OpRoomJoin "x" ownJoin) own_room_state in
      let ps := [mkParticipant "u2" "Y" "member" "y" false;
                 mkParticipant "u1" "X" "admin" "x" false] in
      snd r =
        [Emit ["y"] (EvParticipantLeft "u1" "X" 6);
         Emit ["x"] (EvRoomJoined "x" ps 6);
         Emit [] (EvParticipantJoined "u1" "X" "x" 6);
         Emit ["x"] (EvRoomState "x" ps 2 6)]
      /\ JsMap.get (rooms (fst r)) "x" = Some ["y"; "x"]).
Proof.
  split; [|vm_compute; repeat split; reflexivity].
  apply (exec_settled own_room_script init);
    [apply settled_init | vm_compute; reflexivity].
Qed.

(** ** The second invariant *)

Lemma nodup_keys_index_add m k x :
  NoDup (JsMap.keys m) -> NoDup (JsMap.keys (index_add m k x)).
Proof.
  intros H. unfold index_add. rewrite keys_modify.
  destruct (JsMap.has m k); [assumption | now apply nodup_keys_set].
Qed.

Lemma nodup_keys_index_remove m k x :
  NoDup (JsMap.keys m) -> NoDup (JsMap.keys (index_remove m k x)).
Proof.
  intros H. unfold index_remove.
  destruct (JsMap.has m k); [|assumption].
  destruct (JsMap.get _ k) as [s|].
  - destruct (Nat.eqb (JsSet.size s) 0).
    + apply nodup_keys_delete. now rewrite keys_modify.
    + now rewrite keys_modify.
  - now rewrite keys_modify.
Qed.

Lemma Inv2_init : Inv2 init.
Proof.
  constructor; simpl.
  - constructor.
  - constructor.
  - constructor.
  - intros room s H. discriminate.
  - intros sid c H. discriminate.
  - reflexivity.
Qed.

Lemma Inv2_set_redis st r : Inv2 st -> Inv2 (set_redis st r).
Proof. intros [H1 H2 H3 H4 H5 H6]. constructor; assumption. Qed.

Lemma Inv2_modify_connection st sid f :
  (forall c, userId (f c) = userId c) ->
  Inv2 st ->
  Inv2 (set_connections st (JsMap.modify (connections st) sid f)).
Proof.
  intros Hf [H1 H2 H3 H4 H5 H6]. constructor; simpl; try assumption.
  intros x c Hc. apply get_modify_Some in Hc.
  destruct Hc as [[-> [v [Hv ->]]]|[_ Hc]]; [|eauto].
  rewrite Hf. eauto.
Qed.

Lemma Inv2_leaveRoom st socket now :
  Inv2 st -> Inv2 (fst (leaveRoom socket now st)).
Proof.
  intros HI.
  destruct (JsMap.get (connections st) (sock_id socket)) as [c|] eqn:Hc.
  2:{ rewrite leaveRoom_out; [assumption|]. intros c Hc'. congruence. }
  destruct (truthy (roomId c)) as [room|] eqn:Ht.
  2:{ rewrite leaveRoom_out; [assumption|]. intros c' Hc'. congruence. }
  rewrite (leaveRoom_in st socket now c room Hc Ht).
  destruct HI as [H1 H2 H3 H4 H5 H6]. constructor; simpl; try assumption.
  - now apply nodup_keys_index_remove.
  - intros x c0 Hc0. apply get_modify_Some in Hc0.
    destruct Hc0 as [[-> [v [Hv ->]]]|[_ Hc0]]; [|eauto].
    simpl. eauto.
  - intros x Hx. apply get_modify_None. eauto.
Qed.

Lemma Inv2_joined st socket room :
  Inv2 st -> Inv2 (joined socket room st).
Proof.
  intros [H1 H2 H3 H4 H5 H6]. constructor; simpl; try assumption.
  - now apply nodup_keys_index_add.
  - intros x c0 Hc0. apply get_modify_Some in Hc0.
    destruct Hc0 as [[-> [v [Hv ->]]]|[_ Hc0]]; [|eauto].
    simpl. eauto.
  - intros x Hx. apply get_modify_None. eauto.
Qed.

Lemma Inv2_roomJoin st socket data now :
  Inv2 st -> Inv2 (fst (roomJoin socket data now st)).
Proof.
  intros HI. destruct data as [d|]; [|exact HI].
  destruct (truthy (jd_roomId d)) as [room|] eqn:Ht.
  2:{ unfold roomJoin. now rewrite Ht. }
  destruct (JsMap.get (connections st) (sock_id socket)) as [c|] eqn:Hc.
  2:{ unfold roomJoin. now rewrite Ht, Hc. }
  rewrite (roomJoin_state st socket d room c now Ht Hc).
  apply Inv2_joined. destruct (truthy (roomId c)); [|assumption].
  now apply Inv2_leaveRoom.
Qed.

Lemma Inv2_connect st socket now :
  Inv2 st ->
  JsMap.get (sockets st) (sock_id socket) = None ->
  Inv2 (fst (onConnection socket now (socket_open socket st))).
Proof.
  intros [H1 H2 H3 H4 H5 H6] Hfresh. constructor; simpl.
  - assumption.
  - now apply nodup_keys_index_add.
  - now apply nodup_keys_set.
  - now apply sets_ok_index_add.
  - intros x c Hc.
    change (member (index_add (userSockets st) (sock_userId socket)
                      (sock_id socket)) x (userId c)).
    apply member_index_add. rewrite get_set in Hc.
    destruct (String.eqb_spec (sock_id socket) x) as [<-|_].
    + injection Hc as <-. now right.
    + left. eauto.
  - intros x. rewrite !get_set.
    destruct (String.eqb (sock_id socket) x); [discriminate | apply H6].
Qed.

Lemma rooms_leaveRoom_sync s st :
  rooms (fst (leaveRoom_sync s st)) = rooms st \/
  exists room,
    rooms (fst (leaveRoom_sync s st)) = index_remove (rooms st) room (sock_id s).
Proof.
  unfold leaveRoom_sync.
  destruct (JsMap.get (connections st) (sock_id s)) as [c|]; [|now left].
  destruct (truthy (roomId c)) as [room|]; [|now left].
  right. exists room. reflexivity.
Qed.

Lemma frame_leaveRoom_sync s st :
  userSockets (fst (leaveRoom_sync s st)) = userSockets st /\
  sockets (fst (leaveRoom_sync s st)) = sockets st.
Proof.
  unfold leaveRoom_sync.
  destruct (JsMap.get (connections st) (sock_id s)) as [c|]; [|now split].
  destruct (truthy (roomId c)); now split.
Qed.

Lemma adapter_leaveRoom_sync s st x :
  JsMap.get (adapter st) x = None ->
  JsMap.get (adapter (fst (leaveRoom_sync s st))) x = None.
Proof.
  intros H. unfold leaveRoom_sync.
  destruct (JsMap.get (connections st) (sock_id s)) as [c|]; [|assumption].
  destruct (truthy (roomId c)); [|assumption].
  simpl. now apply get_modify_None.
Qed.

Lemma Inv2_onDisconnect st s sid now :
  Inv2 st -> Inv2 (fst (onDisconnect s now (socket_close sid st))).
Proof.
  intros [H1 H2 H3 H4 H5 H6]. unfold onDisconnect, disconnect_sync.
  pose proof (rooms_leaveRoom_sync s (socket_close sid st)) as Hrooms.
  pose proof (frame_leaveRoom_sync s (socket_close sid st)) as [Hus Hso].
  pose proof (connections_leaveRoom_sync s (socket_close sid st)) as Hcs.
  pose proof (adapter_leaveRoom_sync s (socket_close sid st)) as Had.
  destruct (leaveRoom_sync s (socket_close sid st)) as [st1 susp].
  rewrite disconnect_resume_state. simpl in *.
  rewrite Hus, Hso, Hcs. constructor; simpl.
  - destruct Hrooms as [->|[room ->]];
      [assumption | now apply nodup_keys_index_remove].
  - now apply nodup_keys_index_remove.
  - now apply nodup_keys_delete.
  - now apply sets_ok_index_remove.
  - intros x c Hc. rewrite get_delete in Hc.
    destruct (String.eqb_spec (sock_id s) x) as [<-|Hne]; [discriminate|].
    apply member_index_remove. split; [eauto|]. intros [Heq _]. congruence.
  - intros x Hx. apply Had. rewrite get_delete in *.
    destruct (String.eqb sid x); [reflexivity | now apply H6].
Qed.

Lemma Inv2_adminKick st socket data now :
  Inv2 st -> Inv2 (fst (adminKick socket data now st)).
Proof.
  intros HI. unfold adminKick.
  destruct (negb (String.eqb (sock_userRole socket) "admin")); [exact HI|].
  destruct data as [d|]; [|exact HI].
  destruct (lookup_socket st (kd_targetSocketId d)) as [ts|]; [|exact HI].
  pose proof (Inv2_leaveRoom st ts now HI) as H1.
  destruct (leaveRoom ts now st) as [st1 out1]. simpl in *.
  unfold forceDisconnect.
  pose proof (Inv2_onDisconnect st1 ts (sock_id ts) now H1) as H2.
  destruct (onDisconnect ts now (socket_close (sock_id ts) st1)). exact H2.
Qed.

Lemma Inv2_fold_reap now entries :
  forall st, Inv2 st -> Inv2 (fold_left (reapEntry now) entries st).
Proof.
  induction entries as [|[sid c] rest IH]; intros st HI; [exact HI|].
  simpl. apply IH. unfold reapEntry. simpl.
  destruct (isStale now c); [|exact HI]. unfold reapOne.
  destruct (JsMap.get (sockets st) sid) as [s|].
  - now apply Inv2_onDisconnect.
  - destruct HI as [H1 H2 H3 H4 H5 H6]. constructor; simpl; try assumption.
    intros x c0 Hc0. rewrite get_delete in Hc0.
    destruct (String.eqb sid x); [discriminate | eauto].
Qed.

Lemma Inv2_run now op st :
  Inv st -> Inv2 st -> enabled op st = true -> Inv2 (fst (run now op st)).
Proof.
  intros HI H2 Hen.
  assert (Hon : forall sid h,
            (forall s, Inv2 (fst (h s st))) -> Inv2 (fst (on_socket sid h st))).
  { intros sid h Hh. unfold on_socket.
    destruct (JsMap.get (sockets st) sid) as [s|]; [apply Hh | exact H2]. }
  destruct op; simpl.
  - apply Inv2_connect; [assumption|]. simpl in Hen.
    apply negb_true_iff in Hen. unfold JsMap.has in Hen.
    now destruct (JsMap.get (sockets st) (sock_id socket)).
  - apply Hon. intros s. now apply Inv2_roomJoin.
  - apply Hon. intros s. now apply Inv2_leaveRoom.
  - apply Hon. intros s. unfold audioToggle.
    destruct data as [d|]; [|exact H2].
    destruct (JsMap.get (connections st) (sock_id s)) as [c|]; [|exact H2].
    destruct (truthy (roomId c)); [|exact H2].
    now apply Inv2_modify_connection.
  - apply Hon. intros s. now apply Inv2_adminKick.
  - apply Hon. intros s. unfold adminMute.
    destruct (negb (String.eqb (sock_userRole s) "admin")); [exact H2|].
    destruct data as [d|]; [|exact H2].
    destruct (lookup_socket st (md_targetSocketId d)); exact H2.
  - apply Hon. intros s. unfold emergencyAlert.
    destruct data as [d|]; [|exact H2].
    destruct (JsMap.get (connections st) (sock_id s)) as [c|]; [|exact H2].
    destruct (truthy (roomId c)); [|exact H2].
    now apply Inv2_set_redis.
  - apply Hon. intros s. unfold ping.
    destruct (JsMap.get (connections st) (sock_id s)) as [c|]; [|exact H2].
    now apply Inv2_modify_connection.
  - apply Hon. intros s. now apply Inv2_onDisconnect.
  - rewrite cleanup_fold by
      (try apply (inv_keys st HI); now apply Inv_socks_ok).
    now apply Inv2_fold_reap.
Qed.

Lemma settled_Inv2 st : settled st -> Inv2 st.
Proof.
  induction 1 as [|st now op Hr IH Hen].
  - apply Inv2_init.
  - apply Inv2_run; [now apply settled_Inv | assumption | assumption].
Qed.

(** ** Handlers that nothing interrupts *)

Lemma complete_nil fuel now st d :
  complete fuel now (mkConfig st [] d) = (mkConfig st [] d, []).
Proof. destruct fuel; reflexivity. Qed.

Lemma complete_cons fuel now st t rest d :
  complete (S fuel) now (mkConfig st (t :: rest) d) =
  (let '(st1, out1, ts) := resume now d t st in
   let (cfg2, out2) :=
     complete fuel now
       (mkConfig st1 (ts ++ rest) (detach st st1 (write_detached t st d))) in
   (cfg2, out1 ++ out2))%list.
Proof.
  simpl. destruct (resume now d t st) as [[st1 out1] ts]. reflexivity.
Qed.

Ltac tracker_cases E Ez :=
  cbn [resume leaveRoom_rest app];
  unfold disconnect_tracker;
  cbn [app userSockets set_connections set_userSockets set_redis fst snd];
  rewrite ?E, ?get_modify, ?String.eqb_refl, ?E; cbn [option_map];
  rewrite ?Ez.

Ltac chain_end n :=
  match goal with
  | |- context [complete n _ (mkConfig _ _ (detach ?a ?b ?c))] =>
      instantiate (1 := detach a b c)
  end;
  destruct (complete n _ _) as [c o]; reflexivity.

Ltac resume_head t rest :=
  rewrite (complete_cons _ _ _ t rest _).

(** The stretches of a suspended ['disconnect'] listener, run one after
    the other, are [disconnect_resume]. *)
Lemma disconnect_chain p rest now st d :
  exists k d', k <= stretches (task_of_pending p) /\
    forall n,
      complete (k + n) now (mkConfig st (task_of_pending p :: rest) d) =
      (let (st1, out1) := disconnect_resume p now st in
       let (cfg2, out2) := complete n now (mkConfig st1 rest d') in
       (cfg2, out1 ++ out2))%list.
Proof.
  destruct p as [s [room|]]; unfold task_of_pending, disconnect_resume.
  - destruct (JsMap.get (userSockets st) (sock_userId s)) as [m|] eqn:E.
    + destruct (Nat.eqb (JsSet.size (JsSet.delete m (sock_id s))) 0) eqn:Ez.
      * exists 3. eexists. split; [simpl; lia|]. intros n.
        change (3 + n) with (S (S (S n))).
        resume_head (InLeaveRoom FromDisconnect s room) rest.
        tracker_cases E Ez.
        resume_head (AfterLeaveRoom FromDisconnect s) rest.
        tracker_cases E Ez.
        resume_head (AtUserStatus s) rest.
        tracker_cases E Ez.
        rewrite delete_modify.
        chain_end n.
      * exists 2. eexists. split; [simpl; lia|]. intros n.
        change (2 + n) with (S (S n)).
        resume_head (InLeaveRoom FromDisconnect s room) rest.
        tracker_cases E Ez.
        resume_head (AfterLeaveRoom FromDisconnect s) rest.
        tracker_cases E Ez.
        chain_end n.
    + exists 2. eexists. split; [simpl; lia|]. intros n.
      change (2 + n) with (S (S n)).
      resume_head (InLeaveRoom FromDisconnect s room) rest.
      tracker_cases E E.
      resume_head (AfterLeaveRoom FromDisconnect s) rest.
      tracker_cases E E.
      chain_end n.
  - destruct (JsMap.get (userSockets st) (sock_userId s)) as [m|] eqn:E.
    + destruct (Nat.eqb (JsSet.size (JsSet.delete m (sock_id s))) 0) eqn:Ez.
      * exists 2. eexists. split; [simpl; lia|]. intros n.
        change (2 + n) with (S (S n)).
        resume_head (AfterLeaveRoom FromDisconnect s) rest.
        tracker_cases E Ez.
        resume_head (AtUserStatus s) rest.
        tracker_cases E Ez.
        rewrite delete_modify.
        chain_end n.
      * exists 1. eexists. split; [simpl; lia|]. intros n.
        change (1 + n) with (S n).
        resume_head (AfterLeaveRoom FromDisconnect s) rest.
        tracker_cases E Ez.
        chain_end n.
    + exists 1. eexists. split; [simpl; lia|]. intros n.
      change (1 + n) with (S n).
      resume_head (AfterLeaveRoom FromDisconnect s) rest.
      tracker_cases E E.
      chain_end n.
Qed.

Lemma complete_resume_all now ps :
  forall st d fuel,
    list_sum (map stretches (map task_of_pending ps)) <= fuel ->
    exists d',
      complete fuel now (mkConfig st (map task_of_pending ps) d) =
      (let (st2, out2) := resume_all now ps st in (mkConfig st2 [] d', out2)).
Proof.
  induction ps as [|p ps IH]; intros st d fuel Hfuel.
  - exists d. simpl. apply complete_nil.
  - cbn [map list_sum] in Hfuel. cbn [map resume_all].
    destruct (disconnect_chain p (map task_of_pending ps) now st d)
      as [k [d1 [Hk Hchain]]].
    assert (Hle : k + list_sum (map stretches (map task_of_pending ps))
                  <= fuel) by (simpl in *; lia).
    replace fuel with (k + (fuel - k)) by lia. rewrite Hchain.
    destruct (disconnect_resume p now st) as [st1 out1].
    destruct (IH st1 d1 (fuel - k)) as [d2 IH2]; [lia|].
    exists d2. rewrite IH2. now destruct (resume_all now ps st1).
Qed.

Lemma to_self_live st s s' :
  JsMap.get (sockets st) (sock_id s) = Some s' -> to_self st s = [sock_id s].
Proof. intros H. unfold to_self, JsMap.has. now rewrite H. Qed.

Lemma disconnect_uninterrupted now s st :
  let (st1, t) := call_leaveRoom FromDisconnect s st in
  forall d fuel, stretches t <= fuel ->
    exists d',
      complete fuel now (mkConfig st1 [t] d) =
      (mkConfig (fst (onDisconnect s now st)) [] d',
       snd (onDisconnect s now st)).
Proof.
  unfold call_leaveRoom, onDisconnect, disconnect_sync.
  destruct (leaveRoom_sync s st) as [st1 susp].
  change (match susp with
          | Some room => InLeaveRoom FromDisconnect s room
          | None => AfterLeaveRoom FromDisconnect s
          end) with (task_of_pending (s, susp)).
  intros d fuel Hfuel.
  change [task_of_pending (s, susp)] with (map task_of_pending [(s, susp)]).
  destruct (complete_resume_all now [(s, susp)] st1 d fuel) as [d' Hall];
    [destruct susp; simpl in *; lia|].
  exists d'. rewrite Hall.
  cbn [resume_all]. destruct (disconnect_resume (s, susp) now st1) as [st2 out2].
  cbn [fst snd]. now rewrite app_nil_r.
Qed.

Lemma disconnect_stretches s st :
  stretches (snd (call_leaveRoom FromDisconnect s st)) <= 3.
Proof.
  unfold call_leaveRoom. destruct (leaveRoom_sync s st) as [st1 [room|]];
    simpl; lia.
Qed.

Lemma socks_ok_live st sid s :
  socks_ok st -> JsMap.get (sockets st) sid = Some s ->
  JsMap.get (sockets st) (sock_id s) = Some s.
Proof. intros Hok Hs. now rewrite (Hok sid s Hs). Qed.

Lemma join_sync_joined s room st c :
  JsMap.get (connections st) (sock_id s) = Some c ->
  join_sync s room st = (joined s room st, [], [AtSAdd s room]).
Proof.
  intros Hc. unfold join_sync. cbn [connections socket_join set_adapter].
  rewrite Hc. reflexivity.
Qed.

(** [room:join] from the [await] of line 99 to its end. *)
Lemma joined_chain s s' room st rest now n d :
  JsMap.get (sockets st) (sock_id s) = Some s' ->
  exists d',
  complete (4 + n) now (mkConfig st (AtSAdd s room :: rest) d) =
  (let ps := getRoomParticipants room st in
   let (cfg2, out2) := complete n now (mkConfig st rest d') in
   (cfg2,
    [Emit [sock_id s] (EvRoomJoined room ps now);
     Emit (socket_to st room (sock_id s))
       (EvParticipantJoined (sock_userId s) (sock_userName s) (sock_id s)
          now);
     Emit [sock_id s] (EvRoomState room ps (List.length ps) now)] ++ out2))%list.
Proof.
  intros Hlive. eexists. change (4 + n) with (S (S (S (S n)))).
  resume_head (AtSAdd s room) rest. cbn [resume app].
  resume_head (AtRoster s room (getRoomParticipants room st)) rest.
  cbn [resume app].
  resume_head (InRoomState s room (getRoomParticipants room st)) rest.
  cbn [resume app].
  resume_head
    (AtRoomState s
       (mkRoomState room (getRoomParticipants room st)
          (List.length (getRoomParticipants room st)) now)) rest.
  cbn [resume app rs_roomId rs_participants rs_participantCount
       rs_timestamp].
  rewrite (to_self_live st s s' Hlive).
  chain_end n.
Qed.

Ltac joined_tail s room now Hlive :=
  match goal with
  | |- context [complete (4 + 0) now (mkConfig ?S [AtSAdd s room] ?D)] =>
      let d' := fresh "d'" in
      let Hj := fresh "Hj" in
      destruct (joined_chain s s room S [] now 0 D Hlive) as [d' Hj];
      rewrite Hj, complete_nil
  end.

Ltac disconnect_tail now Hd :=
  match goal with
  | |- context [complete ?k now (mkConfig _ _ ?D)] =>
      let d' := fresh "d'" in
      let Hd' := fresh "Hd'" in
      destruct (Hd D k) as [d' Hd']; [simpl in *; lia|rewrite Hd']
  end.

(** A handler that runs from the arrival of its event to its end, with
    nothing else in between, is the handler of [run]. *)
Theorem run_uninterrupted now op st det :
  socks_ok st ->
  outcome (uninterrupted now op (mkConfig st [] det)) =
  (fst (run now op st), [], snd (run now op st)).
Proof.
  intros Hok. unfold uninterrupted.
  destruct op; cbn [step arrive run state pending detached app].
  - (* connect *)
    unfold finished. cbn. rewrite ?app_nil_r. reflexivity.
  - (* room:join *)
    unfold on_live, on_socket.
    destruct (JsMap.get (sockets st) sid) as [s|] eqn:Hs; [|reflexivity].
    pose proof (socks_ok_live st sid s Hok Hs) as Hlive.
    unfold roomJoin_start, roomJoin.
    rewrite (to_self_live st s s Hlive).
    destruct data as [d|]; [|reflexivity].
    destruct (truthy (jd_roomId d)) as [room|]; [|reflexivity].
    destruct (JsMap.get (connections st) (sock_id s)) as [c|] eqn:Hc;
      [|reflexivity].
    destruct (truthy (roomId c)) as [old|] eqn:Hold.
    + unfold call_leaveRoom.
      rewrite (leaveRoom_in st s now c old Hc Hold).
      rewrite (leaveRoom_sync_in st s c old Hc Hold).
      cbn [pending state map stretches list_sum Nat.add fst snd].
      change (list_sum [6]) with (S (S (4 + 0))).
      resume_head (InLeaveRoom (FromRoomJoin room) s old) (@nil Task).
      cbn [resume leaveRoom_rest app].
      resume_head (AfterLeaveRoom (FromRoomJoin room) s) (@nil Task).
      cbn [resume app].
      rewrite (join_sync_joined s room _ (with_roomId None c))
        by (cbn [connections set_connections];
            now rewrite get_modify, String.eqb_refl, Hc).
      cbn [app].
      joined_tail s room now Hlive. reflexivity.
    + rewrite (join_sync_joined s room st c Hc).
      cbn [pending state map stretches list_sum Nat.add fst snd app].
      change (list_sum [4]) with (4 + 0).
      joined_tail s room now Hlive. reflexivity.
  - (* room:leave *)
    unfold on_live, on_socket.
    destruct (JsMap.get (sockets st) sid) as [s|] eqn:Hs; [|reflexivity].
    unfold roomLeave, leaveRoom, call_leaveRoom.
    destruct (leaveRoom_sync s st) as [st1 [room|]];
      cbn [pending state map stretches app].
    + change (list_sum [2]) with 2.
      resume_head (InLeaveRoom FromRoomLeave s room) (@nil Task).
      cbn [resume leaveRoom_rest app].
      resume_head (AfterLeaveRoom FromRoomLeave s) (@nil Task).
      cbn [resume app]. rewrite complete_nil. reflexivity.
    + change (list_sum [1]) with 1.
      resume_head (AfterLeaveRoom FromRoomLeave s) (@nil Task).
      cbn [resume app]. rewrite complete_nil. reflexivity.
  - (* audio:toggle *)
    unfold on_live, on_socket.
    destruct (JsMap.get (sockets st) sid) as [s|] eqn:Hs; [|reflexivity].
    unfold finished. destruct (audioToggle s data now st) as [st1 out1].
    cbn. now rewrite app_nil_r.
  - (* admin:kick *)
    unfold on_live, on_socket.
    destruct (JsMap.get (sockets st) sid) as [s|] eqn:Hs; [|reflexivity].
    pose proof (socks_ok_live st sid s Hok Hs) as Hlive.
    unfold adminKick_start, adminKick.
    rewrite (to_self_live st s s Hlive).
    destruct (negb (String.eqb (sock_userRole s) "admin")); [reflexivity|].
    destruct data as [d|]; [|reflexivity].
    destruct (lookup_socket st (kd_targetSocketId d)) as [ts|] eqn:Hl;
      [|reflexivity].
    assert (Hts : JsMap.get (sockets st) (sock_id ts) = Some ts).
    { destruct (kd_targetSocketId d) as [tid|]; [|discriminate].
      exact (socks_ok_live st tid ts Hok Hl). }
    rewrite (to_self_live st ts ts Hts).
    unfold leaveRoom, call_leaveRoom, forceDisconnect.
    pose proof (frame_leaveRoom_sync ts st) as [_ Hso].
    destruct (leaveRoom_sync ts st) as [st1 [room|]];
      cbn [fst] in Hso; cbn [pending state map stretches app fst snd].
    + change (list_sum [5]) with (S (S 3)).
      resume_head (InLeaveRoom FromAdminKick ts room) (@nil Task).
      cbn [resume leaveRoom_rest app].
      resume_head (AfterLeaveRoom FromAdminKick ts) (@nil Task).
      cbn [resume app]. unfold disconnect_true.
      unfold JsMap.has at 1. cbn [sockets set_connections].
      rewrite Hso, Hts.
      pose proof (disconnect_uninterrupted now ts
                    (socket_close (sock_id ts)
                       (set_connections st1
                          (JsMap.modify (connections st1) (sock_id ts)
                             (with_roomId None))))) as Hd.
      pose proof (disconnect_stretches ts
                    (socket_close (sock_id ts)
                       (set_connections st1
                          (JsMap.modify (connections st1) (sock_id ts)
                             (with_roomId None))))) as Hfuel.
      destruct (call_leaveRoom FromDisconnect ts _) as [st2 t].
      cbn [app snd] in *. disconnect_tail now Hd.
      now destruct (onDisconnect ts now _).
    + change (list_sum [4]) with (S 3).
      resume_head (AfterLeaveRoom FromAdminKick ts) (@nil Task).
      cbn [resume app]. unfold disconnect_true.
      unfold JsMap.has at 1. rewrite Hso, Hts.
      pose proof (disconnect_uninterrupted now ts
                    (socket_close (sock_id ts) st1)) as Hd.
      pose proof (disconnect_stretches ts
                    (socket_close (sock_id ts) st1)) as Hfuel.
      destruct (call_leaveRoom FromDisconnect ts _) as [st2 t].
      cbn [app snd] in *. disconnect_tail now Hd.
      now destruct (onDisconnect ts now _).
  - (* admin:mute *)
    unfold on_live, on_socket.
    destruct (JsMap.get (sockets st) sid) as [s|] eqn:Hs; [|reflexivity].
    unfold finished. destruct (adminMute s data now st) as [st1 out1].
    cbn. now rewrite app_nil_r.
  - (* emergency:alert *)
    unfold on_live, on_socket.
    destruct (JsMap.get (sockets st) sid) as [s|] eqn:Hs; [|reflexivity].
    pose proof (socks_ok_live st sid s Hok Hs) as Hlive.
    unfold emergencyAlert_start, emergencyAlert.
    destruct data as [d|]; [|reflexivity].
    destruct (JsMap.get (connections st) (sock_id s)) as [c|] eqn:Hc;
      [|reflexivity].
    destruct (truthy (roomId c)) as [room|] eqn:Hroom; [|reflexivity].
    cbn [pending state map stretches app fst snd].
    change (list_sum [1]) with 1.
    resume_head
      (AtLPush s
         (mkEmergency (sock_userId s) (sock_userName s) (al_location d)
            (al_message d) now room)) (@nil Task).
    cbn [resume app]. unfold held_room. cbn [connections set_redis].
    rewrite Hc, (truthy_roomId c room Hroom), complete_nil.
    rewrite (to_self_live _ s s) by exact Hlive.
    unfold outcome. cbn [fst snd state pending]. now rewrite app_nil_r.
  - (* ping *)
    unfold on_live, on_socket.
    destruct (JsMap.get (sockets st) sid) as [s|] eqn:Hs; [|reflexivity].
    unfold finished. destruct (ping s callback now st) as [st1 out1].
    cbn. now rewrite app_nil_r.
  - (* disconnect *)
    unfold on_live, on_socket.
    destruct (JsMap.get (sockets st) sid) as [s|] eqn:Hs; [|reflexivity].
    pose proof (disconnect_uninterrupted now s (socket_close sid st)) as Hd.
    destruct (call_leaveRoom FromDisconnect s _) as [st1 t].
    cbn [pending state map app].
    disconnect_tail now Hd. reflexivity.
  - (* the sweep *)
    unfold cleanupStaleConnections.
    destruct (sweep now (connections st) st) as [[st1 ps] out1].
    cbn [pending state app].
    match goal with
    | |- context [complete ?k now (mkConfig _ _ ?D)] =>
        destruct (complete_resume_all now ps st1 D k) as [d' Hall];
          [lia|rewrite Hall]
    end.
    now destruct (resume_all now ps st1).
Qed.

(** ** Whole handlers are schedules *)

Lemma complete_reachable fuel now :
  forall cfg, reachable cfg -> reachable (fst (complete fuel now cfg)).
Proof.
  induction fuel as [|fuel IH]; intros cfg Hr; [exact Hr|].
  cbn [complete]. destruct (pending cfg) as [|t rest] eqn:Hp; [exact Hr|].
  assert (Hal : allowed (Resume 0) cfg = true) by (simpl; now rewrite Hp).
  pose proof (reachable_step cfg now (Resume 0) Hr Hal) as Hr1.
  destruct (step now (Resume 0) cfg) as [cfg1 out1]. cbn [fst] in Hr1.
  specialize (IH cfg1 Hr1). destruct (complete fuel now cfg1). exact IH.
Qed.

(** Every state reached by whole handlers is a configuration of the
    program, with nothing suspended. *)
Theorem settled_reachable st :
  settled st -> exists d, reachable (mkConfig st [] d).
Proof.
  induction 1 as [|st now op Hs [d IH] Hen];
    [exists []; apply reachable_init|].
  pose proof (settled_Inv st Hs) as HI.
  pose proof (run_uninterrupted now op st d (Inv_socks_ok st HI)) as Hrun.
  unfold uninterrupted, outcome in Hrun.
  assert (Hal : allowed (Arrive op) (mkConfig st [] d) = true).
  { destruct op; try reflexivity. simpl in *. unfold fresh_id. simpl.
    rewrite Hen. simpl. rewrite andb_true_r.
    apply negb_true_iff in Hen. unfold JsMap.has in *.
    destruct (JsMap.get (sockets st) (sock_id socket)) eqn:E;
      [discriminate|].
    apply (inv_live st HI) in E. now rewrite E. }
  pose proof (reachable_step _ now (Arrive op) IH Hal) as Hr1.
  destruct (step now (Arrive op) (mkConfig st [] d)) as [cfg1 out1].
  pose proof (complete_reachable
                (list_sum (map stretches (pending cfg1))) now cfg1 Hr1)
    as Hr2.
  destruct (complete _ now cfg1) as [[st2 ts2 d2] out2].
  cbn [fst snd state pending] in Hrun. injection Hrun as <- -> _.
  now exists d2.
Qed.

(** ** What every schedule keeps *)

Lemma In_spliced (A : Type) (x : A) (ts l : list A) :
  forall i, In x (firstn i l ++ ts ++ skipn (S i) l)%list ->
            In x ts \/ In x l.
Proof.
  induction l as [|a l IH]; intros i Hin.
  - rewrite firstn_nil, skipn_nil, app_nil_r in Hin. now left.
  - destruct i as [|i]; simpl in Hin.
    + apply in_app_or in Hin. destruct Hin as [Hin|Hin]; [now left|].
      right. now right.
    + destruct Hin as [<-|Hin]; [right; now left|].
      destruct (IH i Hin) as [H|H]; [now left | right; now right].
Qed.

Lemma Wf_init : Wf init.
Proof.
  constructor; simpl; try constructor; intros; discriminate.
Qed.

Lemma Wf_set_redis st r : Wf st -> Wf (set_redis st r).
Proof. intros [H1 H2 H3 H4 H5 H6 H7 H8]. constructor; assumption. Qed.

Lemma Wf_modify_connection st sid f :
  Wf st -> Wf (set_connections st (JsMap.modify (connections st) sid f)).
Proof.
  intros [H1 H2 H3 H4 H5 H6 H7 H8]. constructor; simpl; try assumption.
  now rewrite keys_modify.
Qed.

Lemma Wf_delete_connection st sid :
  Wf st -> Wf (set_connections st (JsMap.delete (connections st) sid)).
Proof.
  intros [H1 H2 H3 H4 H5 H6 H7 H8]. constructor; simpl; try assumption.
  now apply nodup_keys_delete.
Qed.

Lemma Wf_socket_close st sid : Wf st -> Wf (socket_close sid st).
Proof.
  intros [H1 H2 H3 H4 H5 H6 H7 H8]. constructor; simpl; try assumption;
    now apply nodup_keys_delete.
Qed.

Lemma Wf_leaveRoom_sync s st : Wf st -> Wf (fst (leaveRoom_sync s st)).
Proof.
  intros HW. unfold leaveRoom_sync.
  destruct (JsMap.get (connections st) (sock_id s)) as [c|]; [|exact HW].
  destruct (truthy (roomId c)) as [room|]; [|exact HW].
  destruct HW as [H1 H2 H3 H4 H5 H6 H7 H8].
  change (Wf (mkState (connections st)
                (index_remove (rooms st) room (sock_id s))
                (userSockets st) (sockets st)
                (JsMap.modify (adapter st) (sock_id s)
                   (fun m => JsSet.delete m room))
                (sRem (participants_key room) (sock_userId s) (redis st)))).
  constructor; simpl; try assumption.
  - now apply nodup_keys_index_remove.
  - now apply sets_ok_index_remove.
  - intros r m Hr. rewrite get_index_remove in Hr.
    destruct (String.eqb_spec room r) as [<-|Hne]; [|eauto].
    destruct (JsMap.get (rooms st) room) as [m0|] eqn:E; [|discriminate].
    eauto.
  - now rewrite keys_modify.
Qed.

Lemma Wf_join_sync s room st :
  room <> "" -> Wf st -> Wf (fst (fst (join_sync s room st))).
Proof.
  intros Hroom [H1 H2 H3 H4 H5 H6 H7 H8]. unfold join_sync.
  cbn [connections socket_join set_adapter].
  destruct (JsMap.get (connections st) (sock_id s)) as [c|].
  - change (Wf (joined s room st)). constructor; simpl; try assumption.
    + now rewrite keys_modify.
    + now apply nodup_keys_index_add.
    + now apply sets_ok_index_add.
    + intros r m Hr. rewrite get_index_add in Hr.
      destruct (String.eqb_spec room r) as [<-|Hne]; eauto.
    + now rewrite keys_modify.
  - constructor; simpl; try assumption. now rewrite keys_modify.
Qed.

Lemma Wf_connect st socket now :
  Wf st -> Wf (fst (onConnection socket now (socket_open socket st))).
Proof.
  intros [H1 H2 H3 H4 H5 H6 H7 H8]. constructor; simpl; try assumption.
  - now apply nodup_keys_set.
  - now apply (nodup_keys_index_add (userSockets st)).
  - intros uid m Hm.
    change (JsMap.get (index_add (userSockets st) (sock_userId socket)
                         (sock_id socket)) uid = Some m) in Hm.
    rewrite get_index_add in Hm.
    destruct (String.eqb (sock_userId socket) uid); [|eauto].
    injection Hm as <-. apply NoDup_set_add.
    destruct (JsMap.get (userSockets st) (sock_userId socket)) eqn:E;
      [eauto | constructor].
  - now apply nodup_keys_set.
  - now apply nodup_keys_set.
Qed.

Lemma Wf_disconnect_tracker s now st :
  Wf st -> Wf (fst (fst (disconnect_tracker s now st))).
Proof.
  intros HW. unfold disconnect_tracker.
  assert (Hus : Wf (set_userSockets st
                      (JsMap.modify (userSockets st) (sock_userId s)
                         (fun m => JsSet.delete m (sock_id s))))).
  { destruct HW as [H1 H2 H3 H4 H5 H6 H7 H8].
    constructor; simpl; try assumption.
    - now rewrite keys_modify.
    - intros uid m Hm. apply get_modify_Some in Hm.
      destruct Hm as [[-> [v [Hv ->]]]|[_ Hm]]; [|eauto].
      apply NoDup_set_delete. eauto. }
  destruct (JsMap.get (userSockets st) (sock_userId s)) as [m0|].
  - destruct (JsMap.get _ (sock_userId s)) as [m|].
    + destruct (Nat.eqb (JsSet.size m) 0); simpl.
      * now apply Wf_set_redis.
      * exact (Wf_delete_connection _ (sock_id s) Hus).
    + exact (Wf_delete_connection _ (sock_id s) Hus).
  - now apply Wf_delete_connection.
Qed.

Lemma task_ok_call_leaveRoom caller s st :
  (forall room, caller = FromRoomJoin room -> room <> "") ->
  task_ok (snd (call_leaveRoom caller s st)).
Proof.
  intros H. unfold call_leaveRoom.
  destruct (leaveRoom_sync s st) as [st1 [room|]]; simpl;
    destruct caller; auto.
Qed.

Lemma Wf_call_leaveRoom caller s st :
  Wf st -> Wf (fst (call_leaveRoom caller s st)).
Proof.
  intros HW. pose proof (Wf_leaveRoom_sync s st HW) as H.
  unfold call_leaveRoom. now destruct (leaveRoom_sync s st).
Qed.

Lemma Wf_disconnect_true s st :
  Wf st ->
  Wf (fst (fst (disconnect_true s st))) /\
  Forall task_ok (snd (disconnect_true s st)).
Proof.
  intros HW. unfold disconnect_true.
  destruct (JsMap.has (sockets st) (sock_id s)); [|now split].
  pose proof (Wf_call_leaveRoom FromDisconnect s
                (socket_close (sock_id s) st)
                (Wf_socket_close st (sock_id s) HW)) as H1.
  pose proof (task_ok_call_leaveRoom FromDisconnect s
                (socket_close (sock_id s) st)) as H2.
  destruct (call_leaveRoom FromDisconnect s _) as [st1 t]. simpl in *.
  split; [assumption|]. constructor; [|constructor].
  apply H2. discriminate.
Qed.

Lemma Wf_resume now d t st :
  task_ok t -> Wf st ->
  Wf (fst (fst (resume now d t st))) /\
  Forall task_ok (snd (resume now d t st)).
Proof.
  intros Hok HW. destruct t as [caller s room|caller s|s room|s room ps|
                                s room ps|s rs|s e|s]; simpl.
  - split; [now apply Wf_modify_connection|].
    constructor; [|constructor]. destruct caller; exact Hok.
  - destruct caller as [room| | |].
    + split; [now apply Wf_join_sync|].
      unfold join_sync.
      destruct (JsMap.get _ (sock_id s)); simpl; repeat constructor.
    + now split.
    + now apply Wf_disconnect_true.
    + split; [now apply Wf_disconnect_tracker|].
      unfold disconnect_tracker.
      destruct (JsMap.get (userSockets st) (sock_userId s)); simpl;
        [|constructor].
      destruct (JsMap.get _ (sock_userId s)); simpl; [|constructor].
      destruct (Nat.eqb _ 0); simpl; repeat constructor.
  - split; [assumption | repeat constructor].
  - split; [assumption | repeat constructor].
  - split; [assumption | repeat constructor].
  - split; [assumption | constructor].
  - split; [assumption | constructor].
  - split; [|constructor].
    apply (Wf_delete_connection
             (set_userSockets st
                (JsMap.delete (userSockets st) (sock_userId s)))).
    destruct HW as [H1 H2 H3 H4 H5 H6 H7 H8].
    constructor; simpl; try assumption.
    + now apply nodup_keys_delete.
    + intros uid m Hm. rewrite get_delete in Hm.
      destruct (String.eqb (sock_userId s) uid); [discriminate | eauto].
Qed.

Lemma Wf_sweep now entries :
  forall st, Wf st ->
    Wf (fst (fst (sweep now entries st))).
Proof.
  induction entries as [|[sid c] rest IH]; intros st HW; [exact HW|].
  simpl. destruct (isStale now c); [|now apply IH].
  destruct (JsMap.get (sockets st) sid) as [s|].
  - pose proof (Wf_leaveRoom_sync s (socket_close sid st)
                  (Wf_socket_close st sid HW)) as H1.
    unfold disconnect_sync.
    destruct (leaveRoom_sync s (socket_close sid st)) as [st1 susp].
    simpl in H1.
    specialize (IH _ (Wf_delete_connection st1 sid H1)).
    now destruct (sweep now rest _) as [[st3 pend3] out3].
  - specialize (IH _ (Wf_delete_connection st sid HW)).
    now destruct (sweep now rest _) as [[st3 pend3] out3].
Qed.

Lemma task_ok_pending ps : Forall task_ok (map task_of_pending ps).
Proof.
  induction ps as [|[s [room|]] ps IH]; simpl; constructor; simpl; auto.
Qed.

Lemma Wf_arrive now op st :
  Wf st ->
  Wf (fst (fst (arrive now op st))) /\ Forall task_ok (snd (arrive now op st)).
Proof.
  intros HW.
  assert (Hon : forall sid h,
            (forall s, Wf (fst (fst (h s st))) /\
                       Forall task_ok (snd (h s st))) ->
            Wf (fst (fst (on_live sid h st))) /\
            Forall task_ok (snd (on_live sid h st))).
  { intros sid h Hh. unfold on_live.
    destruct (JsMap.get (sockets st) sid) as [s|]; [apply Hh|].
    split; [exact HW | constructor]. }
  destruct op; cbn [arrive].
  - split; [now apply Wf_connect | constructor].
  - apply Hon. intros s. unfold roomJoin_start.
    destruct data as [d|]; [|split; [exact HW | constructor]].
    destruct (truthy (jd_roomId d)) as [room|] eqn:Ht;
      [|split; [exact HW | constructor]].
    apply truthy_Some in Ht. destruct Ht as [_ Hroom].
    destruct (JsMap.get (connections st) (sock_id s)) as [c|] eqn:Hc;
      [|split; [exact HW | constructor]].
    destruct (truthy (roomId c)).
    + pose proof (Wf_call_leaveRoom (FromRoomJoin room) s st HW) as H1.
      pose proof (task_ok_call_leaveRoom (FromRoomJoin room) s st) as H2.
      destruct (call_leaveRoom (FromRoomJoin room) s st) as [st1 t].
      simpl in *. split; [assumption|]. constructor; [|constructor].
      apply H2. now intros r [= <-].
    + split; [now apply Wf_join_sync|].
      unfold join_sync. cbn [connections socket_join set_adapter].
      rewrite Hc. simpl. repeat constructor.
  - apply Hon. intros s.
    pose proof (Wf_call_leaveRoom FromRoomLeave s st HW) as H1.
    destruct (call_leaveRoom FromRoomLeave s st) as [st1 t] eqn:E.
    simpl in *. split; [assumption|]. constructor; [|constructor].
    pose proof (task_ok_call_leaveRoom FromRoomLeave s st) as H2.
    rewrite E in H2. apply H2. discriminate.
  - apply Hon. intros s. unfold finished, audioToggle. simpl.
    split; [|constructor].
    destruct data as [d|]; [|exact HW].
    destruct (JsMap.get (connections st) (sock_id s)) as [c|]; [|exact HW].
    destruct (truthy (roomId c)); [|exact HW].
    now apply Wf_modify_connection.
  - apply Hon. intros s. unfold adminKick_start.
    destruct (negb (String.eqb (sock_userRole s) "admin"));
      [split; [exact HW | constructor]|].
    destruct data as [d|]; [|split; [exact HW | constructor]].
    destruct (lookup_socket st (kd_targetSocketId d)) as [ts|];
      [|split; [exact HW | constructor]].
    pose proof (Wf_call_leaveRoom FromAdminKick ts st HW) as H1.
    destruct (call_leaveRoom FromAdminKick ts st) as [st1 t] eqn:E.
    simpl in *. split; [assumption|]. constructor; [|constructor].
    pose proof (task_ok_call_leaveRoom FromAdminKick ts st) as H2.
    rewrite E in H2. apply H2. discriminate.
  - apply Hon. intros s. unfold finished, adminMute. simpl.
    split; [|constructor].
    destruct (negb (String.eqb (sock_userRole s) "admin")); [exact HW|].
    destruct data as [d|]; [|exact HW].
    destruct (lookup_socket st (md_targetSocketId d)); exact HW.
  - apply Hon. intros s. unfold emergencyAlert_start.
    destruct data as [d|]; [|split; [exact HW | constructor]].
    destruct (JsMap.get (connections st) (sock_id s)) as [c|];
      [|split; [exact HW | constructor]].
    destruct (truthy (roomId c)); [|split; [exact HW | constructor]].
    simpl. split; [now apply Wf_set_redis | repeat constructor].
  - apply Hon. intros s. unfold finished, ping. simpl.
    split; [|constructor].
    destruct (JsMap.get (connections st) (sock_id s)) as [c|]; [|exact HW].
    now apply Wf_modify_connection.
  - apply Hon. intros s.
    pose proof (Wf_call_leaveRoom FromDisconnect s (socket_close sid st)
                  (Wf_socket_close st sid HW)) as H1.
    destruct (call_leaveRoom FromDisconnect s _) as [st1 t] eqn:E.
    simpl in *. split; [assumption|]. constructor; [|constructor].
    pose proof (task_ok_call_leaveRoom FromDisconnect s
                  (socket_close sid st)) as H2.
    rewrite E in H2. apply H2. discriminate.
  - pose proof (Wf_sweep now (connections st) st HW) as H1.
    destruct (sweep now (connections st) st) as [[st1 ps] out1].
    simpl in *. split; [assumption | apply task_ok_pending].
Qed.

Lemma Wf_step now a cfg :
  Wf (state cfg) -> Forall task_ok (pending cfg) ->
  Wf (state (fst (step now a cfg))) /\
  Forall task_ok (pending (fst (step now a cfg))).
Proof.
  intros HW Hts. destruct a as [op|i]; cbn [step].
  - pose proof (Wf_arrive now op (state cfg) HW) as [H1 H2].
    destruct (arrive now op (state cfg)) as [[st1 out1] ts]. simpl in *.
    split; [assumption|]. apply Forall_app. now split.
  - destruct (nth_error (pending cfg) i) as [t|] eqn:Hn; [|now split].
    assert (Hok : task_ok t).
    { apply nth_error_In in Hn. rewrite Forall_forall in Hts. auto. }
    pose proof (Wf_resume now (detached cfg) t (state cfg) Hok HW)
      as [H1 H2].
    destruct (resume now (detached cfg) t (state cfg)) as [[st1 out1] ts].
    simpl in *.
    split; [assumption|]. rewrite Forall_forall in *.
    intros x Hx. apply In_spliced in Hx. destruct Hx; auto.
Qed.

Theorem reachable_Wf cfg :
  reachable cfg -> Wf (state cfg) /\ Forall task_ok (pending cfg).
Proof.
  induction 1 as [|cfg now a Hr [IH1 IH2] Hal].
  - split; [apply Wf_init | constructor].
  - now apply Wf_step.
Qed.

(** ** The tracker under every schedule *)

Lemma In_unspliced (A : Type) (x t : A) (ts l : list A) :
  forall i, nth_error l i = Some t -> In x l ->
            x = t \/ In x (firstn i l ++ ts ++ skipn (S i) l)%list.
Proof.
  induction l as [|a l IH]; intros i Hn Hin; [destruct Hin|].
  destruct i as [|i]; simpl in *.
  - injection Hn as ->. destruct Hin as [->|Hin]; [now left|].
    right. apply in_or_app. now right.
  - destruct Hin as [->|Hin]; [right; now left|].
    destruct (IH i Hn Hin) as [H|H]; [now left | right; now right].
Qed.

Lemma In_new_spliced (A : Type) (x : A) (ts l : list A) i :
  In x ts -> In x (firstn i l ++ ts ++ skipn (S i) l)%list.
Proof. intros H. apply in_or_app. right. apply in_or_app. now left. Qed.

Lemma Quiet_same st st' ts :
  sockets st' = sockets st -> userSockets st' = userSockets st ->
  Quiet st st' ts.
Proof.
  intros Hso Hus. constructor; rewrite ?Hso, ?Hus; auto.
Qed.

(** A stretch that keeps the tracked sets, or empties them. *)
Lemma Tracked_quiet cfg st' pending' d' ts :
  Tracked cfg ->
  Quiet (state cfg) st' ts ->
  (forall t, In t ts -> In t pending') ->
  (forall t, In t pending' -> In t (pending cfg) \/ In t ts) ->
  (forall t, In t ts ->
     JsMap.get (sockets (state cfg)) (sock_id (task_socket t)) =
       Some (task_socket t) \/
     exists t0, In t0 (pending cfg) /\ task_socket t0 = task_socket t) ->
  (forall t s, In t (pending cfg) -> closing t = Some s ->
     (exists t', In t' pending' /\ closing t' = Some s) \/
     ~ member (userSockets st') (sock_id s) (sock_userId s)) ->
  Tracked (mkConfig st' pending' d').
Proof.
  intros [Hsocks Htasks Hmem] [Hshr Hcl Htr] Hnew Hold Hprov Hkept.
  constructor; simpl.
  - intros sid s Hs. apply Hsocks. now apply Hshr.
  - intros t s0 Ht Hs0. apply Hshr in Hs0.
    destruct (Hold t Ht) as [Hin|Hin]; [now apply Htasks|].
    destruct (Hprov t Hin) as [Hlive|[t0 [Ht0 Heq]]]; [congruence|].
    rewrite <- Heq in *. now apply (Htasks t0).
  - intros sid uid Hm. pose proof Hm as Hm'. apply Htr, Hmem in Hm.
    destruct Hm as [[s [Hs Hu]]|[t [s [Ht [Hc [Hid Hu]]]]]].
    + destruct (Hcl sid s Hs) as [Hlive|[t [Ht Hc]]].
      * left. eauto.
      * right. exists t, s. repeat split; auto.
    + destruct (Hkept t s Ht Hc) as [[t' [Ht' Hc']]|Hgone].
      * right. exists t', s. repeat split; auto.
      * exfalso. apply Hgone. now rewrite Hid, Hu.
Qed.

Lemma Quiet_call_leaveRoom caller s st ts :
  Quiet st (fst (call_leaveRoom caller s st)) ts.
Proof.
  pose proof (frame_leaveRoom_sync s st) as [Hus Hso].
  unfold call_leaveRoom. destruct (leaveRoom_sync s st) as [st1 susp].
  now apply Quiet_same.
Qed.

Lemma socket_call_leaveRoom caller s st :
  task_socket (snd (call_leaveRoom caller s st)) = s.
Proof.
  unfold call_leaveRoom.
  now destruct (leaveRoom_sync s st) as [st1 [room|]].
Qed.

Lemma closing_call_leaveRoom s st :
  closing (snd (call_leaveRoom FromDisconnect s st)) = Some s.
Proof.
  unfold call_leaveRoom.
  now destruct (leaveRoom_sync s st) as [st1 [room|]].
Qed.

(** Closing a connected socket and firing its listener. *)
Lemma Quiet_close s sid st :
  JsMap.get (sockets st) sid = Some s ->
  Quiet st (fst (call_leaveRoom FromDisconnect s (socket_close sid st)))
    [snd (call_leaveRoom FromDisconnect s (socket_close sid st))].
Proof.
  intros Hs.
  pose proof (frame_leaveRoom_sync s (socket_close sid st)) as [Hus Hso].
  pose proof (closing_call_leaveRoom s (socket_close sid st)) as Hc.
  unfold call_leaveRoom in *.
  destruct (leaveRoom_sync s (socket_close sid st)) as [st1 susp].
  simpl in *. constructor; rewrite ?Hso, ?Hus; simpl.
  - intros x s0. rewrite get_delete.
    destruct (String.eqb sid x); [discriminate | auto].
  - intros x s0 Hx. rewrite get_delete.
    destruct (String.eqb_spec sid x) as [<-|Hne]; [|now left].
    right. eexists. split; [now left|]. congruence.
  - auto.
Qed.

Lemma Quiet_trans st st1 st2 ts1 ts2 :
  Quiet st st1 ts1 -> Quiet st1 st2 ts2 -> Quiet st st2 (ts1 ++ ts2).
Proof.
  intros [A1 A2 A3] [B1 B2 B3]. constructor.
  - auto.
  - intros sid s Hs. destruct (A2 sid s Hs) as [H1|[t [Ht Hc]]].
    + destruct (B2 sid s H1) as [H2|[t [Ht Hc]]]; [now left|].
      right. exists t. split; [apply in_or_app; now right | assumption].
    + right. exists t. split; [apply in_or_app; now left | assumption].
  - auto.
Qed.

Lemma Quiet_sweep now entries :
  forall st,
    Quiet st (fst (fst (sweep now entries st)))
      (map task_of_pending (snd (fst (sweep now entries st))))
    /\ forall p, In p (snd (fst (sweep now entries st))) ->
         exists sid, JsMap.get (sockets st) sid = Some (fst p).
Proof.
  induction entries as [|[sid c] rest IH]; intros st.
  - simpl. split; [now apply Quiet_same | intros p []].
  - simpl. destruct (isStale now c); [|apply IH].
    destruct (JsMap.get (sockets st) sid) as [s|] eqn:Hs.
    + pose proof (Quiet_close s sid st Hs) as Hq.
      unfold disconnect_sync. unfold call_leaveRoom in Hq.
      destruct (leaveRoom_sync s (socket_close sid st)) as [st1 susp].
      simpl in Hq.
      change (match susp with
              | Some room => InLeaveRoom FromDisconnect s room
              | None => AfterLeaveRoom FromDisconnect s
              end) with (task_of_pending (s, susp)) in Hq.
      destruct (IH (set_connections st1
                      (JsMap.delete (connections st1) sid))) as [IHq IHp].
      destruct (sweep now rest _) as [[st3 pend3] out3]. simpl in *.
      split.
      * apply (Quiet_trans st st1 st3 [task_of_pending (s, susp)]);
          [exact Hq|].
        destruct IHq as [B1 B2 B3]. constructor; auto.
      * intros p [<-|Hp]; [eauto|].
        destruct (IHp p Hp) as [x Hx]. exists x.
        apply (q_shrinks _ _ _ Hq). exact Hx.
    + destruct (IH (set_connections st (JsMap.delete (connections st) sid)))
        as [IHq IHp].
      destruct (sweep now rest _) as [[st3 pend3] out3]. simpl in *.
      split; [|exact IHp].
      destruct IHq as [B1 B2 B3]. constructor; auto.
Qed.

Lemma frame_join_sync s room st :
  sockets (fst (fst (join_sync s room st))) = sockets st /\
  userSockets (fst (fst (join_sync s room st))) = userSockets st /\
  forall t, In t (snd (join_sync s room st)) -> task_socket t = s.
Proof.
  unfold join_sync. cbn [connections socket_join set_adapter].
  destruct (JsMap.get (connections st) (sock_id s)); simpl;
    repeat split; try tauto.
  now intros t [<-|[]].
Qed.

Lemma not_member_deleted (us : JsMap.t JsSet.t) uid sid :
  ~ member (JsMap.modify us uid (fun m => JsSet.delete m sid)) sid uid.
Proof.
  intros [m [Hm Hin]]. apply get_modify_Some in Hm.
  destruct Hm as [[_ [v [_ ->]]]|[Hne _]]; [|congruence].
  apply In_set_delete in Hin. tauto.
Qed.

Lemma member_modify_delete (us : JsMap.t JsSet.t) uid sid x u :
  member (JsMap.modify us uid (fun m => JsSet.delete m sid)) x u ->
  member us x u.
Proof.
  intros [m [Hm Hin]]. apply get_modify_Some in Hm.
  destruct Hm as [[-> [v [Hv ->]]]|[_ Hm]].
  - apply In_set_delete in Hin. exists v. tauto.
  - now exists m.
Qed.

Lemma member_delete_entry (us : JsMap.t JsSet.t) uid x u :
  member (JsMap.delete us uid) x u -> member us x u.
Proof.
  intros [m [Hm Hin]]. rewrite get_delete in Hm.
  destruct (String.eqb uid u); [discriminate|]. now exists m.
Qed.

Lemma tracker_summary s now st :
  Quiet st (fst (fst (disconnect_tracker s now st)))
    (snd (disconnect_tracker s now st))
  /\ (forall t, In t (snd (disconnect_tracker s now st)) -> task_socket t = s)
  /\ ~ member (userSockets (fst (fst (disconnect_tracker s now st))))
         (sock_id s) (sock_userId s).
Proof.
  unfold disconnect_tracker.
  destruct (JsMap.get (userSockets st) (sock_userId s)) as [m0|] eqn:E.
  - assert (Hq : forall st' ts,
              sockets st' = sockets st ->
              userSockets st' =
                JsMap.modify (userSockets st) (sock_userId s)
                  (fun m => JsSet.delete m (sock_id s)) ->
              Quiet st st' ts).
    { intros st' ts Hso Hus. constructor; rewrite ?Hso, ?Hus; auto.
      intros x u. apply member_modify_delete. }
    destruct (JsMap.get (JsMap.modify _ _ _) (sock_userId s)) as [m|].
    + destruct (Nat.eqb (JsSet.size m) 0); simpl.
      * split; [now apply Hq|]. split; [now intros t [<-|[]]|].
        apply not_member_deleted.
      * split; [now apply Hq|]. split; [intros t []|].
        apply not_member_deleted.
    + simpl. split; [now apply Hq|]. split; [intros t []|].
      apply not_member_deleted.
  - simpl. split; [now apply Quiet_same|]. split; [intros t []|].
    intros [m [Hm _]]. congruence.
Qed.

Lemma resume_summary now d t st :
  (forall s0, JsMap.get (sockets st) (sock_id (task_socket t)) = Some s0 ->
              s0 = task_socket t) ->
  Quiet st (fst (fst (resume now d t st))) (snd (resume now d t st))
  /\ (forall t', In t' (snd (resume now d t st)) ->
                 task_socket t' = task_socket t)
  /\ (forall s, closing t = Some s ->
        (exists t', In t' (snd (resume now d t st)) /\ closing t' = Some s) \/
        ~ member (userSockets (fst (fst (resume now d t st))))
            (sock_id s) (sock_userId s)).
Proof.
  intros Hown.
  destruct t as [caller s room|caller s|s room|s room ps|
                 s room ps|s rs|s e|s]; simpl in *.
  - split; [now apply Quiet_same|]. split; [now intros t [<-|[]]|].
    intros s0 Hc. left. exists (AfterLeaveRoom caller s).
    split; [now left|]. destruct caller; simpl; congruence.
  - destruct caller as [room| | |].
    + destruct (frame_join_sync s room st) as [Hso [Hus Hts]].
      split; [now apply Quiet_same|]. split; [exact Hts | discriminate].
    + split; [now apply Quiet_same|]. split; [intros t [] | discriminate].
    + unfold disconnect_true, JsMap.has.
      destruct (JsMap.get (sockets st) (sock_id s)) as [s0|] eqn:Hs.
      * rewrite (Hown s0 eq_refl) in Hs.
        pose proof (Quiet_close s (sock_id s) st Hs) as Hq.
        pose proof (socket_call_leaveRoom FromDisconnect s
                      (socket_close (sock_id s) st)) as Hsock.
        destruct (call_leaveRoom FromDisconnect s _) as [st1 t].
        simpl in *. split; [exact Hq|].
        split; [now intros t' [<-|[]] | discriminate].
      * simpl. split; [now apply Quiet_same|].
        split; [intros t [] | discriminate].
    + destruct (tracker_summary s now st) as [Hq [Hts Hgone]].
      split; [exact Hq|]. split; [exact Hts|].
      intros s0 [= <-]. now right.
  - split; [now apply Quiet_same|]. split; [now intros t [<-|[]]|].
    discriminate.
  - split; [now apply Quiet_same|]. split; [now intros t [<-|[]]|].
    discriminate.
  - split; [now apply Quiet_same|]. split; [now intros t [<-|[]]|].
    discriminate.
  - split; [now apply Quiet_same|]. split; [intros t []|]. discriminate.
  - split; [now apply Quiet_same|]. split; [intros t []|]. discriminate.
  - split; [|split; [intros t [] | discriminate]].
    constructor; simpl; auto. intros x u. apply member_delete_entry.
Qed.

Lemma arrive_summary now op st :
  socks_ok st ->
  (forall socket, op <> OpConnect socket) ->
  Quiet st (fst (fst (arrive now op st))) (snd (arrive now op st))
  /\ forall t, In t (snd (arrive now op st)) ->
       JsMap.get (sockets st) (sock_id (task_socket t)) =
       Some (task_socket t).
Proof.
  intros Hok Hop.
  assert (Hon : forall sid h,
            (forall s, JsMap.get (sockets st) (sock_id s) = Some s ->
               Quiet st (fst (fst (h s st))) (snd (h s st)) /\
               forall t, In t (snd (h s st)) ->
                 JsMap.get (sockets st) (sock_id (task_socket t)) =
                 Some (task_socket t)) ->
            Quiet st (fst (fst (on_live sid h st))) (snd (on_live sid h st)) /\
            forall t, In t (snd (on_live sid h st)) ->
              JsMap.get (sockets st) (sock_id (task_socket t)) =
              Some (task_socket t)).
  { intros sid h Hh. unfold on_live.
    destruct (JsMap.get (sockets st) sid) as [s|] eqn:Hs.
    - apply Hh. exact (socks_ok_live st sid s Hok Hs).
    - simpl. split; [now apply Quiet_same | intros t []]. }
  assert (Hnone : Quiet st st [] /\
            forall t, In t (@nil Task) ->
              JsMap.get (sockets st) (sock_id (task_socket t)) =
              Some (task_socket t)).
  { split; [now apply Quiet_same | intros t []]. }
  assert (Hcall : forall caller s,
            JsMap.get (sockets st) (sock_id s) = Some s ->
            Quiet st (fst (call_leaveRoom caller s st))
              [snd (call_leaveRoom caller s st)] /\
            forall t, In t [snd (call_leaveRoom caller s st)] ->
              JsMap.get (sockets st) (sock_id (task_socket t)) =
              Some (task_socket t)).
  { intros caller s Hs. split; [apply Quiet_call_leaveRoom|].
    intros t [<-|[]]. now rewrite socket_call_leaveRoom. }
  destruct op; cbn [arrive].
  - now destruct (Hop socket).
  - apply Hon. intros s Hs. unfold roomJoin_start.
    destruct data as [d|]; [|exact Hnone].
    destruct (truthy (jd_roomId d)) as [room|]; [|exact Hnone].
    destruct (JsMap.get (connections st) (sock_id s)) as [c|];
      [|exact Hnone].
    destruct (truthy (roomId c)).
    + specialize (Hcall (FromRoomJoin room) s Hs).
      now destruct (call_leaveRoom (FromRoomJoin room) s st).
    + destruct (frame_join_sync s room st) as [Hso [Hus Hts]].
      split; [now apply Quiet_same|].
      intros t Ht. now rewrite (Hts t Ht).
  - apply Hon. intros s Hs. specialize (Hcall FromRoomLeave s Hs).
    now destruct (call_leaveRoom FromRoomLeave s st).
  - apply Hon. intros s Hs. unfold finished, audioToggle. simpl.
    split; [|intros t []].
    destruct data as [d|]; [|now apply Quiet_same].
    destruct (JsMap.get (connections st) (sock_id s)) as [c|];
      [|now apply Quiet_same].
    destruct (truthy (roomId c)); now apply Quiet_same.
  - apply Hon. intros s Hs. unfold adminKick_start.
    destruct (negb (String.eqb (sock_userRole s) "admin")); [exact Hnone|].
    destruct data as [d|]; [|exact Hnone].
    destruct (lookup_socket st (kd_targetSocketId d)) as [ts|] eqn:Hl;
      [|exact Hnone].
    assert (Hts : JsMap.get (sockets st) (sock_id ts) = Some ts).
    { destruct (kd_targetSocketId d) as [tid|]; [|discriminate].
      exact (socks_ok_live st tid ts Hok Hl). }
    specialize (Hcall FromAdminKick ts Hts).
    now destruct (call_leaveRoom FromAdminKick ts st).
  - apply Hon. intros s Hs. unfold finished, adminMute. simpl.
    split; [|intros t []].
    destruct (negb (String.eqb (sock_userRole s) "admin"));
      [now apply Quiet_same|].
    destruct data as [d|]; [|now apply Quiet_same].
    destruct (lookup_socket st (md_targetSocketId d)); now apply Quiet_same.
  - apply Hon. intros s Hs. unfold emergencyAlert_start.
    destruct data as [d|]; [|exact Hnone].
    destruct (JsMap.get (connections st) (sock_id s)) as [c|];
      [|exact Hnone].
    destruct (truthy (roomId c)); [|exact Hnone]. simpl.
    split; [now apply Quiet_same|]. now intros t [<-|[]].
  - apply Hon. intros s Hs. unfold finished, ping. simpl.
    split; [|intros t []].
    destruct (JsMap.get (connections st) (sock_id s)) as [c|];
      now apply Quiet_same.
  - unfold on_live.
    destruct (JsMap.get (sockets st) sid) as [s|] eqn:Hs;
      [|exact Hnone].
    pose proof (Quiet_close s sid st Hs) as Hq.
    pose proof (socket_call_leaveRoom FromDisconnect s
                  (socket_close sid st)) as Hsock.
    destruct (call_leaveRoom FromDisconnect s _) as [st1 t]. simpl in *.
    split; [exact Hq|]. intros t' [<-|[]]. rewrite Hsock.
    exact (socks_ok_live st sid s Hok Hs).
  - destruct (Quiet_sweep now (connections st) st) as [Hq Hp].
    destruct (sweep now (connections st) st) as [[st1 ps] out1].
    simpl in *. split; [exact Hq|].
    intros t Ht. apply in_map_iff in Ht. destruct Ht as [p [<- Hin]].
    destruct (Hp p Hin) as [sid Hsid].
    assert (Hsock : task_socket (task_of_pending p) = fst p)
      by (now destruct p as [s [room|]]).
    rewrite Hsock. exact (socks_ok_live st sid (fst p) Hok Hsid).
Qed.

Lemma Tracked_connect cfg socket now :
  Tracked cfg -> fresh_id (sock_id socket) cfg = true ->
  Tracked (fst (step now (Arrive (OpConnect socket)) cfg)).
Proof.
  intros [Hsocks Htasks Hmem] Hfresh. unfold fresh_id in Hfresh.
  apply andb_true_iff in Hfresh. destruct Hfresh as [Hfresh Hpend].
  apply andb_true_iff in Hfresh. destruct Hfresh as [Hlive _].
  apply negb_true_iff in Hlive. unfold JsMap.has in Hlive.
  destruct (JsMap.get (sockets (state cfg)) (sock_id socket)) as [s0|] eqn:Hs0;
    [discriminate|].
  rewrite forallb_forall in Hpend.
  constructor; cbn [step arrive finished fst snd state pending].
  - intros sid s. simpl. rewrite get_set.
    destruct (String.eqb_spec (sock_id socket) sid) as [<-|Hne];
      [now intros [= <-] | apply Hsocks].
  - intros t s1 Ht. rewrite app_nil_r in Ht. simpl. rewrite get_set.
    destruct (String.eqb_spec (sock_id socket) (sock_id (task_socket t)))
      as [Heq|Hne]; [|now apply Htasks].
    specialize (Hpend t Ht). apply negb_true_iff, String.eqb_neq in Hpend.
    congruence.
  - intros sid uid Hm. simpl in Hm.
    change (member (index_add (userSockets (state cfg)) (sock_userId socket)
                      (sock_id socket)) sid uid) in Hm.
    apply member_index_add in Hm. destruct Hm as [Hm|[-> ->]].
    + destruct (Hmem sid uid Hm) as [[s [Hs Hu]]|[t [s [Ht [Hc Hid]]]]].
      * left. exists s. split; [|assumption]. simpl. rewrite get_set.
        destruct (String.eqb_spec (sock_id socket) sid) as [<-|Hne];
          [congruence | assumption].
      * right. exists t, s. split; [|now split].
        simpl. rewrite app_nil_r. exact Ht.
    + left. exists socket. split; [|reflexivity]. simpl.
      now rewrite get_set, String.eqb_refl.
Qed.

Lemma Tracked_step now a cfg :
  Tracked cfg -> allowed a cfg = true -> Tracked (fst (step now a cfg)).
Proof.
  intros HT Hal. destruct a as [op|i].
  - destruct op;
      try (cbn [step];
           match goal with
           | |- context [arrive now ?op (state cfg)] =>
               destruct (arrive_summary now op (state cfg)
                           (tr_socks cfg HT)) as [Hq Hprov];
                 [intros socket; discriminate|];
               destruct (arrive now op (state cfg)) as [[st1 out1] ts];
               simpl in *;
               apply (Tracked_quiet cfg st1 _ _ ts HT Hq);
                 [ intros t Ht; apply in_or_app; now right
                 | intros t Ht; now apply in_app_or in Ht
                 | intros t Ht; left; now apply Hprov
                 | intros t s Ht Hc; left; exists t;
                   split; [apply in_or_app; now left | assumption] ]
           end).
    now apply Tracked_connect.
  - cbn [step]. destruct (nth_error (pending cfg) i) as [t|] eqn:Hn;
      [|exact HT].
    assert (Hin : In t (pending cfg)) by (now apply nth_error_In in Hn).
    destruct (resume_summary now (detached cfg) t (state cfg)
                (fun s0 => tr_tasks cfg HT t s0 Hin)) as [Hq [Hsock Hkept]].
    destruct (resume now (detached cfg) t (state cfg)) as [[st1 out1] ts].
    simpl in *.
    apply (Tracked_quiet cfg st1 _ _ ts HT Hq).
    + intros t' Ht'. now apply In_new_spliced.
    + intros t' Ht'. apply In_spliced in Ht'. tauto.
    + intros t' Ht'. right. exists t. split; [assumption|].
      symmetry. now apply Hsock.
    + intros t0 s Ht0 Hc.
      destruct (In_unspliced Task t0 t ts (pending cfg) i Hn Ht0)
        as [->|Hrest].
      * destruct (Hkept s Hc) as [[t' [Ht' Hc']]|Hgone]; [|now right].
        left. exists t'. split; [now apply In_new_spliced | assumption].
      * left. now exists t0.
Qed.

Lemma Tracked_init : Tracked (mkConfig init [] []).
Proof.
  constructor; simpl.
  - intros sid s H. discriminate.
  - intros t s0 [].
  - intros sid uid [m [H _]]. discriminate.
Qed.

Theorem reachable_Tracked cfg : reachable cfg -> Tracked cfg.
Proof.
  induction 1 as [|cfg now a Hr IH Hal]; [apply Tracked_init|].
  now apply Tracked_step.
Qed.

(** ** Rosters *)

Lemma roster_of_members st room (l : list string) :
  (forall x, In x l ->
     exists c, JsMap.get (connections st) x = Some c /\
               roomId c = Some room) ->
  let roster :=
    flat_map
      (fun socketId =>
         match JsMap.get (connections st) socketId with
         | Some conn =>
             [mkParticipant (userId conn) (userName conn) (userRole conn)
                socketId
                (match audioMuted conn with Some true => true | _ => false end)]
         | None => []
         end) l in
  map p_socketId roster = l /\
  forall p, In p roster ->
    exists c, JsMap.get (connections st) (p_socketId p) = Some c /\
      roomId c = Some room /\
      p = mkParticipant (userId c) (userName c) (userRole c) (p_socketId p)
            (match audioMuted c with Some true => true | _ => false end).
Proof.
  induction l as [|x l IH]; intros Hall; simpl.
  - split; [reflexivity | intros p []].
  - destruct (Hall x (or_introl eq_refl)) as [c [Hc Hr]]. rewrite Hc. simpl.
    destruct IH as [IH1 IH2]; [intros y Hy; apply Hall; now right|].
    split; [now rewrite IH1|].
    intros p [<-|Hp]; [|now apply IH2]. simpl. exists c. now repeat split.
Qed.

Lemma roster_of_settled st room now :
  settled st ->
  (forall s, JsMap.get (rooms st) room = Some s ->
     map p_socketId (getRoomParticipants room st) = s
     /\ rs_participantCount (getRoomState room now st) = JsSet.size s
     /\ forall p, In p (getRoomParticipants room st) ->
          exists c, JsMap.get (connections st) (p_socketId p) = Some c /\
            roomId c = Some room /\
            p = mkParticipant (userId c) (userName c) (userRole c)
                  (p_socketId p)
                  (match audioMuted c with Some true => true | _ => false end))
  /\ (JsMap.get (rooms st) room = None ->
      getRoomParticipants room st = [] /\
      rs_participantCount (getRoomState room now st) = 0).
Proof.
  intros Hr. apply settled_Inv in Hr. split.
  - intros s Hs.
    assert (Hall : forall x, In x s ->
              exists c, JsMap.get (connections st) x = Some c /\
                        roomId c = Some room).
    { intros x Hx. apply (inv_agree st Hr). now apply (member_get _ x room s). }
    destruct (roster_of_members st room s Hall) as [H1 H2].
    unfold getRoomState, getRoomParticipants. rewrite Hs. simpl.
    split; [assumption|]. split; [|assumption].
    unfold JsSet.size. rewrite <- H1 at 2. now rewrite length_map.
  - intros Hnone. unfold getRoomState, getRoomParticipants.
    rewrite Hnone. now split.
Qed.

Lemma tracker_of_settled st :
  settled st ->
  (forall sid uid,
     member (userSockets st) sid uid <->
     exists c, JsMap.get (connections st) sid = Some c /\ userId c = uid)
  /\ sets_ok (userSockets st).
Proof.
  intros Hr. pose proof (settled_Inv st Hr) as HI.
  pose proof (settled_Inv2 st Hr) as H2. split.
  - intros sid uid. split.
    + intros Hm. destruct (inv_user st HI sid uid Hm) as [s [Hs Hu]].
      destruct (JsMap.get (connections st) sid) as [c|] eqn:Hc.
      * exists c. split; [reflexivity|].
        destruct (inv_identity st HI sid s c Hs Hc) as [Hid _]. congruence.
      * apply (inv_live st HI) in Hc. congruence.
    + intros [c [Hc <-]]. now apply (inv2_user_member st H2).
  - apply (inv2_user_sets st H2).
Qed.


Lemma roster_ids st (l : list string) :
  let roster :=
    flat_map
      (fun socketId =>
         match JsMap.get (connections st) socketId with
         | Some conn =>
             [mkParticipant (userId conn) (userName conn) (userRole conn)
                socketId
                (match audioMuted conn with Some true => true | _ => false end)]
         | None => []
         end) l in
  map p_socketId roster = filter (JsMap.has (connections st)) l /\
  forall p, In p roster ->
    In (p_socketId p) l /\
    exists c, JsMap.get (connections st) (p_socketId p) = Some c /\
      p = mkParticipant (userId c) (userName c) (userRole c) (p_socketId p)
            (match audioMuted c with Some true => true | _ => false end).
Proof.
  induction l as [|x l [IH1 IH2]]; simpl.
  - split; [reflexivity | intros p []].
  - unfold JsMap.has.
    destruct (JsMap.get (connections st) x) as [c|] eqn:Hc; simpl.
    + split; [now rewrite IH1|].
      intros p [<-|Hp].
      * simpl. split; [now left|]. exists c. now split.
      * destruct (IH2 p Hp) as [Hin Hex]. split; [now right | exact Hex].
    + split; [exact IH1|]. intros p Hp.
      destruct (IH2 p Hp) as [Hin Hex]. split; [now right | exact Hex].
Qed.

Lemma filter_all (A : Type) (keep : A -> bool) (l : list A) :
  (forall x, In x l -> keep x = true) -> filter keep l = l.
Proof.
  induction l as [|a l IH]; simpl; intros H; [reflexivity|].
  rewrite (H a (or_introl eq_refl)). f_equal. apply IH. auto.
Qed.

(** X1. In any state, the roster of a room lists, in the order of the
    membership set, the members that have a registry entry, each with the
    identity and the muted flag of that entry; a member without an entry is
    skipped and a room that does not exist has the empty roster.  The room
    state carries that roster and its length.  When every member has an
    entry, the roster lists exactly the membership set and the count is the
    size of the set; when registry and room index agree, every session
    listed has the room as its room identifier. *)
Theorem roster_exact st room now :
  let members :=
    match JsMap.get (rooms st) room with Some s => s | None => [] end in
  let ps := getRoomParticipants room st in
  map p_socketId ps = filter (JsMap.has (connections st)) members
  /\ (forall p, In p ps ->
        In (p_socketId p) members /\
        exists c, JsMap.get (connections st) (p_socketId p) = Some c /\
          p = mkParticipant (userId c) (userName c) (userRole c)
                (p_socketId p)
                (match audioMuted c with Some true => true | _ => false end))
  /\ getRoomState room now st = mkRoomState room ps (List.length ps) now
  /\ ((forall m, In m members -> JsMap.get (connections st) m <> None) ->
      map p_socketId ps = members /\
      rs_participantCount (getRoomState room now st) = JsSet.size members)
  /\ (registry_index_agree st ->
      forall p, In p ps ->
        exists c, JsMap.get (connections st) (p_socketId p) = Some c /\
                  roomId c = Some room).
Proof.
  intros members ps.
  assert (Hroster : map p_socketId ps =
                    filter (JsMap.has (connections st)) members /\
            forall p, In p ps ->
              In (p_socketId p) members /\
              exists c, JsMap.get (connections st) (p_socketId p) = Some c /\
                p = mkParticipant (userId c) (userName c) (userRole c)
                      (p_socketId p)
                      (match audioMuted c with
                       | Some true => true
                       | _ => false
                       end)).
  { unfold ps, members, getRoomParticipants.
    destruct (JsMap.get (rooms st) room) as [s|].
    - apply roster_ids.
    - split; [reflexivity | intros p []]. }
  destruct Hroster as [Hids Hps].
  split; [exact Hids|]. split; [exact Hps|]. split; [reflexivity|].
  split.
  - intros Hall.
    assert (Heq : map p_socketId ps = members).
    { rewrite Hids. apply filter_all. intros m Hm. specialize (Hall m Hm).
      unfold JsMap.has. now destruct (JsMap.get (connections st) m). }
    split; [exact Heq|]. simpl. fold ps. unfold JsSet.size.
    now rewrite <- Heq, length_map.
  - intros [Hagree _] p Hp. destruct (Hps p Hp) as [Hin [c [Hc _]]].
    exists c. split; [exact Hc|]. apply (Hagree _ c Hc).
    unfold members in Hin.
    destruct (JsMap.get (rooms st) room) as [s|] eqn:Hs; [|destruct Hin].
    now exists s.
Qed.

(** ** The multiplicity tracker *)

(** X2. Whatever the schedule, the tracker lists no user twice and no
    connection twice under a user, and every connection it lists under a
    user is accounted for: its socket was authenticated as that user and
    is connected, or has been closed and its ['disconnect'] listener has
    not yet reached line 311.  When no handler is suspended, every listed
    connection is a connected socket of that user. *)
Theorem multiplicity_tracker cfg :
  reachable cfg ->
  NoDup (JsMap.keys (userSockets (state cfg)))
  /\ (forall uid s, JsMap.get (userSockets (state cfg)) uid = Some s ->
                    NoDup s)
  /\ (forall sid uid, member (userSockets (state cfg)) sid uid ->
                      accounted cfg sid uid)
  /\ (pending cfg = [] ->
      forall sid uid, member (userSockets (state cfg)) sid uid ->
        exists s, JsMap.get (sockets (state cfg)) sid = Some s /\
                  sock_id s = sid /\ sock_userId s = uid).
Proof.
  intros Hr. destruct (reachable_Wf cfg Hr) as [HW _].
  pose proof (reachable_Tracked cfg Hr) as HT.
  split; [apply (wf_user_keys _ HW)|].
  split; [apply (wf_user_sets _ HW)|].
  split; [apply (tr_members cfg HT)|].
  intros Hnone sid uid Hm.
  destruct (tr_members cfg HT sid uid Hm) as [[s [Hs Hu]]|[t [s [Ht _]]]].
  - exists s. split; [assumption|]. split; [|assumption].
    exact (tr_socks cfg HT sid s Hs).
  - rewrite Hnone in Ht. destruct Ht.
Qed.

(** ** Rejected and ignored requests *)

(** X3. [room:join] without a payload answers [Failed to join room], and
    with a missing or empty room id [Room ID required]; in both cases only
    to the sender, and the state is unchanged. *)
Theorem room_join_rejects_bad_payload st sid c uname now :
  settled st ->
  JsMap.get (connections st) sid = Some c ->
  run now (OpRoomJoin sid None) st =
    (st, [Emit [sid] (EvError "Failed to join room")])
  /\ run now (OpRoomJoin sid (Some (mkJoinData None uname))) st =
    (st, [Emit [sid] (EvError "Room ID required")])
  /\ run now (OpRoomJoin sid (Some (mkJoinData (Some "") uname))) st =
    (st, [Emit [sid] (EvError "Room ID required")]).
Proof.
  intros Hr Hc. apply settled_Inv in Hr.
  destruct (session_socket st sid c Hr Hc) as [s [Hs [Hid _]]].
  simpl. unfold on_socket. rewrite Hs. simpl. rewrite Hid. now repeat split.
Qed.

(** X4. An admin's [admin:kick] for a target that is not connected (or
    with no target id) answers [Participant not found] to the admin and
    changes nothing; without any payload it does nothing at all. *)
Theorem kick_unknown_target st sid ca d now :
  settled st ->
  JsMap.get (connections st) sid = Some ca ->
  userRole ca = "admin" ->
  (forall tid, kd_targetSocketId d = Some tid ->
               JsMap.get (connections st) tid = None) ->
  run now (OpAdminKick sid (Some d)) st =
    (st, [Emit [sid] (EvError "Participant not found")])
  /\ run now (OpAdminKick sid None) st = (st, []).
Proof.
  intros Hr Hca Hrole Hnone. apply settled_Inv in Hr.
  destruct (session_socket st sid ca Hr Hca) as [s [Hs [Hid [_ [_ Hsame]]]]].
  simpl. unfold on_socket, adminKick. rewrite Hs, <- Hsame, Hrole. simpl.
  assert (Hl : lookup_socket st (kd_targetSocketId d) = None).
  { destruct (kd_targetSocketId d) as [tid|]; [|reflexivity]. simpl.
    apply (inv_live st Hr). now apply Hnone. }
  rewrite Hl, Hid. now split.
Qed.

(** X5. An admin's [admin:mute] sends [forced-mute], with the admin's
    name, to the target alone and changes no state: the target's muted flag
    is not touched.  For a target that is not connected, or without a
    payload, it does nothing and reports nothing. *)
Theorem admin_mute_effects st sid ca now :
  settled st ->
  JsMap.get (connections st) sid = Some ca ->
  userRole ca = "admin" ->
  (forall tid ct,
     JsMap.get (connections st) tid = Some ct ->
     run now (OpAdminMute sid (Some (mkMuteData (Some tid)))) st =
       (st, [Emit [tid] (EvForcedMute (userName ca) now)]))
  /\ (forall tid,
        JsMap.get (connections st) tid = None ->
        run now (OpAdminMute sid (Some (mkMuteData (Some tid)))) st = (st, []))
  /\ run now (OpAdminMute sid (Some (mkMuteData None))) st = (st, [])
  /\ run now (OpAdminMute sid None) st = (st, []).
Proof.
  intros Hr Hca Hrole. apply settled_Inv in Hr.
  destruct (session_socket st sid ca Hr Hca)
    as [s [Hs [Hid [_ [Hname Hsame]]]]].
  simpl. unfold on_socket, adminMute. rewrite Hs, <- Hsame, Hrole. simpl.
  split; [|split; [|now split]].
  - intros tid ct Hct.
    destruct (session_socket st tid ct Hr Hct) as [ts [Hts [Htid _]]].
    now rewrite Hts, Htid, Hname.
  - intros tid Hnone. apply (inv_live st Hr) in Hnone. now rewrite Hnone.
Qed.

(** ** More on the sweep *)

Lemma sockets_onDisconnect s now st :
  sockets (fst (onDisconnect s now st)) = sockets st.
Proof.
  unfold onDisconnect, disconnect_sync.
  pose proof (frame_leaveRoom_sync s st) as [_ Hso].
  destruct (leaveRoom_sync s st) as [st1 susp].
  rewrite disconnect_resume_state. simpl in *. exact Hso.
Qed.

Lemma sockets_reapOne now sid st x :
  JsMap.get (sockets (reapOne now sid st)) x =
  if String.eqb sid x then None else JsMap.get (sockets st) x.
Proof.
  unfold reapOne. destruct (JsMap.get (sockets st) sid) as [s|] eqn:Hs.
  - rewrite sockets_onDisconnect. simpl. apply get_delete.
  - simpl. destruct (String.eqb_spec sid x) as [<-|_]; [assumption|reflexivity].
Qed.

Lemma sockets_fold_reap now entries :
  forall st x,
  JsMap.get (sockets (fold_left (reapEntry now) entries st)) x =
  if JsSet.has (map fst (filter (fun e => isStale now (snd e)) entries)) x
  then None else JsMap.get (sockets st) x.
Proof.
  induction entries as [|[sid c] rest IH]; intros st x; [reflexivity|].
  simpl. rewrite IH. unfold reapEntry. simpl.
  destruct (isStale now c); [|reflexivity]. simpl.
  rewrite sockets_reapOne, (String.eqb_sym x sid).
  destruct (String.eqb sid x); simpl; [|reflexivity].
  now destruct (JsSet.has _ x).
Qed.

Lemma sockets_cleanup now st x :
  Inv st ->
  JsMap.get (sockets (fst (cleanupStaleConnections now st))) x =
  if JsSet.has (staleIds now st) x then None else JsMap.get (sockets st) x.
Proof.
  intros HI.
  rewrite cleanup_fold by
    (try apply (inv_keys st HI); now apply Inv_socks_ok).
  apply sockets_fold_reap.
Qed.

Lemma sweep_outputs now entries :
  forall st o, In o (snd (sweep now entries st)) ->
  exists sid c, o = Terminate sid /\ In (sid, c) entries /\
                isStale now c = true.
Proof.
  induction entries as [|[sid c] rest IH]; intros st o Hin; [destruct Hin|].
  simpl in Hin. destruct (isStale now c) eqn:Est.
  - destruct (JsMap.get (sockets st) sid) as [s|].
    + destruct (disconnect_sync s (socket_close sid st)) as [st' p].
      destruct (sweep now rest _) as [[st3 ps3] out3] eqn:E.
      simpl in Hin. destruct Hin as [<-|Hin].
      * exists sid, c. split; [reflexivity|]. split; [now left | assumption].
      * assert (Hin' : In o (snd (sweep now rest
                  (set_connections st'
                     (JsMap.delete (connections st') sid)))))
          by now rewrite E.
        destruct (IH _ o Hin') as [x [cx [H1 [H2 H3]]]].
        exists x, cx. split; [assumption|]. split; [now right | assumption].
    + destruct (sweep now rest _) as [[st3 ps3] out3] eqn:E.
      simpl in Hin.
      assert (Hin' : In o (snd (sweep now rest
                (set_connections st (JsMap.delete (connections st) sid)))))
        by now rewrite E.
      destruct (IH _ o Hin') as [x [cx [H1 [H2 H3]]]].
      exists x, cx. split; [assumption|]. split; [now right | assumption].
  - destruct (IH _ o Hin) as [x [cx [H1 [H2 H3]]]].
    exists x, cx. split; [assumption|]. split; [now right | assumption].
Qed.

Lemma resume_outputs p now st o :
  In o (snd (disconnect_resume p now st)) -> exists aud ev, o = Emit aud ev.
Proof.
  destruct p as [s [room|]]; unfold disconnect_resume; simpl.
  - intros [<-|[]]. eauto.
  - intros [].
Qed.

Lemma resume_all_outputs now ps :
  forall st o, In o (snd (resume_all now ps st)) ->
  exists aud ev, o = Emit aud ev.
Proof.
  induction ps as [|p ps IH]; intros st o Hin; [destruct Hin|].
  simpl in Hin.
  pose proof (resume_outputs p now st o) as Hp.
  destruct (disconnect_resume p now st) as [st1 out1].
  pose proof (IH st1 o) as Hps.
  destruct (resume_all now ps st1) as [st2 out2]. simpl in *.
  apply in_app_or in Hin. destruct Hin; auto.
Qed.

Lemma cleanup_terminates_stale now st sid :
  In (Terminate sid) (snd (cleanupStaleConnections now st)) ->
  In sid (staleIds now st).
Proof.
  unfold cleanupStaleConnections.
  pose proof (sweep_outputs now (connections st) st (Terminate sid)) as Hs.
  destruct (sweep now (connections st) st) as [[st1 ps] out1].
  pose proof (resume_all_outputs now ps st1 (Terminate sid)) as Hr.
  destruct (resume_all now ps st1) as [st2 out2]. simpl in *.
  intros Hin. apply in_app_or in Hin. destruct Hin as [Hin|Hin].
  - destruct (Hs Hin) as [x [c [[= <-] [Hx Hst]]]].
    unfold staleIds. apply in_map_iff. exists (sid, c).
    split; [reflexivity|]. apply filter_In. now split.
  - destruct (Hr Hin) as [aud [ev Habs]]. discriminate.
Qed.

Lemma sweep_none now entries st :
  (forall e, In e entries -> isStale now (snd e) = false) ->
  sweep now entries st = (st, [], []).
Proof.
  induction entries as [|[sid c] rest IH]; intros Hall; [reflexivity|].
  pose proof (Hall (sid, c) (or_introl eq_refl)) as Hst. simpl in Hst.
  simpl. rewrite Hst. apply IH.
  intros e He. apply Hall. now right.
Qed.

Lemma not_stale_not_in_staleIds now st sid c :
  Inv st -> JsMap.get (connections st) sid = Some c ->
  isStale now c = false -> ~ In sid (staleIds now st).
Proof.
  intros HI Hc Hst Hin. unfold staleIds in Hin. apply in_map_iff in Hin.
  destruct Hin as [[x c'] [Hx Hin]]. simpl in Hx. subst x.
  apply filter_In in Hin. destruct Hin as [Hin Hst']. simpl in Hst'.
  apply (In_get _ _ _ _ (inv_keys st HI)) in Hin. congruence.
Qed.

Lemma fresh_survives st sid c now :
  settled st ->
  JsMap.get (connections st) sid = Some c ->
  (now - lastActivity c <= STALE_THRESHOLD)%Z ->
  let r := run now OpCleanup st in
  JsMap.get (connections (fst r)) sid = Some c
  /\ JsMap.get (sockets (fst r)) sid = JsMap.get (sockets st) sid
  /\ (forall room, member (rooms (fst r)) sid room <->
                   member (rooms st) sid room)
  /\ (forall uid, member (userSockets (fst r)) sid uid <->
                  member (userSockets st) sid uid)
  /\ ~ In (Terminate sid) (snd r).
Proof.
  intros Hr Hc Hfresh r.
  pose proof (settled_Inv st Hr) as HI.
  assert (Hr' : settled (fst r)) by (now apply settled_step).
  assert (Hst : isStale now c = false).
  { unfold isStale. rewrite Z.gtb_ltb. apply Z.ltb_ge. exact Hfresh. }
  pose proof (not_stale_not_in_staleIds now st sid c HI Hc Hst) as Hns.
  assert (Hhas : JsSet.has (staleIds now st) sid = false)
    by now apply has_false_not_In.
  assert (Hc' : JsMap.get (connections (fst r)) sid = Some c).
  { unfold r. simpl. rewrite (connections_cleanup now st sid HI).
    now rewrite Hhas. }
  split; [assumption|]. split; [|split; [|split]].
  - unfold r. simpl. rewrite (sockets_cleanup now st sid HI). now rewrite Hhas.
  - intros room. unfold r. simpl. rewrite (rooms_cleanup now st sid room HI).
    tauto.
  - intros uid.
    rewrite (proj1 (tracker_of_settled (fst r) Hr') sid uid).
    rewrite (proj1 (tracker_of_settled st Hr) sid uid).
    rewrite Hc', Hc. tauto.
  - intros Hin. apply Hns. now apply cleanup_terminates_stale.
Qed.

(** X6. A session whose last activity (last heartbeat, else connection
    time) is at most five minutes old survives a sweep untouched: registry
    entry, socket, room memberships and multiplicity entries are as
    before, and its connection is not terminated.  Exactly five minutes is
    not stale. *)
Theorem fresh_session_survives_sweep st sid c now :
  settled st ->
  JsMap.get (connections st) sid = Some c ->
  (now - lastActivity c <= STALE_THRESHOLD)%Z ->
  let r := run now OpCleanup st in
  JsMap.get (connections (fst r)) sid = Some c
  /\ JsMap.get (sockets (fst r)) sid = JsMap.get (sockets st) sid
  /\ (forall room, member (rooms (fst r)) sid room <->
                   member (rooms st) sid room)
  /\ (forall uid, member (userSockets (fst r)) sid uid <->
                  member (userSockets st) sid uid)
  /\ ~ In (Terminate sid) (snd r).
Proof. exact (fresh_survives st sid c now). Qed.

(** X7. A heartbeat keeps a session: after [ping] at time [now], every
    sweep up to five minutes later leaves the session registered, with the
    heartbeat time recorded; the ping is acknowledged exactly when the
    client passed a callback. *)
Theorem heartbeat_keeps_session st sid c callback now later :
  settled st ->
  JsMap.get (connections st) sid = Some c ->
  (later - now <= STALE_THRESHOLD)%Z ->
  let r := run now (OpPing sid callback) st in
  snd r = (if callback then [Ack sid now] else [])
  /\ JsMap.get (connections (fst r)) sid = Some (with_lastPing now c)
  /\ JsMap.get (connections (fst (run later OpCleanup (fst r)))) sid =
     Some (with_lastPing now c).
Proof.
  intros Hr Hc Hlate r.
  pose proof (settled_Inv st Hr) as HI.
  destruct (session_socket st sid c HI Hc) as [s [Hs [Hid _]]].
  assert (Hr' : settled (fst r)) by (now apply settled_step).
  assert (Hrun : r =
    (set_connections st
       (JsMap.modify (connections st) sid (with_lastPing now)),
     if callback then [Ack sid now] else [])).
  { unfold r. simpl. unfold on_socket, ping. now rewrite Hs, Hid, Hc. }
  assert (Hc' : JsMap.get (connections (fst r)) sid =
                Some (with_lastPing now c)).
  { rewrite Hrun. simpl. now rewrite get_modify, String.eqb_refl, Hc. }
  split; [now rewrite Hrun|]. split; [assumption|].
  apply (fresh_survives (fst r) sid (with_lastPing now c) later
           Hr' Hc').
  exact Hlate.
Qed.

(** X8. The sweep is idempotent: a second sweep, at the same or an earlier
    clock reading, terminates no one, emits nothing and leaves the state
    as the first sweep left it. *)
Theorem sweep_idempotent st now now' :
  settled st ->
  (now' <= now)%Z ->
  run now' OpCleanup (fst (run now OpCleanup st)) =
  (fst (run now OpCleanup st), []).
Proof.
  intros Hr Hle. pose proof (settled_Inv st Hr) as HI.
  pose proof (Inv_cleanup now st HI) as HI'.
  simpl. set (st' := fst (cleanupStaleConnections now st)) in *.
  unfold cleanupStaleConnections at 1.
  rewrite sweep_none; [reflexivity|].
  intros [x c'] Hin. simpl.
  apply (In_get _ _ _ _ (inv_keys st' HI')) in Hin.
  unfold st' in Hin. rewrite (connections_cleanup now st x HI) in Hin.
  destruct (JsSet.has (staleIds now st) x) eqn:Ehas; [discriminate|].
  apply has_false_not_In in Ehas.
  destruct (isStale now c') eqn:Est.
  - exfalso. apply Ehas. now apply (stale_in_staleIds now st x c').
  - unfold isStale in *. rewrite Z.gtb_ltb in Est. apply Z.ltb_ge in Est.
    rewrite Z.gtb_ltb. apply Z.ltb_ge. lia.
Qed.

(** ** Disconnection *)

Lemma modify_absent V (m : JsMap.t V) k f :
  JsMap.get m k = None -> JsMap.modify m k f = m.
Proof.
  induction m as [|[k0 v0] m IH]; simpl; [reflexivity|].
  destruct (String.eqb k0 k); [discriminate|].
  intros H. now rewrite IH.
Qed.

Lemma in_room_delete st st' sid room :
  adapter st' = JsMap.delete (adapter st) sid ->
  in_room st' room = in_room_except st room sid.
Proof.
  intros H. unfold in_room_except, in_room. rewrite H. clear H.
  induction (adapter st) as [|[k rs] l IH]; simpl; [reflexivity|].
  destruct (String.eqb k sid) eqn:E; simpl.
  - destruct (JsSet.has rs room); simpl; rewrite ?E; simpl; exact IH.
  - destruct (JsSet.has rs room); simpl; rewrite ?E; simpl; now rewrite IH.
Qed.

Lemma onDisconnect_outputs st s c now :
  JsMap.get (connections st) (sock_id s) = Some c ->
  snd (onDisconnect s now (socket_close (sock_id s) st)) =
  match truthy (roomId c) with
  | Some room =>
      [Emit (in_room_except st room (sock_id s))
         (EvParticipantLeft (sock_userId s) (sock_userName s) now)]
  | None => []
  end.
Proof.
  intros Hc. unfold onDisconnect, disconnect_sync.
  destruct (truthy (roomId c)) as [room|] eqn:Ht.
  - rewrite (leaveRoom_sync_in (socket_close (sock_id s) st) s c room Hc Ht).
    unfold disconnect_resume, leaveRoom_rest. simpl. f_equal. f_equal.
    apply in_room_delete. simpl. apply modify_absent.
    now rewrite get_delete, String.eqb_refl.
  - rewrite leaveRoom_sync_out.
    + reflexivity.
    + simpl. intros c'. rewrite Hc. now intros [= <-].
Qed.


Lemma r_users_sRem key m r : r_users (sRem key m r) = r_users r.
Proof.
  unfold sRem. now destruct (JsMap.get (r_participants r) key).
Qed.

Lemma redis_onDisconnect s now st :
  r_users (redis (fst (onDisconnect s now st))) =
  r_users (offline_redis (userSockets st) (sock_userId s) (sock_id s) now
             (redis st)).
Proof.
  unfold onDisconnect, disconnect_sync, leaveRoom_sync.
  destruct (JsMap.get (connections st) (sock_id s)) as [c|].
  - destruct (truthy (roomId c)) as [room|].
    + rewrite disconnect_resume_state. simpl. unfold offline_redis.
      destruct (JsMap.get (userSockets st) (sock_userId s)) as [m|];
        [|apply r_users_sRem].
      destruct (Nat.eqb _ 0); simpl; now rewrite r_users_sRem.
    + now rewrite disconnect_resume_state.
  - now rewrite disconnect_resume_state.
Qed.

Lemma userSockets_onDisconnect s now st :
  userSockets (fst (onDisconnect s now st)) =
  index_remove (userSockets st) (sock_userId s) (sock_id s).
Proof.
  unfold onDisconnect, disconnect_sync.
  pose proof (frame_leaveRoom_sync s st) as [Hus _].
  destruct (leaveRoom_sync s st) as [st1 susp].
  rewrite disconnect_resume_state. simpl in *. now rewrite Hus.
Qed.

(** X10. Multi-device presence: when a connection closes while the same
    user has another connection, no status is written and the user keeps
    its entry in the tracker; when it is the user's last connection, the
    status [offline] is written under [user:<id>] with the time of the
    disconnect and the user's entry is deleted. *)
Theorem offline_only_for_last_device st sid c now :
  settled st ->
  JsMap.get (connections st) sid = Some c ->
  let st' := fst (run now (OpDisconnect sid) st) in
  ((exists sid' c', sid' <> sid /\
      JsMap.get (connections st) sid' = Some c' /\ userId c' = userId c) ->
   r_users (redis st') = r_users (redis st) /\
   exists m, JsMap.get (userSockets st') (userId c) = Some m)
  /\ ((forall sid' c', JsMap.get (connections st) sid' = Some c' ->
                       userId c' = userId c -> sid' = sid) ->
      JsMap.get (r_users (redis st')) (user_key (userId c)) =
        Some ("offline", now) /\
      JsMap.get (userSockets st') (userId c) = None).
Proof.
  intros Hr Hc st'. pose proof (settled_Inv st Hr) as HI.
  destruct (session_socket st sid c HI Hc) as [s [Hs [Hid [Huid _]]]].
  destruct (tracker_of_settled st Hr) as [Hmem Hok].
  assert (Hrun : st' = fst (onDisconnect s now (socket_close (sock_id s) st))).
  { unfold st'. simpl. unfold on_socket. now rewrite Hs, Hid. }
  assert (Hm : member (userSockets st) sid (userId c))
    by (apply Hmem; eauto).
  destruct Hm as [m [Hget Hin]].
  assert (Hred : r_users (redis st') =
            r_users (if Nat.eqb (JsSet.size (JsSet.delete m sid)) 0
                     then updateUserStatus (userId c) "offline" now (redis st)
                     else redis st)).
  { rewrite Hrun, redis_onDisconnect. simpl. unfold offline_redis.
    now rewrite <- Huid, Hid, Hget. }
  assert (Hus : JsMap.get (userSockets st') (userId c) =
            if Nat.eqb (JsSet.size (JsSet.delete m sid)) 0 then None
            else Some (JsSet.delete m sid)).
  { rewrite Hrun, userSockets_onDisconnect. simpl.
    now rewrite get_index_remove, <- Huid, Hid, String.eqb_refl, Hget. }
  split.
  - intros [sid' [c' [Hne [Hc' Hu]]]].
    assert (Hin' : In sid' (JsSet.delete m sid)).
    { apply In_set_delete. split; [|assumption].
      destruct (proj2 (Hmem sid' (userId c))) as [m' [Hget' Hin']]; [eauto|].
      congruence. }
    destruct (Nat.eqb (JsSet.size (JsSet.delete m sid)) 0) eqn:E.
    + apply length_zero_nil in E. rewrite E in Hin'. destruct Hin'.
    + split; [assumption | eauto].
  - intros Honly.
    assert (E : Nat.eqb (JsSet.size (JsSet.delete m sid)) 0 = true).
    { apply length_zero_nil.
      destruct (JsSet.delete m sid) as [|x l] eqn:Ed; [reflexivity|].
      exfalso.
      assert (Hx : In x (JsSet.delete m sid)) by (rewrite Ed; now left).
      apply In_set_delete in Hx. destruct Hx as [Hx Hne]. apply Hne.
      destruct (proj1 (Hmem x (userId c))) as [c' [Hc' Hu]].
      - now apply (member_get _ x (userId c) m).
      - now apply (Honly x c'). }
    rewrite E in Hred, Hus. split; [|assumption].
    rewrite Hred. simpl. now rewrite get_set, String.eqb_refl.
Qed.

Lemma connections_leaveRoom_other s now st x :
  x <> sock_id s ->
  JsMap.get (connections (fst (leaveRoom s now st))) x =
  JsMap.get (connections st) x.
Proof.
  intros Hne. unfold leaveRoom, leaveRoom_sync.
  destruct (JsMap.get (connections st) (sock_id s)) as [c|]; [|reflexivity].
  destruct (truthy (roomId c)); [|reflexivity]. simpl.
  rewrite get_modify. apply not_eq_sym in Hne. apply String.eqb_neq in Hne.
  now rewrite Hne.
Qed.


(** ** Joining a room *)

Lemma roomJoin_fresh st s d room c now :
  truthy (jd_roomId d) = Some room ->
  JsMap.get (connections st) (sock_id s) = Some c ->
  truthy (roomId c) = None ->
  roomJoin s (Some d) now st =
  (let st5 := joined s room st in
   let participants := getRoomParticipants room st5 in
   (st5,
    [Emit [sock_id s] (EvRoomJoined room participants now);
     Emit (socket_to st5 room (sock_id s))
       (EvParticipantJoined (sock_userId s) (sock_userName s) (sock_id s)
          now);
     Emit [sock_id s]
       (EvRoomState room participants (List.length participants) now)])).
Proof.
  intros Ht Hc Hnone. unfold roomJoin. rewrite Ht, Hc, Hnone. reflexivity.
Qed.

Lemma with_roomId_twice r r' c :
  with_roomId r (with_roomId r' c) = with_roomId r c.
Proof. reflexivity. Qed.

Lemma connections_roomJoin st s d room c now m :
  truthy (jd_roomId d) = Some room ->
  JsMap.get (connections st) (sock_id s) = Some c ->
  JsMap.get (connections (fst (roomJoin s (Some d) now st))) m =
  if String.eqb (sock_id s) m then Some (with_roomId (Some room) c)
  else JsMap.get (connections st) m.
Proof.
  intros Ht Hc. rewrite (roomJoin_state st s d room c now Ht Hc).
  unfold joined. simpl. rewrite get_modify.
  destruct (String.eqb_spec (sock_id s) m) as [<-|Hne].
  - destruct (truthy (roomId c)) as [old|] eqn:Hold.
    + rewrite (leaveRoom_in st s now c old Hc Hold). simpl.
      now rewrite get_modify, String.eqb_refl, Hc.
    + now rewrite Hc.
  - destruct (truthy (roomId c)); [|reflexivity].
    apply connections_leaveRoom_other. congruence.
Qed.

(** X12. [room:join] with a room id: the session ends up in that room and
    in no other; the other sockets of the room it was in, if any, get
    [participant:left]; the sender gets [room:joined] and [room:state] with
    the roster of the room after the join, which lists exactly the members
    of the room, the sender among them.  [participant:joined] goes to the
    sockets that have joined the room and not the room named by the
    sender's id: every other member of the room when the room is not named
    by the sender's id, and no one when it is. *)
Theorem room_join_effects st sid c room uname now :
  settled st ->
  JsMap.get (connections st) sid = Some c ->
  room <> "" ->
  let r := run now (OpRoomJoin sid (Some (mkJoinData (Some room) uname))) st in
  let ps := getRoomParticipants room (fst r) in
  let told := socket_to (fst r) room sid in
  snd r =
    (match roomId c with
     | Some old =>
         [Emit (in_room_except st old sid)
            (EvParticipantLeft (userId c) (userName c) now)]
     | None => []
     end ++
     [Emit [sid] (EvRoomJoined room ps now);
      Emit told (EvParticipantJoined (userId c) (userName c) sid now);
      Emit [sid] (EvRoomState room ps (List.length ps) now)])%list
  /\ (forall old m, In m (in_room_except st old sid) <->
                    m <> sid /\ subscribed st m old)
  /\ (forall m, In m told <->
                subscribed (fst r) m room /\ ~ subscribed (fst r) m sid)
  /\ (room <> sid ->
      forall m, member (rooms st) m room -> m <> sid -> In m told)
  /\ (room = sid -> told = [])
  /\ JsMap.get (connections (fst r)) sid = Some (with_roomId (Some room) c)
  /\ (forall m r',
        member (rooms (fst r)) m r' <->
        (member (rooms st) m r' /\ m <> sid) \/ (m = sid /\ r' = room))
  /\ (exists s', JsMap.get (rooms (fst r)) room = Some s' /\ In sid s' /\
                 map p_socketId ps = s').
Proof.
  intros Hr Hc Hne r ps told. pose proof (settled_Inv st Hr) as HI.
  destruct (session_socket st sid c HI Hc) as [s [Hs [Hid [Huid [Huname _]]]]].
  assert (Hr' : settled (fst r)) by (now apply settled_step).
  pose proof (settled_Inv _ Hr') as HI'.
  pose proof (settled_Inv3 _ Hr') as H3'.
  set (d := mkJoinData (Some room) uname) in *.
  assert (Htd : truthy (jd_roomId d) = Some room) by now apply truthy_Some.
  assert (Hrun : r = roomJoin s (Some d) now st).
  { unfold r. simpl. unfold on_socket. now rewrite Hs. }
  rewrite <- Hid in Hc.
  assert (Hcs : forall m, JsMap.get (connections (fst r)) m =
            if String.eqb sid m then Some (with_roomId (Some room) c)
            else JsMap.get (connections st) m).
  { intros m. rewrite Hrun, (connections_roomJoin st s d room c now m Htd Hc).
    now rewrite Hid. }
  assert (Hmem : forall m r',
            member (rooms (fst r)) m r' <->
            (member (rooms st) m r' /\ m <> sid) \/ (m = sid /\ r' = room)).
  { intros m r'. rewrite (inv_agree _ HI'), (inv_agree _ HI), Hcs.
    destruct (String.eqb_spec sid m) as [<-|Hnm].
    - split.
      + intros [c' [[= <-] Hr0]]. simpl in Hr0. right. split; congruence.
      + intros [[_ Habs]|[_ ->]]; [contradiction|]. eauto.
    - split.
      + intros H. left. split; [assumption | congruence].
      + intros [[H _]|[Habs _]]; [assumption | congruence]. }
  split; [|split; [|split; [|split; [|split; [|split; [|split]]]]]].
  - unfold ps, told. rewrite Hrun.
    destruct (roomId c) as [old|] eqn:Hold.
    + assert (Ht : truthy (roomId c) = Some old).
      { rewrite Hid in Hc. rewrite (inv_truthy_eq st sid c HI Hc).
        assumption. }
      rewrite (roomJoin_in st s d room c old now Htd Hc Ht).
      rewrite (leaveRoom_in st s now c old Hc Ht). cbn [fst snd app].
      rewrite in_room_socket_leave.
      now rewrite Hid, Huid, Huname.
    + assert (Ht : truthy (roomId c) = None) by now rewrite Hold.
      rewrite (roomJoin_fresh st s d room c now Htd Hc Ht). cbn [fst snd app].
      now rewrite Hid, Huid, Huname.
  - intros old m. apply In_in_room_except_subscribed.
    exact (inv3_adapter_keys st (settled_Inv3 st Hr)).
  - intros m. apply In_socket_to. exact (inv3_adapter_keys _ H3').
  - intros Hroom m Hm Hnm. apply members_told; try assumption.
    apply Hmem. now left.
  - intros ->. apply socket_to_own.
  - now rewrite Hcs, String.eqb_refl.
  - exact Hmem.
  - assert (Hm : member (rooms (fst r)) sid room)
      by (apply Hmem; now right).
    destruct Hm as [s' [Hs' Hin]]. exists s'. split; [assumption|].
    split; [assumption|].
    now apply (proj1 (roster_of_settled (fst r) room now Hr') s' Hs').
Qed.

(** X13. After [audio:toggle] with a boolean flag, the roster of the
    sender's room shows the sender with that flag; the room index and the
    other sessions are unchanged. *)
Theorem muted_flag_in_roster st sid c room b now :
  settled st ->
  JsMap.get (connections st) sid = Some c ->
  roomId c = Some room ->
  let st' :=
    fst (run now (OpAudioToggle sid (Some (mkAudioData (Some b)))) st) in
  In (mkParticipant (userId c) (userName c) (userRole c) sid b)
    (getRoomParticipants room st')
  /\ rooms st' = rooms st
  /\ (forall m, m <> sid ->
        JsMap.get (connections st') m = JsMap.get (connections st) m).
Proof.
  intros Hr Hc Hroom st'. pose proof (settled_Inv st Hr) as HI.
  destruct (session_socket st sid c HI Hc) as [s [Hs [Hid _]]].
  assert (Hr' : settled st') by (now apply settled_step).
  assert (Ht : truthy (roomId c) = Some room)
    by (rewrite (inv_truthy_eq st sid c HI Hc); assumption).
  assert (Hrun : st' =
    set_connections st
      (JsMap.modify (connections st) sid (with_audioMuted (Some b)))).
  { unfold st'. simpl. unfold on_socket, audioToggle.
    now rewrite Hs, Hid, Hc, Ht. }
  assert (Hc' : JsMap.get (connections st') sid =
                Some (with_audioMuted (Some b) c)).
  { rewrite Hrun. simpl. now rewrite get_modify, String.eqb_refl, Hc. }
  split; [|split].
  - assert (Hm : member (rooms st') sid room).
    { rewrite Hrun. simpl. apply (inv_agree st HI). eauto. }
    destruct Hm as [members [Hmembers Hin]].
    destruct (proj1 (roster_of_settled st' room now Hr') members Hmembers)
      as [Hids [_ Hfields]].
    rewrite <- Hids in Hin. apply in_map_iff in Hin.
    destruct Hin as [p [Hp Hin]].
    destruct (Hfields p Hin) as [c' [Hget [_ Heq]]].
    rewrite Hp, Hc' in Hget. injection Hget as <-.
    rewrite Heq in Hin. rewrite Hp in Hin. simpl in Hin.
    now destruct b.
  - now rewrite Hrun.
  - intros m Hne. rewrite Hrun. simpl. rewrite get_modify.
    apply not_eq_sym in Hne. apply String.eqb_neq in Hne. now rewrite Hne.
Qed.

(** ** Statistics *)

Lemma length_filter_map (A B : Type) (g : A -> B) (keep : B -> bool)
    (l : list A) :
  List.length (filter keep (map g l)) =
  List.length (filter (fun a => keep (g a)) l).
Proof.
  induction l as [|a l IH]; simpl; [reflexivity|].
  destruct (keep (g a)); simpl; now rewrite IH.
Qed.

(** X14. Whatever the schedule, the statistics list no connection id and
    no room id twice, the totals are the lengths of the two lists, and
    every listed room has a count of at least one, which is the size of
    its membership set.  When registry and room index agree, the count of
    a room is the number of listed connections whose room id is that room,
    and the room of every listed connection is listed. *)
Theorem stats_consistent cfg :
  reachable cfg ->
  let st := state cfg in
  let stats := getConnectionStats st in
  totalConnections stats = List.length (stats_connections stats)
  /\ totalRooms stats = List.length (stats_rooms stats)
  /\ NoDup (map ci_socketId (stats_connections stats))
  /\ NoDup (map ri_roomId (stats_rooms stats))
  /\ (forall ri, In ri (stats_rooms stats) ->
        1 <= ri_participantCount ri /\
        exists s, JsMap.get (rooms st) (ri_roomId ri) = Some s /\
                  NoDup s /\ ri_participantCount ri = List.length s)
  /\ (forall ci, In ci (stats_connections stats) ->
        exists c, JsMap.get (connections st) (ci_socketId ci) = Some c /\
          ci = mkConnectionInfo (ci_socketId ci) (userId c) (userName c)
                 (roomId c) (connectedAt c))
  /\ (registry_index_agree st ->
      (forall ri, In ri (stats_rooms stats) ->
         ri_participantCount ri =
         List.length
           (filter (fun ci => match ci_roomId ci with
                              | Some r => String.eqb r (ri_roomId ri)
                              | None => false
                              end)
              (stats_connections stats)))
      /\ (forall ci room, In ci (stats_connections stats) ->
            ci_roomId ci = Some room ->
            exists ri, In ri (stats_rooms stats) /\ ri_roomId ri = room)).
Proof.
  intros Hr st stats. destruct (reachable_Wf cfg Hr) as [HW _].
  fold st in HW.
  split; [unfold stats; simpl; now rewrite length_map|].
  split; [unfold stats; simpl; now rewrite length_map|].
  split; [unfold stats; simpl; rewrite map_map; apply (wf_connections st HW)|].
  split; [unfold stats; simpl; rewrite map_map; apply (wf_room_keys st HW)|].
  split; [|split].
  - intros ri Hri. unfold stats in Hri. simpl in Hri.
    apply in_map_iff in Hri. destruct Hri as [[k s] [<- Hin]]. simpl.
    apply (In_get _ _ _ _ (wf_room_keys st HW)) in Hin.
    destruct (wf_rooms st HW k s Hin) as [Hnd Hne]. split.
    + destruct s; [congruence | simpl; lia].
    + exists s. now repeat split.
  - intros ci Hci. unfold stats in Hci. simpl in Hci.
    apply in_map_iff in Hci. destruct Hci as [[k c] [<- Hin]]. simpl.
    apply (In_get _ _ _ _ (wf_connections st HW)) in Hin. eauto.
  - intros [Hagree Hcount]. split.
    + intros ri Hri. unfold stats in Hri. simpl in Hri.
      apply in_map_iff in Hri. destruct Hri as [[k s] [<- Hin]]. simpl.
      apply (In_get _ _ _ _ (wf_room_keys st HW)) in Hin.
      rewrite length_filter_map. exact (Hcount k s Hin).
    + intros ci room Hci Hroom. unfold stats in Hci. simpl in Hci.
      apply in_map_iff in Hci. destruct Hci as [[k c] [<- Hin]].
      simpl in Hroom.
      apply (In_get _ _ _ _ (wf_connections st HW)) in Hin.
      destruct (proj1 (Hagree k c Hin room) Hroom) as [s [Hs _]].
      exists (mkRoomInfo room (JsSet.size s)). split; [|reflexivity].
      unfold stats. simpl. apply in_map_iff. exists (room, s).
      split; [reflexivity|]. now apply get_In.
Qed.

(** ** Round trips *)

Lemma set_fresh V (m : JsMap.t V) k v :
  JsMap.get m k = None -> JsMap.set m k v = (m ++ [(k, v)])%list.
Proof.
  induction m as [|[k0 v0] m IH]; simpl; [reflexivity|].
  destruct (String.eqb k0 k); [discriminate|].
  intros H. now rewrite IH.
Qed.

Lemma delete_absent V (m : JsMap.t V) k :
  JsMap.get m k = None -> JsMap.delete m k = m.
Proof.
  induction m as [|[k0 v0] m IH]; simpl; [reflexivity|].
  destruct (String.eqb k0 k); [discriminate|].
  intros H. simpl. now rewrite IH.
Qed.

Lemma delete_set_fresh V (m : JsMap.t V) k v :
  JsMap.get m k = None -> JsMap.delete (JsMap.set m k v) k = m.
Proof.
  intros H. rewrite (set_fresh V m k v H). unfold JsMap.delete.
  rewrite filter_app. simpl. rewrite String.eqb_refl. simpl.
  rewrite app_nil_r. now apply delete_absent.
Qed.

Lemma modify_modify V (m : JsMap.t V) k f g :
  JsMap.modify (JsMap.modify m k f) k g = JsMap.modify m k (fun v => g (f v)).
Proof.
  unfold JsMap.modify. rewrite map_map. apply map_ext.
  intros [k0 v0]. simpl. destruct (String.eqb k0 k) eqn:E; simpl; now rewrite E.
Qed.

Lemma modify_same V (m : JsMap.t V) k f v :
  NoDup (JsMap.keys m) -> JsMap.get m k = Some v -> f v = v ->
  JsMap.modify m k f = m.
Proof.
  intros Hnd Hget Hf. unfold JsMap.modify.
  rewrite <- (map_id m) at 2. apply map_ext_in.
  intros [k0 v0] Hin. simpl.
  destruct (String.eqb_spec k0 k) as [->|_]; [|reflexivity].
  apply (In_get _ _ _ _ Hnd) in Hin. congruence.
Qed.

Lemma set_delete_add (s : JsSet.t) x :
  ~ In x s -> JsSet.delete (JsSet.add s x) x = s.
Proof.
  intros Hnot. unfold JsSet.add.
  assert (Hhas : JsSet.has s x = false) by now apply has_false_not_In.
  rewrite Hhas. unfold JsSet.delete. rewrite filter_app. simpl.
  rewrite String.eqb_refl. simpl. rewrite app_nil_r. clear Hhas.
  induction s as [|y s IH]; simpl; [reflexivity|].
  destruct (String.eqb_spec y x) as [->|_]; simpl.
  - exfalso. apply Hnot. now left.
  - rewrite IH; [reflexivity|]. intros H. apply Hnot. now right.
Qed.

(** Removing what was just added gives the index back. *)
Lemma index_remove_add m k x :
  NoDup (JsMap.keys m) -> sets_ok m -> ~ member m x k ->
  index_remove (index_add m k x) k x = m.
Proof.
  intros Hnd Hok Hnot. unfold index_add, index_remove, JsMap.has.
  destruct (JsMap.get m k) as [s|] eqn:E.
  - assert (Hx : ~ In x s) by (intros H; apply Hnot; now exists s).
    rewrite !get_modify, !String.eqb_refl, E. simpl.
    rewrite (set_delete_add s x Hx).
    destruct (Hok k s E) as [_ Hne].
    destruct (Nat.eqb (JsSet.size s) 0) eqn:Esz.
    + apply length_zero_nil in Esz. contradiction.
    + rewrite modify_modify.
      apply (modify_same _ m k _ s Hnd E). now apply set_delete_add.
  - assert (Happ : forall (l : JsMap.t JsSet.t) f,
              JsMap.modify (m ++ l)%list k f = (m ++ JsMap.modify l k f)%list).
    { intros l f. unfold JsMap.modify. rewrite map_app.
      fold (JsMap.modify m k f). now rewrite (modify_absent _ m k f E). }
    assert (Hget : forall v : JsSet.t,
              JsMap.get (m ++ [(k, v)])%list k = Some v).
    { intros v. rewrite <- (set_fresh _ m k v E).
      now rewrite get_set, String.eqb_refl. }
    rewrite (set_fresh _ m k [] E), Happ. simpl. rewrite String.eqb_refl.
    simpl. rewrite Hget, Happ. simpl. rewrite String.eqb_refl. simpl.
    rewrite Hget, String.eqb_refl. simpl.
    unfold JsMap.delete. rewrite filter_app. simpl.
    rewrite String.eqb_refl. simpl. rewrite app_nil_r.
    now apply delete_absent.
Qed.

(** X15. Connect followed by disconnect is a round trip: the registry, the
    room index, the multiplicity tracker, the sockets and their rooms are
    exactly as before the connection. *)
Theorem connect_disconnect_round_trip st socket now later :
  settled st ->
  JsMap.get (sockets st) (sock_id socket) = None ->
  let st2 :=
    fst (run later (OpDisconnect (sock_id socket))
           (fst (run now (OpConnect socket) st))) in
  connections st2 = connections st /\ rooms st2 = rooms st /\
  userSockets st2 = userSockets st /\ sockets st2 = sockets st /\
  adapter st2 = adapter st.
Proof.
  intros Hr Hfresh st2. pose proof (settled_Inv st Hr) as HI.
  pose proof (settled_Inv2 st Hr) as H2.
  assert (Hc : JsMap.get (connections st) (sock_id socket) = None)
    by now apply (inv_live st HI).
  assert (Hrun : st2 =
    fst (onDisconnect socket later
           (socket_close (sock_id socket)
              (fst (onConnection socket now (socket_open socket st)))))).
  { unfold st2. cbn [run]. unfold on_socket. simpl sockets.
    now rewrite get_set, String.eqb_refl. }
  rewrite Hrun. unfold onDisconnect, disconnect_sync.
  rewrite leaveRoom_sync_out.
  2:{ simpl. intros c. rewrite get_set, String.eqb_refl.
      now intros [= <-]. }
  rewrite disconnect_resume_state. simpl.
  split; [now apply delete_set_fresh|]. split; [reflexivity|].
  split; [|split].
  - change (index_remove
              (index_add (userSockets st) (sock_userId socket)
                 (sock_id socket))
              (sock_userId socket) (sock_id socket) = userSockets st).
    apply index_remove_add.
    + apply (inv2_user_keys st H2).
    + apply (inv2_user_sets st H2).
    + intros Hm. destruct (inv_user st HI _ _ Hm) as [s [Hs _]]. congruence.
  - now apply delete_set_fresh.
  - apply delete_set_fresh. now apply (inv2_adapter_dom st H2).
Qed.

(** X16. For a session in no room, [room:join] followed by [room:leave]
    is a round trip on the registry, the room index, the multiplicity
    tracker and the sockets. *)
Theorem join_leave_round_trip st sid c room uname now later :
  settled st ->
  JsMap.get (connections st) sid = Some c ->
  roomId c = None ->
  room <> "" ->
  let st2 :=
    fst (run later (OpRoomLeave sid)
           (fst (run now (OpRoomJoin sid
                            (Some (mkJoinData (Some room) uname))) st))) in
  connections st2 = connections st /\ rooms st2 = rooms st /\
  userSockets st2 = userSockets st /\ sockets st2 = sockets st.
Proof.
  intros Hr Hc Hnone Hne st2. pose proof (settled_Inv st Hr) as HI.
  pose proof (settled_Inv2 st Hr) as H2.
  destruct (session_socket st sid c HI Hc) as [s [Hs [Hid _]]].
  set (d := mkJoinData (Some room) uname) in *.
  assert (Htd : truthy (jd_roomId d) = Some room) by now apply truthy_Some.
  assert (Ht : truthy (roomId c) = None) by now rewrite Hnone.
  rewrite <- Hid in Hc.
  assert (H1 : fst (run now (OpRoomJoin sid (Some d)) st) = joined s room st).
  { simpl. unfold on_socket. rewrite Hs.
    now rewrite (roomJoin_fresh st s d room c now Htd Hc Ht). }
  assert (Hrun : st2 = fst (leaveRoom s later (joined s room st))).
  { unfold st2. rewrite H1. simpl. unfold on_socket, roomLeave. simpl.
    now rewrite Hs. }
  rewrite Hrun.
  rewrite (leaveRoom_in (joined s room st) s later
             (with_roomId (Some room) c) room).
  2:{ simpl. now rewrite get_modify, String.eqb_refl, Hc. }
  2:{ apply truthy_Some. split; [reflexivity | assumption]. }
  simpl. split; [|split; [|now split]].
  - rewrite modify_modify.
    apply (modify_same _ _ _ _ c (inv_keys st HI) Hc).
    destruct c. simpl in *. now subst.
  - apply index_remove_add.
    + apply (inv2_room_keys st H2).
    + apply (inv_rooms_ok st HI).
    + intros Hm. apply (inv_agree st HI) in Hm.
      destruct Hm as [c' [Hc' Hr0]]. congruence.
Qed.

(** ** Emergency alerts *)


(** X21. An [emergency:alert] that overlaps a [room:leave] of its sender
    reaches no admin.  Y is in "alpha" with the admin X and sends
    [room:leave], then [emergency:alert] before the [sRem] of line 377 is
    answered: the guard of line 243 still reads "alpha" and the alert is
    queued with that room.  Line 387 then sets the room identifier to null,
    and when the handler of the alert resumes, line 260 reads null, finds
    no membership set and notifies nobody, while Y is told that the alert
    was received.  Sent alone, the same alert reaches X. *)
Theorem alert_after_leave_reaches_no_admin :
  let e := mkEmergency "u2" "Y" None (Some "help") 21 "alpha" in
  reachable alpha_config
  /\ (exists cfg,
        play leave_then_alert alpha_config =
        Some (cfg,
              [Emit ["x"] (EvParticipantLeft "u2" "Y" 22);
               Emit ["y"] (EvEmergencySent "received" 23)])
        /\ pending cfg = []
        /\ r_emergencies (redis (state cfg)) = [e])
  /\ (exists cfg,
        play alert_alone alpha_config =
        Some (cfg,
              [Emit ["x"] (EvEmergencyReceived e);
               Emit ["y"] (EvEmergencySent "received" 23)])
        /\ pending cfg = []
        /\ r_emergencies (redis (state cfg)) = [e]).
Proof.
  split; [exact alpha_config_reachable|]. split.
  - destruct (play leave_then_alert alpha_config) as [[cfg out]|] eqn:Hp;
      [|vm_compute in Hp; discriminate].
    exists cfg. vm_compute in Hp. injection Hp as <- <-.
    repeat split; reflexivity.
  - destruct (play alert_alone alpha_config) as [[cfg out]|] eqn:Hp;
      [|vm_compute in Hp; discriminate].
    exists cfg. vm_compute in Hp. injection Hp as <- <-.
    repeat split; reflexivity.
Qed.

(** ** The extras on concrete runs *)

Ltac by_script script :=
  apply (exec_settled script init);
  [apply settled_init | vm_compute; reflexivity].

Lemma race_config_reachable : reachable race_config.
Proof.
  apply (play_reachable overlapping_joins alpha_config race_config
           (snd (match play overlapping_joins alpha_config with
                 | Some r => r
                 | None => (alpha_config, [])
                 end))).
  - exact alpha_config_reachable.
  - vm_compute. reflexivity.
Qed.

Lemma multiplicity_tracker_witness :
  userSockets (state race_config) = [("u1", ["x"]); ("u2", ["y"])]
  /\ forall sid uid, member (userSockets (state race_config)) sid uid ->
       exists s, JsMap.get (sockets (state race_config)) sid = Some s /\
                 sock_id s = sid /\ sock_userId s = uid.
Proof.
  split; [vm_compute; reflexivity|].
  destruct (multiplicity_tracker race_config) as [_ [_ [_ H]]].
  - exact race_config_reachable.
  - apply H. vm_compute. reflexivity.
Defined.

Lemma room_join_rejects_bad_payload_witness :
  run 9 (OpRoomJoin "y" None) alpha_state =
    (alpha_state, [Emit ["y"] (EvError "Failed to join room")])
  /\ run 9 (OpRoomJoin "y" (Some (mkJoinData None None))) alpha_state =
    (alpha_state, [Emit ["y"] (EvError "Room ID required")])
  /\ run 9 (OpRoomJoin "y" (Some (mkJoinData (Some "") None))) alpha_state =
    (alpha_state, [Emit ["y"] (EvError "Room ID required")]).
Proof.
  apply (room_join_rejects_bad_payload alpha_state "y"
           (mkConnection "u2" "Y" "member" 1 (Some "alpha") true None None)).
  - by_script scenario.
  - vm_compute. reflexivity.
Defined.

Lemma kick_unknown_target_witness :
  run 9 (OpAdminKick "x" (Some (mkKickData (Some "gone") None))) alpha_state =
    (alpha_state, [Emit ["x"] (EvError "Participant not found")])
  /\ run 9 (OpAdminKick "x" None) alpha_state = (alpha_state, []).
Proof.
  apply (kick_unknown_target alpha_state "x"
           (mkConnection "u1" "X" "admin" 0 (Some "alpha") true None None)
           (mkKickData (Some "gone") None)).
  - by_script scenario.
  - vm_compute. reflexivity.
  - reflexivity.
  - intros tid [= <-]. vm_compute. reflexivity.
Defined.

Lemma admin_mute_effects_witness :
  run 9 (OpAdminMute "x" (Some (mkMuteData (Some "y")))) alpha_state =
    (alpha_state, [Emit ["y"] (EvForcedMute "X" 9)]).
Proof.
  destruct (admin_mute_effects alpha_state "x"
              (mkConnection "u1" "X" "admin" 0 (Some "alpha") true None None)
              9) as [H _].
  - by_script scenario.
  - vm_compute. reflexivity.
  - reflexivity.
  - apply (H "y"
             (mkConnection "u2" "Y" "member" 1 (Some "alpha") true None None)).
    vm_compute. reflexivity.
Defined.

Lemma fresh_session_survives_sweep_witness :
  JsMap.get (connections (fst (run 300002 OpCleanup pinged_state))) "x" =
  Some (mkConnection "u1" "X" "admin" 0 (Some "alpha") true None
          (Some 100%Z)).
Proof.
  apply (fresh_session_survives_sweep pinged_state "x"
           (mkConnection "u1" "X" "admin" 0 (Some "alpha") true None
              (Some 100%Z)) 300002).
  - by_script pinged_script.
  - vm_compute. reflexivity.
  - vm_compute. discriminate.
Defined.

Lemma heartbeat_keeps_session_witness :
  JsMap.get
    (connections
       (fst (run 300100 OpCleanup (fst (run 100 (OpPing "x" true) alpha_state)))))
    "x" =
  Some (mkConnection "u1" "X" "admin" 0 (Some "alpha") true None
          (Some 100%Z)).
Proof.
  apply (heartbeat_keeps_session alpha_state "x"
           (mkConnection "u1" "X" "admin" 0 (Some "alpha") true None None)
           true 100 300100).
  - by_script scenario.
  - vm_compute. reflexivity.
  - vm_compute. discriminate.
Defined.

Lemma sweep_idempotent_witness :
  run 300001 OpCleanup (fst (run 300002 OpCleanup pinged_state)) =
  (fst (run 300002 OpCleanup pinged_state), []).
Proof.
  apply (sweep_idempotent pinged_state 300002 300001).
  - by_script pinged_script.
  - vm_compute. discriminate.
Defined.


Lemma offline_only_for_last_device_witness :
  r_users (redis (fst (run 9 (OpDisconnect "y") devices_state))) =
  r_users (redis devices_state).
Proof.
  destruct (offline_only_for_last_device devices_state "y"
              (mkConnection "u2" "Y" "member" 1 (Some "alpha") true None None)
              9) as [H _].
  - by_script devices_script.
  - vm_compute. reflexivity.
  - apply H.
    exists "y2", (mkConnection "u2" "Y" "member" 4 None true None None).
    split; [discriminate|]. split; vm_compute; reflexivity.
Defined.


Lemma room_join_effects_witness :
  let r := run 9 (OpRoomJoin "x" alphaJoin) alpha_state in
  let ps := [mkParticipant "u2" "Y" "member" "y" false;
             mkParticipant "u1" "X" "admin" "x" false] in
  snd r =
    [Emit ["y"] (EvParticipantLeft "u1" "X" 9);
     Emit ["x"] (EvRoomJoined "alpha" ps 9);
     Emit ["y"] (EvParticipantJoined "u1" "X" "x" 9);
     Emit ["x"] (EvRoomState "alpha" ps 2 9)]
  /\ forall m, member (rooms alpha_state) m "alpha" -> m <> "x" ->
               In m (socket_to (fst r) "alpha" "x").
Proof.
  destruct (room_join_effects alpha_state "x"
           (mkConnection "u1" "X" "admin" 0 (Some "alpha") true None None)
           "alpha" None 9) as [Hout [_ [_ [Hmem _]]]].
  - by_script scenario.
  - vm_compute. reflexivity.
  - discriminate.
  - cbv zeta. split.
    + etransitivity; [exact Hout|]. vm_compute. reflexivity.
    + apply Hmem. discriminate.
Defined.

Lemma muted_flag_in_roster_witness :
  In (mkParticipant "u2" "Y" "member" "y" true)
    (getRoomParticipants "alpha"
       (fst (run 9 (OpAudioToggle "y" (Some (mkAudioData (Some true))))
               alpha_state))).
Proof.
  apply (muted_flag_in_roster alpha_state "y"
           (mkConnection "u2" "Y" "member" 1 (Some "alpha") true None None)
           "alpha" true 9).
  - by_script scenario.
  - vm_compute. reflexivity.
  - reflexivity.
Defined.

Lemma stats_consistent_witness :
  let stats := getConnectionStats (state race_config) in
  map ci_socketId (stats_connections stats) = ["x"; "y"]
  /\ stats_rooms stats =
     [mkRoomInfo "alpha" 1; mkRoomInfo "beta" 1; mkRoomInfo "gamma" 1]
  /\ NoDup (map ri_roomId (stats_rooms stats))
  /\ forall ri, In ri (stats_rooms stats) -> 1 <= ri_participantCount ri.
Proof.
  destruct (stats_consistent race_config) as [_ [_ [_ [Hnd [Hrooms _]]]]].
  - exact race_config_reachable.
  - cbv zeta. split; [vm_compute; reflexivity|].
    split; [vm_compute; reflexivity|]. split; [exact Hnd|].
    intros ri Hri. exact (proj1 (Hrooms ri Hri)).
Defined.

Lemma connect_disconnect_round_trip_witness :
  let st2 :=
    fst (run 9 (OpDisconnect "z") (fst (run 8 (OpConnect sockZ) alpha_state))) in
  connections st2 = connections alpha_state /\
  rooms st2 = rooms alpha_state /\
  userSockets st2 = userSockets alpha_state /\
  sockets st2 = sockets alpha_state /\
  adapter st2 = adapter alpha_state.
Proof.
  apply (connect_disconnect_round_trip alpha_state sockZ 8 9).
  - by_script scenario.
  - vm_compute. reflexivity.
Defined.

Lemma join_leave_round_trip_witness :
  let st2 :=
    fst (run 9 (OpRoomLeave "y")
           (fst (run 8 (OpRoomJoin "y" alphaJoin) lobby_state))) in
  connections st2 = connections lobby_state /\
  rooms st2 = rooms lobby_state /\
  userSockets st2 = userSockets lobby_state /\
  sockets st2 = sockets lobby_state.
Proof.
  apply (join_leave_round_trip lobby_state "y"
           (mkConnection "u2" "Y" "member" 0 None true None None)
           "alpha" None 8 9).
  - by_script lobby_script.
  - vm_compute. reflexivity.
  - reflexivity.
  - discriminate.
Defined.


(** ** The room index *)

(** X18. Whatever the schedule, the room index is well formed: no room
    id is listed twice, no room is named by the empty string, and the set
    of every listed room has at least one member and no member twice. *)
Theorem room_index_wellformed cfg :
  reachable cfg ->
  NoDup (JsMap.keys (rooms (state cfg)))
  /\ (forall room s, JsMap.get (rooms (state cfg)) room = Some s ->
        room <> "" /\ s <> [] /\ NoDup s).
Proof.
  intros Hr. destruct (reachable_Wf cfg Hr) as [HW _].
  split; [apply (wf_room_keys _ HW)|].
  intros room s Hs. split; [exact (wf_room_names _ HW room s Hs)|].
  destruct (wf_rooms _ HW room s Hs) as [Hnd Hne]. now split.
Qed.

Lemma room_index_wellformed_witness :
  rooms (state race_config) =
    [("alpha", ["x"]); ("beta", ["y"]); ("gamma", ["y"])]
  /\ NoDup (JsMap.keys (rooms (state race_config)))
  /\ (forall room s, JsMap.get (rooms (state race_config)) room = Some s ->
        room <> "" /\ s <> [] /\ NoDup s).
Proof.
  split; [vm_compute; reflexivity|].
  apply (room_index_wellformed race_config).
  exact race_config_reachable.
Defined.

Lemma delete_only_member (s : JsSet.t) x :
  NoDup s -> In x s -> JsSet.delete s x = [] -> s = [x].
Proof.
  intros Hnd Hin Hdel. destruct s as [|y s]; [destruct Hin|].
  unfold JsSet.delete in Hdel. simpl in Hdel.
  destruct (String.eqb_spec y x) as [->|_]; [|discriminate].
  simpl in Hdel. inversion Hnd as [|? ? Hfresh Hnd']; subst.
  destruct s as [|z s]; [reflexivity|].
  simpl in Hdel. destruct (String.eqb_spec z x) as [->|_]; [|discriminate].
  exfalso. apply Hfresh. now left.
Qed.

(** X19. When a session leaves its room, the room entry is deleted if the
    session was the only member, and otherwise keeps the other members in
    their order; the entries of the other rooms are untouched. *)
Theorem leave_updates_room_entry st sid c room s now :
  settled st ->
  JsMap.get (connections st) sid = Some c ->
  roomId c = Some room ->
  JsMap.get (rooms st) room = Some s ->
  let st' := fst (run now (OpRoomLeave sid) st) in
  In sid s
  /\ (s = [sid] -> JsMap.get (rooms st') room = None)
  /\ (s <> [sid] ->
      JsMap.get (rooms st') room = Some (JsSet.delete s sid))
  /\ (forall r, r <> room ->
        JsMap.get (rooms st') r = JsMap.get (rooms st) r).
Proof.
  intros Hr Hc Hroom Hs st'. pose proof (settled_Inv st Hr) as HI.
  destruct (session_socket st sid c HI Hc) as [sk [Hsk [Hid _]]].
  assert (Ht : truthy (roomId c) = Some room)
    by (rewrite (inv_truthy_eq st sid c HI Hc); assumption).
  assert (Hin : In sid s).
  { destruct (proj2 (inv_agree st HI sid room)) as [s0 [Hs0 Hin]]; [eauto|].
    congruence. }
  assert (Hrooms : rooms st' = index_remove (rooms st) room sid).
  { unfold st'. simpl. unfold on_socket, roomLeave. rewrite Hsk.
    rewrite <- Hid in Hc. rewrite (leaveRoom_in st sk now c room Hc Ht).
    simpl. now rewrite Hid. }
  rewrite Hrooms. split; [assumption|]. split; [|split].
  - intros ->. rewrite get_index_remove, String.eqb_refl, Hs.
    unfold JsSet.delete. simpl. now rewrite String.eqb_refl.
  - intros Hnot. rewrite get_index_remove, String.eqb_refl, Hs.
    destruct (Nat.eqb (JsSet.size (JsSet.delete s sid)) 0) eqn:E;
      [|reflexivity].
    exfalso. apply Hnot. apply length_zero_nil in E.
    apply delete_only_member; [|assumption|assumption].
    apply (inv_rooms_ok st HI room s Hs).
  - intros r Hne. rewrite get_index_remove. apply not_eq_sym in Hne.
    apply String.eqb_neq in Hne. now rewrite Hne.
Qed.

Lemma leave_updates_room_entry_witness :
  JsMap.get (rooms (fst (run 9 (OpRoomLeave "x") alpha_state))) "alpha" =
  Some ["y"].
Proof.
  destruct (leave_updates_room_entry alpha_state "x"
              (mkConnection "u1" "X" "admin" 0 (Some "alpha") true None None)
              "alpha" ["x"; "y"] 9) as [_ [_ [H _]]].
  - by_script scenario.
  - vm_compute. reflexivity.
  - reflexivity.
  - vm_compute. reflexivity.
  - apply H. discriminate.
Defined.

(** ** A kick is a notification and a disconnect *)

Lemma disconnect_outside_room ts now st :
  (forall c, JsMap.get (connections st) (sock_id ts) = Some c ->
             truthy (roomId c) = None) ->
  snd (onDisconnect ts now st) = [].
Proof.
  intros H. unfold onDisconnect, disconnect_sync.
  now rewrite (leaveRoom_sync_out st ts H).
Qed.

Lemma leaveRoom_then_disconnect ts now st :
  let kicked := leaveRoom ts now st in
  let closed := onDisconnect ts now (socket_close (sock_id ts) st) in
  fst (onDisconnect ts now (socket_close (sock_id ts) (fst kicked))) =
    fst closed
  /\ snd (onDisconnect ts now (socket_close (sock_id ts) (fst kicked))) = []
  /\ snd kicked = snd closed.
Proof.
  intros kicked closed. unfold kicked, closed.
  destruct (JsMap.get (connections st) (sock_id ts)) as [c|] eqn:Hc.
  2:{ rewrite leaveRoom_out by (intros c; congruence). cbn [fst snd].
      assert (Hout : snd (onDisconnect ts now
                            (socket_close (sock_id ts) st)) = []).
      { apply disconnect_outside_room. simpl. intros c. congruence. }
      now rewrite Hout. }
  destruct (truthy (roomId c)) as [room|] eqn:Ht.
  2:{ rewrite leaveRoom_out by (intros c'; congruence). cbn [fst snd].
      assert (Hout : snd (onDisconnect ts now
                            (socket_close (sock_id ts) st)) = []).
      { apply disconnect_outside_room. simpl. intros c'. congruence. }
      now rewrite Hout. }
  rewrite (leaveRoom_in st ts now c room Hc Ht).
  rewrite (onDisconnect_outputs st ts c now Hc), Ht. cbn [fst snd].
  split; [|split].
  - unfold onDisconnect, disconnect_sync.
    rewrite leaveRoom_sync_out.
    2:{ simpl. intros c'. rewrite get_modify, String.eqb_refl, Hc. simpl.
        now intros [= <-]. }
    rewrite (leaveRoom_sync_in (socket_close (sock_id ts) st) ts c room
               Hc Ht).
    rewrite !disconnect_resume_state. cbn [fst snd]. simpl.
    rewrite !delete_modify.
    rewrite (modify_absent _ (JsMap.delete (adapter st) (sock_id ts))).
    + reflexivity.
    + now rewrite get_delete, String.eqb_refl.
  - apply disconnect_outside_room. simpl. intros c'.
    rewrite get_modify, String.eqb_refl, Hc. simpl. now intros [= <-].
  - now rewrite in_room_socket_leave.
Qed.

(** X20. A kick of a registered target is a [kicked] notification to the
    target followed by exactly what a disconnect of the target does: the
    resulting state is the state after the target's disconnect, and the
    outputs are [kicked], then the outputs of that disconnect, then the
    termination of the target's connection. *)
Theorem kick_is_notify_then_disconnect st sid ca tid ct reason now :
  settled st ->
  JsMap.get (connections st) sid = Some ca ->
  userRole ca = "admin" ->
  JsMap.get (connections st) tid = Some ct ->
  let d := mkKickData (Some tid) reason in
  run now (OpAdminKick sid (Some d)) st =
  (fst (run now (OpDisconnect tid) st),
   Emit [tid] (EvKicked (userName ca) (kickReason d) now)
   :: snd (run now (OpDisconnect tid) st) ++ [Terminate tid])%list.
Proof.
  intros Hr Hca Hrole Hct d. pose proof (settled_Inv st Hr) as HI.
  destruct (session_socket st sid ca HI Hca)
    as [s [Hs [_ [_ [Hname Hsame]]]]].
  destruct (session_socket st tid ct HI Hct) as [ts [Hts [Hid _]]].
  simpl. unfold on_socket, adminKick. rewrite Hs, Hts, <- Hsame, Hrole.
  simpl. rewrite Hts.
  destruct (leaveRoom_then_disconnect ts now st) as [Hst [Hnil Hout]].
  rewrite <- Hid.
  destruct (leaveRoom ts now st) as [st1 out1]. unfold forceDisconnect.
  cbn [fst snd] in *.
  destruct (onDisconnect ts now (socket_close (sock_id ts) st1))
    as [st2 out2].
  cbn [fst snd] in *. subst out2. now rewrite <- Hst, <- Hout, Hname.
Qed.

Lemma kick_is_notify_then_disconnect_witness :
  run 9 (OpAdminKick "x" (Some (mkKickData (Some "y") (Some "spam"))))
    alpha_state =
  (fst (run 9 (OpDisconnect "y") alpha_state),
   Emit ["y"] (EvKicked "X" "spam" 9)
   :: snd (run 9 (OpDisconnect "y") alpha_state) ++ [Terminate "y"])%list.
Proof.
  apply (kick_is_notify_then_disconnect alpha_state "x"
           (mkConnection "u1" "X" "admin" 0 (Some "alpha") true None None) "y"
           (mkConnection "u2" "Y" "member" 1 (Some "alpha") true None None)
           (Some "spam") 9).
  - by_script scenario.
  - vm_compute. reflexivity.
  - reflexivity.
  - vm_compute. reflexivity.
Defined.
